(** * Inbound document intake and idempotent ledger pipeline

    A shallow embedding of the intake core of [src/server.js] (the
    TypeScript half of the file, lines 1140 onwards): text extraction,
    heuristic classification, billing gate, gated AI scoring, the
    read-modify-write protocol on the per-tenant day row and the gated
    customer notification.

    Conventions of the embedding.
    - A JavaScript string is a [string]: a sequence of 8-bit characters.
      The character classes of the regular expressions of the source act
      on the ASCII letters; [toLowerCase] maps the ASCII capitals and the
      capitals of Latin-1 (192-214, 216-222); characters 9-13, 32 and 160
      are the white space removed by [trim]; every other character is
      carried unchanged.
    - JavaScript numbers that count things are [nat] or [Z]; a score is an
      integer, and a score that is absent or not finite is [None].
    - Every remote collaborator (spreadsheet store, Drive sharing, scorer,
      mail transport, audit database, customer directory, object store) is
      reached through a state and exception monad over an explicit
      [World]. Each remote call is recorded, and it throws when the fault
      schedule of the environment says so; the schedule sees the position
      of the call and its request.
    - The spreadsheet store answers reads with what was last written
      (one task at a time; the races of concurrent tasks are not modelled),
      and the tenant-local date does not change during a run.
    - Two per-process memos are left out, each of which only suppresses a
      repeated remote call that cannot throw into the pipeline: the cached
      service account address with the set of sheets already shared
      (server.js 1309, 1501), and the 60-second customer cache (1818). *)

From Stdlib Require Import String Ascii List ZArith Lia Bool.
From stdpp Require Import base option list gmap strings.

Set Warnings "-abstract-large-number".

Local Open Scope list_scope.

(** ** JavaScript string primitives *)

Module Js.

Definition code (c : ascii) : nat := nat_of_ascii c.

(** [/[A-Z]/] *)
Definition isUpper (c : ascii) : bool := (65 <=? code c) && (code c <=? 90).
(** [/[a-z]/] *)
Definition isLower (c : ascii) : bool := (97 <=? code c) && (code c <=? 122).
(** [/[A-Za-z]/] *)
Definition isLetter (c : ascii) : bool := isUpper c || isLower c.
(** the white space and line terminators that [String.prototype.trim]
    strips, among the code units below 256: tab, line feed, vertical tab,
    form feed, carriage return, space and the no-break space U+00A0 *)
Definition isSpace (c : ascii) : bool :=
  ((9 <=? code c) && (code c <=? 13)) || (code c =? 32) || (code c =? 160).

(** the capitals of Latin-1 that [String.prototype.toLowerCase] maps:
    U+00C0 to U+00DE without the multiplication sign U+00D7 *)
Definition isLatin1Upper (c : ascii) : bool :=
  (192 <=? code c) && (code c <=? 222) && negb (code c =? 215).

Definition lowerChar (c : ascii) : ascii :=
  if isUpper c || isLatin1Upper c then ascii_of_nat (code c + 32) else c.

(** [s.toLowerCase()] *)
Fixpoint toLowerCase (s : string) : string :=
  match s with
  | EmptyString => EmptyString
  | String c r => String (lowerChar c) (toLowerCase r)
  end.

(** [(s.match(re) || []).length] for a one-character class [re] with the
    [g] flag: the number of characters of [s] in the class. *)
Fixpoint countChars (p : ascii -> bool) (s : string) : nat :=
  match s with
  | EmptyString => 0
  | String c r => (if p c then 1 else 0) + countChars p r
  end.

(** [s.startsWith(p)] *)
Fixpoint startsWith (s p : string) : bool :=
  match p, s with
  | EmptyString, _ => true
  | String _ _, EmptyString => false
  | String a p', String b s' => if Ascii.eqb a b then startsWith s' p' else false
  end.

(** [s.includes(k)] *)
Fixpoint includes (s k : string) : bool :=
  startsWith s k ||
  match s with
  | EmptyString => false
  | String _ r => includes r k
  end.

(** [s.trimStart()] *)
Fixpoint trimStart (s : string) : string :=
  match s with
  | EmptyString => EmptyString
  | String c r => if isSpace c then trimStart r else s
  end.

(** [s.trimEnd()] *)
Fixpoint trimEnd (s : string) : string :=
  match s with
  | EmptyString => EmptyString
  | String c r =>
      match trimEnd r with
      | EmptyString => if isSpace c then EmptyString else String c EmptyString
      | r' => String c r'
      end
  end.

(** [s.trim()] *)
Definition trim (s : string) : string := trimEnd (trimStart s).

(** [s.slice(0, n)] for [n >= 0] *)
Fixpoint slice0 (n : nat) (s : string) : string :=
  match n, s with
  | O, _ => EmptyString
  | _, EmptyString => EmptyString
  | S n', String c r => String c (slice0 n' r)
  end.

(** [s.split(",")]: never the empty array; the empty string splits into
    one empty part *)
Fixpoint splitComma (s : string) : list string :=
  match s with
  | EmptyString => [EmptyString]
  | String c r =>
      if Ascii.eqb c ","%char then EmptyString :: splitComma r
      else match splitComma r with
           | h :: t => String c h :: t
           | [] => [String c EmptyString]
           end
  end.

(** [parts.join(", ")] *)
Fixpoint joinCommaSpace (parts : list string) : string :=
  match parts with
  | [] => EmptyString
  | [p] => p
  | p :: rest => p +:+ ", " +:+ joinCommaSpace rest
  end.

(** a string is truthy when it is not empty *)
Definition truthy (s : string) : bool :=
  match s with EmptyString => false | _ => true end.

(** [arr.includes(x)] on an array of strings *)
Definition arrIncludes (arr : list string) (x : string) : bool :=
  existsb (String.eqb x) arr.

End Js.

(** A string that does not begin with white space. *)
Definition startsClean (s : string) : Prop :=
  match s with
  | EmptyString => True
  | String c _ => Js.isSpace c = false
  end.

(** [safeStr] (server.js 1148): the value, [undefined] and [null] read as
    the empty string, turned into a string and trimmed. *)
Definition safeStr (v : string) : string := Js.trim v.

(** ** Document classifier (server.js 1918-1985) *)

Inductive DocType := RESUME | NON_RESUME.

#[global] Instance DocType_eq_dec : EqDecision DocType.
Proof. solve_decision. Defined.

Definition resumeStrong : list string :=
  [ "professional summary"; "work experience"; "employment history";
    "experience"; "education"; "skills"; "certifications"; "certification";
    "projects"; "objective"; "curriculum vitae"; "resume"; "linkedin" ].

Definition resumeWeak : list string :=
  [ "responsibilities"; "achievements"; "accomplishments"; "references";
    "technical skills"; "core competencies"; "profile"; "summary";
    "high school"; "university"; "college"; "bachelor"; "diploma" ].

Definition nonResumeStrong : list string :=
  [ "invoice"; "amount due"; "subtotal"; "total due"; "payment"; "bill to";
    "ship to"; "purchase order"; "po number"; "statement of account";
    "terms and conditions" ].

(** [keys.some((k) => text.includes(k))] *)
Definition hasAny (text : string) (keys : list string) : bool :=
  existsb (fun k => Js.includes text k) keys.

(** [keys.reduce((n, k) => (text.includes(k) ? n + 1 : n), 0)] *)
Definition countAny (text : string) (keys : list string) : nat :=
  fold_left (fun n k => if Js.includes text k then n + 1 else n) keys 0.

Definition classifyDocTypeFromText (textRaw : string) : DocType :=
  let text := Js.toLowerCase textRaw in
  let letters := Js.countChars Js.isLower text in
  if letters <? 80 then NON_RESUME
  else
    let resumeScore := countAny text resumeStrong * 3 + countAny text resumeWeak in
    let nonResumeScore := countAny text nonResumeStrong * 3 in
    if hasAny text resumeStrong && (nonResumeScore <? resumeScore) then RESUME
    else if (3 <=? resumeScore) && (nonResumeScore <=? resumeScore) then RESUME
    else if (3 <=? nonResumeScore) && (resumeScore <? nonResumeScore) then NON_RESUME
    else NON_RESUME.

(** *** The decision rule as the specification words it

    The specification counts alphabetic characters of the submitted text,
    and weighs the indicators that are present in the lower-cased text. *)
Module ClassifierSpec.

Definition alphabeticCount (t : string) : nat := Js.countChars Js.isLetter t.

Definition present (low : string) (keys : list string) : list string :=
  List.filter (fun k => Js.includes low k) keys.

Definition resumeScore (low : string) : nat :=
  3 * length (present low resumeStrong) + 1 * length (present low resumeWeak).

Definition nonResumeScore (low : string) : nat :=
  3 * length (present low nonResumeStrong).

Definition anyStrongResume (low : string) : bool :=
  match present low resumeStrong with [] => false | _ :: _ => true end.

Definition minLetters : nat := 80.

Definition decide (t : string) : DocType :=
  if alphabeticCount t <? minLetters then NON_RESUME
  else
    let low := Js.toLowerCase t in
    let r := resumeScore low in
    let n := nonResumeScore low in
    if anyStrongResume low && (n <? r) then RESUME            (* (a) *)
    else if (3 <=? r) && (n <=? r) then RESUME                (* (b) *)
    else if (3 <=? n) && (r <? n) then NON_RESUME             (* (c) *)
    else NON_RESUME.                                          (* (d) *)

End ClassifierSpec.

(** ** Outcomes of fallible code

    A JavaScript function either returns a value or throws. *)

Inductive Outcome (A : Type) : Type :=
| Ok (a : A)
| Throw (message : string).
Arguments Ok {A} a.
Arguments Throw {A} message.

Definition isOk {A} (o : Outcome A) : bool :=
  match o with Ok _ => true | Throw _ => false end.

(** [try { body } catch (e) { handler(e) }] on pure code *)
Definition catchOutcome {A} (body : Outcome A) (handler : string -> Outcome A) : Outcome A :=
  match body with
  | Ok a => Ok a
  | Throw e => handler e
  end.

(** ** Configuration and platform (server.js 1227-1264)

    Values read once from the process environment, and the library
    functions the pipeline calls: decoders of [Buffer.toString], the PDF
    and DOCX readers, the SHA-256 digest and URL escaping. *)

Definition Buffer := list Byte.byte.

Record Config := {
  MAX_EXTRACTED_CHARS : nat;
  MAX_OPENAI_CHARS : nat;
  ADMIN_EMAIL : string;
  R2_PUBLIC_LINKS : bool;
  R2_PUBLIC_BASE_URL : string;
}.

Record Platform := {
  (** [buf.toString("utf8")] *)
  utf8Decode : Buffer -> string;
  (** [buf.toString("utf16le")] *)
  utf16leDecode : Buffer -> string;
  (** [(await pdfParse(buf))?.text]; [None] is an absent text *)
  pdfParse : Buffer -> Outcome (option string);
  (** [(await require("mammoth").extractRawText({ buffer }))?.value] *)
  mammothExtractRawText : Buffer -> Outcome (option string);
  (** [crypto.createHash("sha256").update(buf).digest("hex")] *)
  sha256Hex : Buffer -> string;
  (** [encodeURIComponent(key).replace(/%2F/g, "/")] *)
  encodeKeyForUrl : string -> string;
}.

(** ** Text extraction (server.js 1852-1913) *)

Module Extract.

(** [s.replace(/\u0000/g, ...)]: every NUL character removed *)
Fixpoint removeNul (s : string) : string :=
  match s with
  | EmptyString => EmptyString
  | String c r =>
      if Js.code c =? 0 then removeNul r else String c (removeNul r)
  end.

Fixpoint dropStr (n : nat) (s : string) : string :=
  match n, s with
  | O, _ => s
  | S _, EmptyString => EmptyString
  | S n', String _ r => dropStr n' r
  end.

(** [s.endsWith(suffix)] *)
Definition endsWith (s suffix : string) : bool :=
  (String.length suffix <=? String.length s)
  && String.eqb (dropStr (String.length s - String.length suffix) s) suffix.

End Extract.

(** [decodeTextSmartBuf]: the byte-order mark selects the decoder. The
    mark itself, U+FEFF, is not a character of the 8-bit alphabet of the
    embedding, so the leading-mark [replace] of the source has nothing
    to remove from a decoded text. *)
Definition decodeTextSmartBuf (pf : Platform) (buf : Buffer) : string :=
  match buf with
  | Byte.xff :: Byte.xfe :: _ => utf16leDecode pf buf
  | Byte.xef :: Byte.xbb :: Byte.xbf :: _ => utf8Decode pf buf
  | _ => utf8Decode pf buf
  end.

(** [looksGarbledText]. The source compares the floating-point quotient
    [letters / max(length, 1)] with [0.05]; on a sample of at most 2000
    characters the quotient differs from 1/20 by at least 1/40000 unless it
    equals it, so the comparison is the exact one, [20 * letters < length]. *)
Definition looksGarbledText (s : string) : bool :=
  let sample := Js.slice0 2000 s in
  let trimmed := Js.trim sample in
  if negb (Js.truthy trimmed) then true
  else
    let letters := Js.countChars Js.isLetter trimmed in
    letters * 20 <? Nat.max (String.length trimmed) 1.

Definition orEmpty (v : option string) : string :=
  match v with Some s => s | None => EmptyString end.

Definition extractTextFromBuffer (pf : Platform) (filename : string) (buf : Buffer)
  : Outcome string :=
  let nameLower := Js.toLowerCase filename in
  catchOutcome
    (if Extract.endsWith nameLower ".txt" then
       Ok (Extract.removeNul (safeStr (decodeTextSmartBuf pf buf)))
     else if Extract.endsWith nameLower ".pdf" then
       catchOutcome
         (match pdfParse pf buf with
          | Throw e => Throw e
          | Ok parsed =>
              let text := safeStr (orEmpty parsed) in
              if looksGarbledText text then Ok EmptyString else Ok text
          end)
         (fun _ => Ok EmptyString)
     else if Extract.endsWith nameLower ".docx" then
       catchOutcome
         (match mammothExtractRawText pf buf with
          | Throw e => Throw e
          | Ok value => Ok (safeStr (orEmpty value))
          end)
         (fun _ => Ok EmptyString)
     else
       Ok (Extract.removeNul (safeStr (decodeTextSmartBuf pf buf))))
    (fun _ => Ok EmptyString).

(** ** Billing gate (server.js 1834-1847) *)

Inductive Gate :=
| Allowed
| Blocked (reason : string).

Definition isProcessingAllowed (billingStatusRaw : string) : Gate :=
  let s := Js.toLowerCase (safeStr billingStatusRaw) in
  if negb (Js.truthy s) then Allowed
  else if String.eqb s "trial" || String.eqb s "trialing" then Allowed
  else if String.eqb s "active" then Allowed
  else if String.eqb s "trial_ended" then Blocked "trial_ended"
  else if String.eqb s "past_due" then Blocked "past_due"
  else if String.eqb s "canceled" then Blocked "canceled"
  else if String.eqb s "unpaid" then Blocked "unpaid"
  else Allowed.

Definition blockingStatuses : list string :=
  [ "trial_ended"; "past_due"; "canceled"; "unpaid" ].

(** ** Notes of the day row (server.js 1176-1191) *)

Definition splitTrim (s : string) : list string :=
  map Js.trim (Js.splitComma s).

(** [s.split(",").map(trim).filter(Boolean)] *)
Definition csvTokens (s : string) : list string :=
  List.filter Js.truthy (splitTrim s).

Definition stripR2FromNotes (notes : string) : string :=
  let n := safeStr notes in
  if negb (Js.truthy n) then EmptyString
  else
    Js.joinCommaSpace
      (List.filter
         (fun part => Js.truthy part && negb (Js.startsWith (Js.toLowerCase part) "r2:"))
         (splitTrim n)).

Definition appendNote (existing note : string) : string :=
  let ex := safeStr existing in
  if negb (Js.truthy ex) then note
  else
    let parts := splitTrim ex in
    if Js.arrIncludes parts note then ex
    else ex +:+ ", " +:+ note.

(** the token test of both duplicate checks (server.js 2143-2149 and
    2428-2434) *)
Definition tokenListed (currentCsv docToken : string) : bool :=
  if Js.truthy currentCsv then Js.arrIncludes (csvTokens currentCsv) docToken
  else false.

(** ** The ledger store

    One spreadsheet per tenant; row 1 holds the headers and the day rows
    start at row 2. Columns (server.js 2273): A date, B count, C notes,
    D customer, E latest storage key, F file link, G idempotency tokens,
    H last score. The count and score columns hold numbers: the pipeline
    writes nothing else into them. *)

Inductive Col := ColA | ColB | ColC | ColD | ColE | ColF | ColG | ColH.

#[global] Instance Col_eq_dec : EqDecision Col.
Proof. solve_decision. Defined.

Record Row := {
  rowDate : string;
  rowCount : Z;
  rowNotes : string;
  rowCustomer : string;
  rowR2Key : string;
  rowFile : string;
  rowTokens : string;
  rowLastScore : option Z;
}.

(** A single-cell [values.update]: the cell it targets fixes the column. *)
Inductive Write :=
| WCount (n : Z)
| WNotes (s : string)
| WCustomer (s : string)
| WR2Key (s : string)
| WFile (s : string)
| WTokens (s : string)
| WLastScore (n : Z).

Definition writeCol (wr : Write) : Col :=
  match wr with
  | WCount _ => ColB
  | WNotes _ => ColC
  | WCustomer _ => ColD
  | WR2Key _ => ColE
  | WFile _ => ColF
  | WTokens _ => ColG
  | WLastScore _ => ColH
  end.

Definition applyWrite (wr : Write) (r : Row) : Row :=
  match wr with
  | WCount n =>
      {| rowDate := rowDate r; rowCount := n; rowNotes := rowNotes r;
         rowCustomer := rowCustomer r; rowR2Key := rowR2Key r; rowFile := rowFile r;
         rowTokens := rowTokens r; rowLastScore := rowLastScore r |}
  | WNotes s =>
      {| rowDate := rowDate r; rowCount := rowCount r; rowNotes := s;
         rowCustomer := rowCustomer r; rowR2Key := rowR2Key r; rowFile := rowFile r;
         rowTokens := rowTokens r; rowLastScore := rowLastScore r |}
  | WCustomer s =>
      {| rowDate := rowDate r; rowCount := rowCount r; rowNotes := rowNotes r;
         rowCustomer := s; rowR2Key := rowR2Key r; rowFile := rowFile r;
         rowTokens := rowTokens r; rowLastScore := rowLastScore r |}
  | WR2Key s =>
      {| rowDate := rowDate r; rowCount := rowCount r; rowNotes := rowNotes r;
         rowCustomer := rowCustomer r; rowR2Key := s; rowFile := rowFile r;
         rowTokens := rowTokens r; rowLastScore := rowLastScore r |}
  | WFile s =>
      {| rowDate := rowDate r; rowCount := rowCount r; rowNotes := rowNotes r;
         rowCustomer := rowCustomer r; rowR2Key := rowR2Key r; rowFile := s;
         rowTokens := rowTokens r; rowLastScore := rowLastScore r |}
  | WTokens s =>
      {| rowDate := rowDate r; rowCount := rowCount r; rowNotes := rowNotes r;
         rowCustomer := rowCustomer r; rowR2Key := rowR2Key r; rowFile := rowFile r;
         rowTokens := s; rowLastScore := rowLastScore r |}
  | WLastScore n =>
      {| rowDate := rowDate r; rowCount := rowCount r; rowNotes := rowNotes r;
         rowCustomer := rowCustomer r; rowR2Key := rowR2Key r; rowFile := rowFile r;
         rowTokens := rowTokens r; rowLastScore := Some n |}
  end.

(** The day row appended by [ensureTodayTallyRow] (server.js 2032). *)
Definition freshRow (today customerId : string) : Row :=
  {| rowDate := today; rowCount := 0; rowNotes := EmptyString;
     rowCustomer := customerId; rowR2Key := EmptyString; rowFile := EmptyString;
     rowTokens := EmptyString; rowLastScore := None |}.

(** ** Tenants (server.js 1624-1638, 1724-1760) *)

Record CustomerRow := {
  customerId : string;
  companyName : string;
  adminEmail : string;
  intakeEmail : string;
  status : string;
  tallySheetId : string;
}.

(** [readCustomersFromMasterSheet] on the data rows of the master sheet:
    every cell goes through [safeStr] and a row without a customer
    identifier is skipped. *)
Definition readCustomersFromMasterSheet (rows : list CustomerRow) : list CustomerRow :=
  List.filter (fun c => Js.truthy (customerId c))
    (map (fun r =>
            {| customerId := safeStr (customerId r);
               companyName := safeStr (companyName r);
               adminEmail := safeStr (adminEmail r);
               intakeEmail := safeStr (intakeEmail r);
               status := safeStr (status r);
               tallySheetId := safeStr (tallySheetId r) |})
         rows).

(** [[...customers].reverse().find(x => ... === toEmail)] (server.js 2369) *)
Definition findCustomer (customers : list CustomerRow) (toEmail : string)
  : option CustomerRow :=
  List.find
    (fun x => String.eqb (Js.toLowerCase (Js.trim (safeStr (intakeEmail x)))) toEmail)
    (rev customers).

(** ** Scoring results *)

(** The value of a flag field of a JavaScript object: the boolean [true],
    another truthy value, or a falsy or absent one. *)
Inductive JsTruth := StrictTrue | OtherTruthy | Falsy.

(** What [scoreResume] returned (services/openaiScore.ts): the parsed
    reply of the model, or an object tagged [error]. Only the fields the
    pipeline reads are kept, each a JSON primitive. *)
Record ScorerReply := {
  replySkipped : JsTruth;
  replyReason : string;
  replyError : bool;
  replyScore : option Z;
}.

Inductive SkipReason :=
| billing_block | too_large | idempotent_skip | too_short | non_resume.

#[global] Instance SkipReason_eq_dec : EqDecision SkipReason.
Proof. solve_decision. Defined.

(** The [ai] variable of [processInboundDoc]. *)
Inductive Ai :=
| AiSkip (reason : SkipReason)
| AiReply (r : ScorerReply)
| AiFailed (message : string).

(** [ai?.skipped === true] *)
Definition aiSkippedIsTrue (ai : Ai) : bool :=
  match ai with
  | AiSkip _ => true
  | AiReply r => match replySkipped r with StrictTrue => true | _ => false end
  | AiFailed _ => false
  end.

(** [!!ai?.skipped] *)
Definition aiSkippedTruthy (ai : Ai) : bool :=
  match ai with
  | AiSkip _ => true
  | AiReply r => match replySkipped r with Falsy => false | _ => true end
  | AiFailed _ => false
  end.

(** [ai?.reason === "idempotent_skip"] *)
Definition aiReasonIsIdempotentSkip (ai : Ai) : bool :=
  match ai with
  | AiSkip r => bool_decide (r = idempotent_skip)
  | AiReply r => String.eqb (replyReason r) "idempotent_skip"
  | AiFailed _ => false
  end.

(** [!!ai?.error] *)
Definition aiErrorTruthy (ai : Ai) : bool :=
  match ai with
  | AiSkip _ => false
  | AiReply r => replyError r
  | AiFailed _ => true
  end.

(** [Number(ai?.score)] when it is finite *)
Definition aiScore (ai : Ai) : option Z :=
  match ai with
  | AiReply r => replyScore r
  | _ => None
  end.

(** ** Ledger results *)

Record TallyApplied := {
  tallyToday : string;
  nextCount : Z;
  nextNotes : string;
  shouldIncrement : bool;
}.

(** The [tallyResult] variable of [processInboundDoc]. *)
Inductive Tally :=
| TallyNone
| TallyBillingBlock (billingStatus blockedReason : string)
| TallyIdempotentSkip (today : string)
| TallyDone (r : TallyApplied)
| TallyFailed (message : string).

(** [tallyResult?.shouldIncrement === true] *)
Definition didIncrement (t : Tally) : bool :=
  match t with
  | TallyDone r => shouldIncrement r
  | _ => false
  end.

(** ** Remote calls, the world and the pipeline monad *)

(** The three places that read a token-set cell: the scoring pre-check
    (server.js 2422), the duplicate check of [tallyApply] (2137) and the
    merge of the new tokens (2204). *)
Inductive Site := AiPrecheck | TokenCheck | TokenMerge.

Inductive MessageKind :=
| Receipt
| ScoredResult (score : option Z).

(** The argument of [saveInboundDocToDb] at server.js 2501-2517. *)
Record AuditRecord := {
  auditSource : string;
  auditToEmail : string;
  auditCustomerId : string;
  auditResolvedCustomerId : string;
  auditMatchFound : bool;
  auditBillingStatus : string;
  auditBlockedReason : option string;
  auditFilename : string;
  auditR2Bucket : option string;
  auditR2Key : option string;
  auditDocType : DocType;
  auditExtractedChars : nat;
  auditTextPreview : string;
  auditAiScore : option Z;
  auditAi : Ai;
}.

(** The parameters of the INSERT of [saveInboundDocToDb] (server.js
    1476-1491), in the order of the columns; [None] is SQL's null. *)
Record AuditRow := {
  colSource : string;
  colToEmail : option string;
  colCustomerId : option string;
  colResolvedCustomerId : option string;
  colMatchFound : bool;
  colBillingStatus : option string;
  colBlockedReason : option string;
  colFilename : option string;
  colR2Bucket : option string;
  colR2Key : option string;
  colDocType : option string;
  colExtractedChars : option nat;
  colTextPreview : option string;
  colAiScore : option Z;
  colAiJson : Ai;
}.

(** [safeStr(v) || null] *)
Definition sqlText (v : string) : option string :=
  let s := safeStr v in
  if Js.truthy s then Some s else None.

Definition docTypeName (d : DocType) : string :=
  match d with
  | RESUME => "RESUME"
  | NON_RESUME => "NON_RESUME"
  end.

(** server.js 1476-1491. The length of a text and a score that is there
    are finite numbers. *)
Definition insertParams (a : AuditRecord) : AuditRow :=
  {| colSource := (let s := safeStr (auditSource a) in
                   if Js.truthy s then s else "unknown");
     colToEmail := sqlText (auditToEmail a);
     colCustomerId := sqlText (auditCustomerId a);
     colResolvedCustomerId := sqlText (auditResolvedCustomerId a);
     colMatchFound := auditMatchFound a;
     colBillingStatus := sqlText (auditBillingStatus a);
     colBlockedReason := sqlText (orEmpty (auditBlockedReason a));
     colFilename := sqlText (auditFilename a);
     colR2Bucket := sqlText (orEmpty (auditR2Bucket a));
     colR2Key := sqlText (orEmpty (auditR2Key a));
     colDocType := sqlText (docTypeName (auditDocType a));
     colExtractedChars := Some (auditExtractedChars a);
     colTextPreview := sqlText (auditTextPreview a);
     colAiScore := auditAiScore a;
     colAiJson := auditAi a |}.

Inductive Event :=
| DirectoryRead
| RubricQuery (customer : string)
| AuthedEmailLookup
| DriveShare (sheet email : string)
| SheetsGetRows (sheet : string)
| SheetsGetTokens (site : Site) (sheet : string) (rowNumber : Z)
| SheetsUpdate (sheet : string) (rowNumber : Z) (wr : Write)
| SheetsAppend (sheet : string) (r : Row)
| ScoreCall (text : string) (rubric : option string)
| AuditInsert (row : AuditRow)
| EmailSend (to : string) (kind : MessageKind)
| R2GetObject (bucket key : string).

(** The state the pipeline acts on: the spreadsheets (day rows only, row
    2 downwards), the number of remote calls issued, and the calls
    themselves, most recent first. *)
Record World := {
  ledger : gmap string (list Row);
  calls : nat;
  trace : list Event;
}.

(** What a run does not change: configuration, platform, the tenant-local
    date, the contents of the collaborators other than the ledger, and the
    fault schedule, which says of each remote call, by its position and its
    request, whether it throws. *)
Record Env := {
  config : Config;
  platform : Platform;
  today : string;
  remoteFails : nat -> Event -> bool;
  masterRows : list CustomerRow;
  rubricOf : string -> option string;
  authedEmail : option string;
  scoreResume : string -> ScorerReply;
  emailServiceAvailable : bool;
}.

Definition M (A : Type) : Type := World -> Outcome A * World.

Definition ret {A} (a : A) : M A := fun w => (Ok a, w).

Definition throw {A} (e : string) : M A := fun w => (Throw e, w).

Definition bind {A B} (m : M A) (k : A -> M B) : M B :=
  fun w =>
    match m w with
    | (Ok a, w') => k a w'
    | (Throw e, w') => (Throw e, w')
    end.

(** [try { m } catch (e) { h(e) }] *)
Definition tryCatch {A} (m : M A) (h : string -> M A) : M A :=
  fun w =>
    match m w with
    | (Ok a, w') => (Ok a, w')
    | (Throw e, w') => h e w'
    end.

Declare Scope pipeline_scope.
Delimit Scope pipeline_scope with pipeline.
Notation "x <- m ;; k" := (bind m (fun x => k))
  (at level 100, m at next level, right associativity) : pipeline_scope.
Notation "m ;;; k" := (bind m (fun _ => k))
  (at level 100, right associativity) : pipeline_scope.
Local Open Scope pipeline_scope.

(** Row [rowNumber] of the sheet as an index into the day rows. *)
Definition dataIndex (rowNumber : Z) : option nat :=
  if (2 <=? rowNumber)%Z then Some (Z.to_nat (rowNumber - 2)) else None.

(** [rows.findIndex(p)]; [None] stands for the -1 of JavaScript. *)
Fixpoint findIndex {A} (p : A -> bool) (l : list A) : option nat :=
  match l with
  | [] => None
  | x :: r => if p x then Some 0 else option_map S (findIndex p r)
  end.

(** The token-set cell of row [rowNumber]; a cell outside the day rows
    reads as absent. *)
Definition tokensAt (rows : list Row) (rowNumber : Z) : string :=
  match dataIndex rowNumber with
  | Some i => match rows !! i with
              | Some r => rowTokens r
              | None => EmptyString
              end
  | None => EmptyString
  end.

(** One cell of row [rowNumber] overwritten. Every row number the
    pipeline writes to comes from [ensureTodayTallyRow] and lies within the
    day rows (lemma [ensure_returns]). *)
Definition updated (rowNumber : Z) (wr : Write) (rows : list Row) : list Row :=
  match dataIndex rowNumber with
  | Some i => alter (applyWrite wr) i rows
  | None => rows
  end.

(** ** Inputs and result of [processInboundDoc] (server.js 2314-2347) *)

Inductive Source := SrcResend | SrcInboundFile | SrcInboundR2.

Definition sourceName (s : Source) : string :=
  match s with
  | SrcResend => "resend"
  | SrcInboundFile => "inbound-file"
  | SrcInboundR2 => "inbound-r2"
  end.

Record R2Ref := { r2Bucket : string; r2Key : string }.

Record Args := {
  argSource : Source;
  argFilename : string;
  argBuffer : Buffer;
  argExtractedText : option string;
  argDocType : option DocType;
  argToEmail : option string;
  argR2 : option R2Ref;
}.

Record InboundDocResult := {
  resSource : Source;
  resR2Key : option string;
  resToEmail : string;
  resCustomerId : string;
  resResolvedCustomerId : string;
  resDocType : DocType;
  resTextPreview : string;
  resBillingStatus : string;
  resBlocked : bool;
  resBlockedReason : option string;
  resTally : Tally;
  resAi : Ai;
  resMatchFound : bool;
}.

Record TodayRow := {
  rowIndex0 : Z;
  currentCount : Z;
  currentNotes : string;
}.

Definition quoteChar : string := String (ascii_of_nat 34) EmptyString.
Definition newline : string := String (ascii_of_nat 10) EmptyString.

Section Pipeline.

Context (env : Env).

(** *** Remote primitives *)

(** Issue a remote call: it is recorded and counted, and it throws when
    the fault schedule says so. *)
Definition issue (ev : Event) : M unit :=
  fun w =>
    let w' := {| ledger := ledger w; calls := S (calls w); trace := ev :: trace w |} in
    if remoteFails env (calls w) ev then (Throw "remote_call_failed", w')
    else (Ok tt, w').

Definition readLedger (sheet : string) : M (list Row) :=
  fun w =>
    match ledger w !! sheet with
    | Some rows => (Ok rows, w)
    | None => (Throw "spreadsheet_not_found", w)
    end.

Definition writeLedger (sheet : string) (f : list Row -> list Row) : M unit :=
  fun w =>
    match ledger w !! sheet with
    | Some rows =>
        (Ok tt, {| ledger := <[sheet := f rows]> (ledger w);
                   calls := calls w; trace := trace w |})
    | None => (Throw "spreadsheet_not_found", w)
    end.

(** [values.get] on [A2:H1000]: at most 999 day rows *)
Definition sheetsGetRows (sheet : string) : M (list Row) :=
  issue (SheetsGetRows sheet) ;;;
  rows <- readLedger sheet ;;
  ret (take 999 rows).

(** [values.get] on the cell [G<rowNumber>]; a cell outside the day rows
    reads as absent *)
Definition sheetsGetTokens (site : Site) (sheet : string) (rowNumber : Z) : M string :=
  issue (SheetsGetTokens site sheet rowNumber) ;;;
  rows <- readLedger sheet ;;
  ret (tokensAt rows rowNumber).

(** [values.update] on one cell of row [rowNumber] *)
Definition sheetsUpdate (sheet : string) (rowNumber : Z) (wr : Write) : M unit :=
  issue (SheetsUpdate sheet rowNumber wr) ;;;
  writeLedger sheet (updated rowNumber wr).

(** [values.append] on [A:H] *)
Definition sheetsAppend (sheet : string) (r : Row) : M unit :=
  issue (SheetsAppend sheet r) ;;;
  writeLedger sheet (fun rows => rows ++ [r]).

(** [logAuthedGoogleEmailFromTokens] (server.js 1312): never throws *)
Definition logAuthedGoogleEmailFromTokens : M (option string) :=
  tryCatch
    (issue AuthedEmailLookup ;;;
     ret (match authedEmail env with
          | Some e => if Js.truthy e then Some e else None
          | None => None
          end))
    (fun _ => ret None).

(** [ensureSheetSharedOnce] (server.js 1511): never throws. The
    per-process memo of shared sheets only suppresses repeated Drive calls
    and is left out. *)
Definition ensureSheetSharedOnce (sheet email : string) : M unit :=
  if negb (Js.truthy sheet) || negb (Js.truthy email) then ret tt
  else tryCatch (issue (DriveShare sheet email)) (fun _ => ret tt).

(** server.js 2004-2012 *)
Definition shareBeforeAccess (sheet : string) : M unit :=
  authed <- logAuthedGoogleEmailFromTokens ;;
  match authed with
  | Some e => ensureSheetSharedOnce sheet e
  | None => ret tt
  end ;;;
  let admin := ADMIN_EMAIL (config env) in
  let sameAsAuthed :=
    match authed with
    | Some e => String.eqb (Js.toLowerCase admin) (Js.toLowerCase e)
    | None => false
    end in
  if Js.truthy admin && negb sameAsAuthed then ensureSheetSharedOnce sheet admin
  else ret tt.

(** *** Ledger engine (server.js 1996-2048, 2108-2246) *)

Definition isToday (today : string) (r : Row) : bool :=
  String.eqb (safeStr (rowDate r)) today.

Definition ensureTodayTallyRow (sheet today customer : string) : M TodayRow :=
  shareBeforeAccess sheet ;;;
  rows <- sheetsGetRows sheet ;;
  match findIndex (isToday today) rows with
  | Some i =>
      ret {| rowIndex0 := Z.of_nat i;
             currentCount := match rows !! i with Some r => rowCount r | None => 0%Z end;
             currentNotes := safeStr (match rows !! i with
                                      | Some r => rowNotes r
                                      | None => EmptyString
                                      end) |}
  | None =>
      sheetsAppend sheet (freshRow today customer) ;;;
      rows2 <- sheetsGetRows sheet ;;
      ret {| rowIndex0 := match findIndex (isToday today) rows2 with
                          | Some i => Z.of_nat i
                          | None => (Z.of_nat (length rows2) - 1)%Z
                          end;
             currentCount := 0%Z;
             currentNotes := EmptyString |}
  end.

Definition buildR2PublicUrl (key : string) : string :=
  if negb (R2_PUBLIC_LINKS (config env)) then EmptyString
  else if negb (Js.truthy (R2_PUBLIC_BASE_URL (config env))) then EmptyString
  else if negb (Js.truthy key) then EmptyString
  else R2_PUBLIC_BASE_URL (config env) +:+ "/" +:+ encodeKeyForUrl (platform env) key.

Definition cleanNotes (currentNotes : string) : string :=
  Js.joinCommaSpace
    (List.filter (fun s => negb (String.eqb s "inbound-file:NON_RESUME"))
       (csvTokens (stripR2FromNotes currentNotes))).

Definition noteFor (docType : DocType) (source : string) : string :=
  match docType with
  | RESUME => source +:+ ":RESUME"
  | NON_RESUME => source +:+ ":NON_RESUME"
  end.

(** [for (const w of wanted) if (!tokens.includes(w)) tokens.push(w)] *)
Definition mergeTokens (tokens wanted : list string) : list string :=
  fold_left (fun acc w => if Js.arrIncludes acc w then acc else acc ++ [w]) wanted tokens.

(** The writes of server.js 2184-2243, for a RESUME with a storage key. *)
Definition recordPointerAndTokens (sheet : string) (rowNumber : Z)
    (key docToken : string) (ai : Ai) : M unit :=
  sheetsUpdate sheet rowNumber (WR2Key key) ;;;
  let url := buildR2PublicUrl key in
  let fileCell :=
    if Js.truthy url
    then "=HYPERLINK(" +:+ quoteChar +:+ url +:+ quoteChar +:+ ","
         +:+ quoteChar +:+ "resume file" +:+ quoteChar +:+ ")"
    else EmptyString in
  sheetsUpdate sheet rowNumber (WFile (if Js.truthy fileCell then fileCell else url)) ;;;
  existingG <- sheetsGetTokens TokenMerge sheet rowNumber ;;
  let currentG := safeStr existingG in
  let tokens := if Js.truthy currentG then csvTokens currentG else [] in
  let wanted :=
    (if Js.truthy docToken then [docToken] else [])
    ++ (if Js.truthy key then ["r2:" +:+ key] else []) in
  sheetsUpdate sheet rowNumber (WTokens (Js.joinCommaSpace (mergeTokens tokens wanted))) ;;;
  match aiScore ai with
  | Some scoreNum => sheetsUpdate sheet rowNumber (WLastScore scoreNum)
  | None => ret tt
  end.

(** The duplicate check of server.js 2135-2159: [true] when the token is
    already listed; a failing read is swallowed by the empty [catch]. *)
Definition tokenAlreadyRecorded (sheet : string) (rowNumber : Z) (docToken : string)
  : M bool :=
  tryCatch
    (existingG <- sheetsGetTokens TokenCheck sheet rowNumber ;;
     ret (tokenListed (safeStr existingG) docToken))
    (fun _ => ret false).

Definition tallyApply (sheet customer : string) (docType : DocType) (source : string)
    (key docToken : string) (ai : Ai) : M TallyApplied :=
  let today := today env in
  row <- ensureTodayTallyRow sheet today customer ;;
  let cleanedNotes := cleanNotes (currentNotes row) in
  let rowNumber := (rowIndex0 row + 2)%Z in
  let note := noteFor docType source in
  let nextNotes := appendNote cleanedNotes note in
  let shouldIncrement := bool_decide (docType = RESUME) in
  hasTokenAlready <-
    (if bool_decide (docType = RESUME) && Js.truthy docToken
     then tokenAlreadyRecorded sheet rowNumber docToken
     else ret false) ;;
  if hasTokenAlready then
    ret {| tallyToday := today; nextCount := currentCount row;
           nextNotes := nextNotes; shouldIncrement := false |}
  else
    let nextCount := if shouldIncrement then (currentCount row + 1)%Z else currentCount row in
    sheetsUpdate sheet rowNumber (WCount nextCount) ;;;
    sheetsUpdate sheet rowNumber (WNotes nextNotes) ;;;
    sheetsUpdate sheet rowNumber (WCustomer customer) ;;;
    (if bool_decide (docType = RESUME) && Js.truthy key
     then recordPointerAndTokens sheet rowNumber key docToken ai
     else ret tt) ;;;
    ret {| tallyToday := today; nextCount := nextCount;
           nextNotes := nextNotes; shouldIncrement := shouldIncrement |}.

(** *** Collaborators of the pipeline *)

(** [getCustomersCached] (server.js 1818): the directory, read through.
    A hit of the 60-second cache behaves as a read that succeeds. *)
Definition getCustomersCached : M (list CustomerRow) :=
  issue DirectoryRead ;;;
  ret (readCustomersFromMasterSheet (masterRows env)).

(** [getCustomerRubric] (server.js 1435): never throws *)
Definition getCustomerRubric (customer : string) : M (option string) :=
  if negb (Js.truthy customer) then ret None
  else tryCatch (issue (RubricQuery customer) ;;; ret (rubricOf env customer))
                (fun _ => ret None).

(** [safeScoreResume] (server.js 2294) over the one-argument
    [scoreResume] of services/openaiScore.ts: a rubric is merged into the
    prompt text. *)
Definition safeScoreResume (text : string) (rubric : option string) : M ScorerReply :=
  issue (ScoreCall text rubric) ;;;
  match rubric with
  | Some block =>
      if Js.truthy block
      then ret (scoreResume env
                  ("RUBRIC (customer scoring criteria):" +:+ newline +:+ block
                   +:+ newline +:+ newline +:+ text))
      else ret (scoreResume env text)
  | None => ret (scoreResume env text)
  end.

(** [saveInboundDocToDb] (server.js 1445): never throws *)
Definition saveInboundDocToDb (record : AuditRecord) : M unit :=
  tryCatch (issue (AuditInsert (insertParams record))) (fun _ => ret tt).

(** [sendCustomerText] (server.js 1568): never throws; without a mail
    function in the mail service nothing is sent. *)
Definition sendCustomerText (to : string) (kind : MessageKind) : M unit :=
  if negb (emailServiceAvailable env) then ret tt
  else tryCatch (issue (EmailSend to kind)) (fun _ => ret tt).

(** *** The stages of [processInboundDoc] (server.js 2348-2711) *)

Definition orEmptyDoc (v : option R2Ref) : string :=
  match v with Some r => r2Key r | None => EmptyString end.

(** server.js 2348-2349 *)
Definition extractedTextRawOf (args : Args) : Outcome string :=
  match argExtractedText args with
  | Some t => Ok t
  | None => extractTextFromBuffer (platform env) (argFilename args) (argBuffer args)
  end.

Definition liftOutcome {A} (o : Outcome A) : M A := fun w => (o, w).

(** server.js 2352 *)
Definition extractedTooLargeOf (raw : string) : bool :=
  MAX_EXTRACTED_CHARS (config env) <? String.length raw.

(** server.js 2353 *)
Definition capExtracted (raw : string) : string :=
  if extractedTooLargeOf raw then Js.slice0 (MAX_EXTRACTED_CHARS (config env)) raw
  else raw.

(** server.js 2355-2356 *)
Definition docTypeOf (args : Args) (extractedText : string) : DocType :=
  match argDocType args with
  | Some d => d
  | None =>
      if 0 <? String.length (Js.trim extractedText)
      then classifyDocTypeFromText extractedText
      else NON_RESUME
  end.

(** server.js 2358 *)
Definition toEmailOf (args : Args) : string :=
  Js.toLowerCase (Js.trim (safeStr (orEmpty (argToEmail args)))).

(** server.js 2366-2383: the directory failure is swallowed *)
Definition resolveCustomer (toEmail : string) : M (option CustomerRow) :=
  if Js.truthy toEmail then
    tryCatch
      (existingCustomers <- getCustomersCached ;;
       ret (findCustomer existingCustomers toEmail))
      (fun _ => ret None)
  else ret None.

Definition customerIdOf (m : option CustomerRow) : string :=
  match m with Some c => safeStr (customerId c) | None => EmptyString end.

Definition billingStatusOf (m : option CustomerRow) : string :=
  safeStr (match m with Some c => status c | None => EmptyString end).

Definition sheetIdOf (m : option CustomerRow) : string :=
  safeStr (match m with Some c => tallySheetId c | None => EmptyString end).

(** server.js 2386-2387 *)
Definition blockedOf (m : option CustomerRow) : bool :=
  Js.truthy (customerIdOf m)
  && match isProcessingAllowed (billingStatusOf m) with
     | Blocked _ => true
     | Allowed => false
     end.

(** server.js 2388 *)
Definition blockedReasonOf (m : option CustomerRow) : option string :=
  if blockedOf m then
    match isProcessingAllowed (billingStatusOf m) with
    | Blocked reason => Some (if Js.truthy reason then reason else "billing_block")
    | Allowed => Some "billing_block"
    end
  else None.

Definition docTokenOf (args : Args) : string :=
  "hash:" +:+ sha256Hex (platform env) (argBuffer args).

(** server.js 2412-2440: the daily idempotency pre-check of the scorer.
    Any failure inside leaves the answer at [false]. *)
Definition alreadyProcessedToday (sheet customer docToken : string) : M bool :=
  tryCatch
    (if Js.truthy sheet && Js.truthy customer && Js.truthy docToken then
       row <- ensureTodayTallyRow sheet (today env) customer ;;
       let rowNumber := (rowIndex0 row + 2)%Z in
       existingG <- sheetsGetTokens AiPrecheck sheet rowNumber ;;
       ret (tokenListed (safeStr existingG) docToken)
     else ret false)
    (fun _ => ret false).

(** server.js 2395-2459 *)
Definition aiStage (args : Args) (m : option CustomerRow) (docType : DocType)
    (extractedText : string) (extractedTooLarge : bool) (rubric : option string) : M Ai :=
  tryCatch
    (if blockedOf m then ret (AiSkip billing_block)
     else if bool_decide (docType = RESUME) && (40 <? String.length (Js.trim extractedText))
     then
       if extractedTooLarge then ret (AiSkip too_large)
       else
         already <- alreadyProcessedToday (sheetIdOf m) (customerIdOf m) (docTokenOf args) ;;
         if Js.truthy extractedText && (120 <=? String.length extractedText) then
           if already then ret (AiSkip idempotent_skip)
           else
             let forAi := Js.slice0 (MAX_OPENAI_CHARS (config env)) extractedText in
             reply <- safeScoreResume forAi rubric ;;
             ret (AiReply reply)
         else ret (AiSkip too_short)
     else ret (AiSkip (if bool_decide (docType = RESUME) then too_short else non_resume)))
    (fun e => ret (AiFailed e)).

(** server.js 2464-2496 *)
Definition tallyStage (args : Args) (m : option CustomerRow) (docType : DocType)
    (ai : Ai) : M Tally :=
  tryCatch
    (let sheetId := sheetIdOf m in
     let key := safeStr (orEmptyDoc (argR2 args)) in
     let docToken := docTokenOf args in
     let shouldSkipTally := aiSkippedIsTrue ai && aiReasonIsIdempotentSkip ai in
     if blockedOf m then
       ret (TallyBillingBlock (billingStatusOf m)
              (match blockedReasonOf m with Some r => r | None => EmptyString end))
     else if shouldSkipTally then ret (TallyIdempotentSkip (today env))
     else if Js.truthy sheetId && Js.truthy (customerIdOf m) then
       r <- tallyApply sheetId (customerIdOf m) docType (sourceName (argSource args))
              key docToken ai ;;
       ret (TallyDone r)
     else ret TallyNone)
    (fun e => ret (TallyFailed e)).

(** server.js 2498-2517 *)
Definition auditStage (args : Args) (m : option CustomerRow) (toEmail : string)
    (docType : DocType) (extractedText : string) (ai : Ai) : M unit :=
  saveInboundDocToDb
    {| auditSource := sourceName (argSource args);
       auditToEmail := toEmail;
       auditCustomerId := customerIdOf m;
       auditResolvedCustomerId := customerIdOf m;
       auditMatchFound := bool_decide (is_Some m);
       auditBillingStatus := billingStatusOf m;
       auditBlockedReason := blockedReasonOf m;
       auditFilename := argFilename args;
       auditR2Bucket := option_map r2Bucket (argR2 args);
       auditR2Key := option_map r2Key (argR2 args);
       auditDocType := docType;
       auditExtractedChars := String.length extractedText;
       auditTextPreview := Js.slice0 400 extractedText;
       auditAiScore := aiScore ai;
       auditAi := ai |}.

(** server.js 2519-2687. The subject and the body are assembled from
    the score, the summary and the lists of the reply; of that assembly the
    kind of message and the score are kept. *)
Definition emailStage (m : option CustomerRow) (toEmail : string) (docType : DocType)
    (ai : Ai) (tally : Tally) : M unit :=
  tryCatch
    (let hasToEmail := Js.truthy toEmail in
     let matchFound := bool_decide (is_Some m) in
     let isResume := bool_decide (docType = RESUME) in
     let aiSkipped := aiSkippedTruthy ai in
     let aiError := aiErrorTruthy ai in
     let blocked := blockedOf m in
     if negb (didIncrement tally) then ret tt
     else
       let SEND_RECEIPT_IF_AI_SKIPPED := true in
       let scoredEligible :=
         hasToEmail && matchFound && negb blocked && isResume
         && negb aiSkipped && negb aiError in
       let receiptEligible :=
         hasToEmail && matchFound && negb blocked && isResume
         && SEND_RECEIPT_IF_AI_SKIPPED in
       if negb scoredEligible && negb receiptEligible then ret tt
       else
         let isReceipt := negb scoredEligible in
         sendCustomerText toEmail
           (if isReceipt then Receipt else ScoredResult (aiScore ai)))
    (fun _ => ret tt).

(** The object returned at server.js 2541, 2600 and 2689: the three
    [return] statements build the same fields. *)
Definition buildResult (args : Args) (m : option CustomerRow) (docType : DocType)
    (extractedText : string) (tally : Tally) (ai : Ai) : InboundDocResult :=
  {| resSource := argSource args;
     resR2Key := match argR2 args with
                 | Some r => if Js.truthy (r2Key r) then Some (r2Key r) else None
                 | None => None
                 end;
     resToEmail := toEmailOf args;
     resCustomerId := customerIdOf m;
     resResolvedCustomerId := customerIdOf m;
     resDocType := docType;
     resTextPreview := Js.slice0 400 extractedText;
     resBillingStatus := billingStatusOf m;
     resBlocked := blockedOf m;
     resBlockedReason := blockedReasonOf m;
     resTally := tally;
     resAi := ai;
     resMatchFound := bool_decide (is_Some m) |}.

Definition processInboundDoc (args : Args) : M InboundDocResult :=
  extractedTextRaw <- liftOutcome (extractedTextRawOf args) ;;
  let extractedTooLarge := extractedTooLargeOf extractedTextRaw in
  let extractedText := capExtracted extractedTextRaw in
  let docType := docTypeOf args extractedText in
  let toEmail := toEmailOf args in
  m <- resolveCustomer toEmail ;;
  rubric <- getCustomerRubric (customerIdOf m) ;;
  ai <- aiStage args m docType extractedText extractedTooLarge rubric ;;
  tally <- tallyStage args m docType ai ;;
  auditStage args m toEmail docType extractedText ai ;;;
  emailStage m toEmail docType ai tally ;;;
  ret (buildResult args m docType extractedText tally ai).

End Pipeline.

(** The environment [env] with the verdicts of its fault schedule on mail
    dispatch replaced by [h]. *)
Definition withDispatchFaults (h : nat -> bool) (env : Env) : Env :=
  {| config := config env;
     platform := platform env;
     today := today env;
     remoteFails := fun n ev =>
       match ev with
       | EmailSend _ _ => h n
       | _ => remoteFails env n ev
       end;
     masterRows := masterRows env;
     rubricOf := rubricOf env;
     authedEmail := authedEmail env;
     scoreResume := scoreResume env;
     emailServiceAvailable := emailServiceAvailable env |}.

(** The reads of the two duplicate checks: the scoring pre-check and the
    token check of [tallyApply]. *)
Definition duplicateCheckRead (ev : Event) : bool :=
  match ev with
  | SheetsGetTokens AiPrecheck _ _ | SheetsGetTokens TokenCheck _ _ => true
  | _ => false
  end.

(** The tenant a run resolves for its document. *)
Definition resolvedTenant (env : Env) (args : Args) (w : World) : option CustomerRow :=
  match fst (resolveCustomer env (toEmailOf args) w) with
  | Ok m => m
  | Throw _ => None
  end.

(** The world a run has reached when it enters the scoring stage. *)
Definition worldBeforeScoring (env : Env) (args : Args) (w : World) : World :=
  snd (getCustomerRubric env (customerIdOf (resolvedTenant env args w))
         (snd (resolveCustomer env (toEmailOf args) w))).

(** The verdict of the scoring pre-check of a run: is the document a
    duplicate for today? *)
Definition duplicateToday (env : Env) (args : Args) (w : World) : bool :=
  match fst (alreadyProcessedToday env
               (sheetIdOf (resolvedTenant env args w))
               (customerIdOf (resolvedTenant env args w))
               (docTokenOf env args) (worldBeforeScoring env args w)) with
  | Ok b => b
  | Throw _ => false
  end.

(** ** Observations on a run *)

Definition isEmailSend (ev : Event) : bool :=
  match ev with EmailSend _ _ => true | _ => false end.

Definition isScoreCall (ev : Event) : bool :=
  match ev with ScoreCall _ _ => true | _ => false end.

Definition isAuditInsert (ev : Event) : bool :=
  match ev with AuditInsert _ => true | _ => false end.

Definition isLedgerWrite (ev : Event) : bool :=
  match ev with SheetsUpdate _ _ _ | SheetsAppend _ _ => true | _ => false end.

Definition isCellUpdate (ev : Event) : bool :=
  match ev with SheetsUpdate _ _ _ => true | _ => false end.

Definition countEvents (p : Event -> bool) (w : World) : nat :=
  length (List.filter p (trace w)).

Definition emailsAttempted : World -> nat := countEvents isEmailSend.
Definition scoreCalls : World -> nat := countEvents isScoreCall.
Definition auditInserts : World -> nat := countEvents isAuditInsert.

(** The count column of every sheet. *)
Definition counts (w : World) : gmap string (list Z) :=
  fmap (map rowCount) (ledger w).

(** ** Reasoning about runs *)

(** [Keeps R m]: every run of [m] takes a world to one related by [R]. *)
Definition Keeps {A} (R : World -> World -> Prop) (m : M A) : Prop :=
  forall w, R w (snd (m w)).

(** [Total m]: [m] returns, it never throws. *)
Definition Total {A} (m : M A) : Prop :=
  forall w, isOk (fst (m w)) = true.

(** The world after a remote call was recorded. *)
Definition recorded (ev : Event) (w : World) : World :=
  {| ledger := ledger w; calls := S (calls w); trace := ev :: trace w |}.

(** The world after the rows of a sheet were replaced. *)
Definition stored (sheet : string) (rows : list Row) (w : World) : World :=
  {| ledger := <[sheet := rows]> (ledger w); calls := calls w; trace := trace w |}.

(** No remote call of the class [p] is issued. *)
Definition Silent (p : Event -> bool) (w w' : World) : Prop :=
  List.filter p (trace w') = List.filter p (trace w).

(** The calls issued all satisfy [P]. *)
Definition Issues (P : Event -> Prop) (w w' : World) : Prop :=
  exists delta, trace w' = delta ++ trace w /\ Forall P delta.

(** The projection [g] of every row of every sheet is unchanged. *)
Definition SameOn {X} (g : Row -> X) (w w' : World) : Prop :=
  fmap (M := gmap string) (map g) (ledger w') = fmap (map g) (ledger w).

Definition SameLedger (w w' : World) : Prop := ledger w' = ledger w.

(** The pointer, file-link, token and last-score cells of a row. *)
Definition pointerCells (r : Row) : string * string * string * option Z :=
  (rowR2Key r, rowFile r, rowTokens r, rowLastScore r).

(** Nothing in the ledger changes and the calls issued all satisfy [P]. *)
Definition ReadOnly (P : Event -> Prop) (w w' : World) : Prop :=
  SameLedger w w' /\ Issues P w w'.

(** The calls of the Drive sharing step. *)
Definition shareCall (ev : Event) : bool :=
  match ev with
  | AuthedEmailLookup | DriveShare _ _ => true
  | _ => false
  end.

(** The calls of the ledger engine. *)
Definition ledgerCall (ev : Event) : bool :=
  match ev with
  | AuthedEmailLookup | DriveShare _ _ | SheetsGetRows _ | SheetsGetTokens _ _ _
  | SheetsUpdate _ _ _ | SheetsAppend _ _ => true
  | _ => false
  end.

(** The calls of the ledger engine that change no cell. *)
Definition ledgerRead (ev : Event) : bool :=
  match ev with
  | AuthedEmailLookup | DriveShare _ _ | SheetsGetRows _ | SheetsGetTokens _ _ _ => true
  | _ => false
  end.

(** The writes of [tallyApply] for a document that is not a RESUME. *)
Definition nonResumeWrite (sheet customer note : string) (row : TodayRow) (ev : Event)
  : Prop :=
  ev = SheetsUpdate sheet (rowIndex0 row + 2) (WCount (currentCount row))
  \/ ev = SheetsUpdate sheet (rowIndex0 row + 2)
            (WNotes (appendNote (cleanNotes (currentNotes row)) note))
  \/ ev = SheetsUpdate sheet (rowIndex0 row + 2) (WCustomer customer).

(** The day row of [sheet] lists the token. *)
Definition Counted (env : Env) (sheet token : string) (w : World) (i : nat) (r : Row)
  : Prop :=
  exists rows,
    ledger w !! sheet = Some rows
    /\ findIndex (isToday (today env)) (take 999 rows) = Some i
    /\ rows !! i = Some r
    /\ tokenListed (safeStr (rowTokens r)) token = true.

(** The count cell of row [idx] of [sheet] holds [c]. *)
Definition CountIs (sheet : string) (idx : nat) (c : Z) (w : World) : Prop :=
  exists rows r,
    ledger w !! sheet = Some rows /\ rows !! idx = Some r /\ rowCount r = c.

(** ** Sample data for the worked instances *)

Module Sample.

Definition pf : Platform := {|
  utf8Decode := string_of_list_byte;
  utf16leDecode := string_of_list_byte;
  pdfParse := fun b => Ok (Some (string_of_list_byte b));
  mammothExtractRawText := fun _ => Throw "mammoth_missing";
  sha256Hex := string_of_list_byte;
  encodeKeyForUrl := fun k => k |}.

(** The defaults of server.js 1233, 1248-1249 and 1263-1264. *)
Definition cfg : Config := {|
  MAX_EXTRACTED_CHARS := 120000;
  MAX_OPENAI_CHARS := 60000;
  ADMIN_EMAIL := "digitaldominance2025@gmail.com";
  R2_PUBLIC_LINKS := false;
  R2_PUBLIC_BASE_URL := EmptyString |}.

Definition acme (billing : string) : CustomerRow := {|
  customerId := "cust_acme";
  companyName := "Acme";
  adminEmail := "hr@acme.test";
  intakeEmail := "Intake@Acme.test";
  status := billing;
  tallySheetId := "sheet-acme" |}.

Definition reply : ScorerReply := {|
  replySkipped := Falsy;
  replyReason := EmptyString;
  replyError := false;
  replyScore := Some 82%Z |}.

Definition env (billing : string) (faults : nat -> Event -> bool) : Env := {|
  config := cfg;
  platform := pf;
  today := "2026-11-02";
  remoteFails := faults;
  masterRows := [acme billing];
  rubricOf := fun _ => None;
  authedEmail := Some "service@example.test";
  scoreResume := fun _ => reply;
  emailServiceAvailable := true |}.

Definition noFaults : nat -> Event -> bool := fun _ _ => false.

(** A deployment that sets MAX_EXTRACTED_CHARS and MAX_OPENAI_CHARS in its
    environment. *)
Definition envWithCaps (extractedCap scorerCap : nat) : Env := {|
  config := {| MAX_EXTRACTED_CHARS := extractedCap;
               MAX_OPENAI_CHARS := scorerCap;
               ADMIN_EMAIL := "digitaldominance2025@gmail.com";
               R2_PUBLIC_LINKS := false;
               R2_PUBLIC_BASE_URL := EmptyString |};
  platform := pf;
  today := "2026-11-02";
  remoteFails := noFaults;
  masterRows := [acme "active"];
  rubricOf := fun _ => None;
  authedEmail := Some "service@example.test";
  scoreResume := fun _ => reply;
  emailServiceAvailable := true |}.

(** Exactly the reads of the two duplicate checks throw. *)
Definition duplicateChecksFail : nat -> Event -> bool :=
  fun _ ev => duplicateCheckRead ev.

(** Today's row of a tenant that already counted the document [doc]. *)
Definition countedRow : Row := {|
  rowDate := "2026-11-02";
  rowCount := 1;
  rowNotes := "resend:RESUME";
  rowCustomer := "cust_acme";
  rowR2Key := "inbound/k1";
  rowFile := EmptyString;
  rowTokens := "hash:doc, r2:inbound/k1";
  rowLastScore := Some 82%Z |}.

Definition world (rows : list Row) : World :=
  {| ledger := {[ "sheet-acme" := rows ]}; calls := 0; trace := [] |}.

Fixpoint repeatStr (n : nat) (s : string) : string :=
  match n with
  | O => EmptyString
  | S k => s +:+ repeatStr k s
  end.

(** 163 characters, three strong resume indicators. *)
Definition resumeText : string :=
  "Work Experience, Education and Skills of a candidate "
  +:+ repeatStr 10 "abcdefghij ".

(** 120 and 119 characters, both classified RESUME. *)
Definition resume120 : string := Js.slice0 120 resumeText.
Definition resume119 : string := Js.slice0 119 resumeText.

Definition args (text : option string) (kind : option DocType) : Args := {|
  argSource := SrcResend;
  argFilename := "cv.txt";
  argBuffer := list_byte_of_string "doc";
  argExtractedText := text;
  argDocType := kind;
  argToEmail := Some "intake@acme.test";
  argR2 := Some {| r2Bucket := "inbound"; r2Key := "inbound/k2" |} |}.



(** A parsed PDF text with no letter at all. *)
Definition digitsPdfPlatform : Platform := {|
  utf8Decode := string_of_list_byte;
  utf16leDecode := string_of_list_byte;
  pdfParse := fun _ => Ok (Some "0123456789 0123456789 0123456789");
  mammothExtractRawText := fun _ => Throw "mammoth_missing";
  sha256Hex := string_of_list_byte;
  encodeKeyForUrl := fun k => k |}.

End Sample.

(** ** Upload names and the file allowlist (server.js 1160, 1199-1215) *)

(** [/[0-9]/] *)
Definition isDigit (c : ascii) : bool := (48 <=? Js.code c) && (Js.code c <=? 57).

(** the class [[a-zA-Z0-9._-]] *)
Definition isUploadNameChar (c : ascii) : bool :=
  Js.isLetter c || isDigit c
  || Ascii.eqb c "."%char || Ascii.eqb c "_"%char || Ascii.eqb c "-"%char.

(** [s.replace(re, by)] for [re] a one-character class negated and
    repeated, with the [g] flag: every maximal run of characters outside
    [keep] becomes one [by]. [inRun] says that the character before was
    outside [keep]. *)
Fixpoint replaceRuns (keep : ascii -> bool) (by_ : ascii) (inRun : bool) (s : string)
  : string :=
  match s with
  | EmptyString => EmptyString
  | String c r =>
      if keep c then String c (replaceRuns keep by_ false r)
      else if inRun then replaceRuns keep by_ true r
      else String by_ (replaceRuns keep by_ true r)
  end.

Definition normalizeUploadName (name : string) : string :=
  replaceRuns isUploadNameChar "_"%char false
    (safeStr (if Js.truthy name then name else "upload.bin")).

(** [s.slice(s.lastIndexOf(sep) + 1)] when [sep] occurs in [s] *)
Fixpoint afterLast (sep : ascii) (s : string) : option string :=
  match s with
  | EmptyString => None
  | String c r =>
      match afterLast sep r with
      | Some e => Some e
      | None => if Ascii.eqb c sep then Some r else None
      end
  end.

Definition extFromFilename (filename : string) : string :=
  let base := Js.toLowerCase (safeStr filename) in
  match afterLast "."%char base with
  | Some ext => ext
  | None => EmptyString
  end.

Definition ALLOWED_EXTS : list string := [ "pdf"; "txt"; "docx" ].

Definition isAllowedFileByName (filename : string) : bool :=
  let ext := extFromFilename filename in
  Js.truthy ext && Js.arrIncludes ALLOWED_EXTS ext.

(** [key.split("/").pop() || "file.bin"] *)
Definition safeBaseName (key : string) : string :=
  let last := match afterLast "/"%char key with
              | Some e => e
              | None => key
              end in
  if Js.truthy last then last else "file.bin".

(** ** Attachment guards of the Resend webhook (server.js 1244-1246,
    2878-2957) *)

(** The three limits; a deployment sets them to whole numbers, as the
    defaults are. *)
Record AttachmentLimits := {
  MAX_ATTACHMENT_BYTES : Z;
  MAX_TOTAL_ATTACH_BYTES : Z;
  MAX_ATTACHMENTS : Z;
}.

(** An entry of [resendListReceivedAttachments]: a field that is absent
    is [None]; a size that is absent or not a finite number is [None]. *)
Record ResendReceivedAttachment := {
  attId : string;
  attFilename : option string;
  attSize : option Z;
  attContentType : option string;
  attDownloadUrl : option string;
}.

Inductive BlockReason :=
| unsupported_file_type
| missing_or_invalid_size
| attachment_too_large
| total_attachments_too_large.

#[global] Instance BlockReason_eq_dec : EqDecision BlockReason.
Proof. solve_decision. Defined.

Record BlockedAttachment := {
  blockedId : string;
  blockedFilename : string;
  blockedSize : option Z;
  blockedReason : BlockReason;
}.

Record GuardState := {
  oversized : list BlockedAttachment;
  allowed : list ResendReceivedAttachment;
  total : Z;
}.

(** [arr.slice(0, n)]: a negative [n] counts from the end *)
Definition sliceTo {A} (n : Z) (l : list A) : list A :=
  if (0 <=? n)%Z then take (Z.to_nat n) l
  else take (Z.to_nat (Z.of_nat (length l) + n)) l.

(** [normalizeUploadName(safeStr(att?.filename) || "attachment.bin")] *)
Definition attachmentName (att : ResendReceivedAttachment) : string :=
  let original := safeStr (orEmpty (attFilename att)) in
  normalizeUploadName (if Js.truthy original then original else "attachment.bin").

(** One turn of the loop of server.js 2887-2939. *)
Definition guardStep (lim : AttachmentLimits) (st : GuardState)
    (att : ResendReceivedAttachment) : GuardState :=
  let safeName := attachmentName att in
  let block reason :=
    {| oversized := oversized st
                    ++ [{| blockedId := safeStr (attId att);
                           blockedFilename := safeName;
                           blockedSize := attSize att;
                           blockedReason := reason |}];
       allowed := allowed st;
       total := total st |} in
  if negb (isAllowedFileByName safeName) then block unsupported_file_type
  else
    match attSize att with
    | None => block missing_or_invalid_size
    | Some size =>
        if (size <=? 0)%Z then block missing_or_invalid_size
        else if (MAX_ATTACHMENT_BYTES lim <? size)%Z then block attachment_too_large
        else if (MAX_TOTAL_ATTACH_BYTES lim <? total st + size)%Z
        then block total_attachments_too_large
        else {| oversized := oversized st;
                allowed := allowed st ++ [att];
                total := (total st + size)%Z |}
    end.

Definition attachmentGuard (lim : AttachmentLimits) (atts : list ResendReceivedAttachment)
  : GuardState :=
  fold_left (guardStep lim) (sliceTo (MAX_ATTACHMENTS lim) atts)
    {| oversized := []; allowed := []; total := 0 |}.

(** What the webhook does with the attachments of a message (server.js
    2879-3036): without attachments it goes on with the text body; with
    attachments it answers 415 or 413, or goes on with the attachments let
    through. *)
Inductive GuardVerdict :=
| TextBody
| Answer415 (blocked : list BlockedAttachment)
| Answer413 (blocked : list BlockedAttachment)
| Proceed (attachments : list ResendReceivedAttachment).

Definition guardVerdict (lim : AttachmentLimits) (atts : list ResendReceivedAttachment)
  : GuardVerdict :=
  if 0 <? length atts then
    let st := attachmentGuard lim atts in
    match allowed st with
    | [] =>
        let onlyUnsupported :=
          (0 <? length (oversized st))
          && forallb (fun x => bool_decide (blockedReason x = unsupported_file_type))
               (oversized st) in
        if onlyUnsupported then Answer415 (oversized st) else Answer413 (oversized st)
    | _ :: _ => Proceed (allowed st)
    end
  else TextBody.

(** The sizes of the attachments let through, added up. *)
Definition sizeOf (att : ResendReceivedAttachment) : Z :=
  match attSize att with Some z => z | None => 0%Z end.

Definition totalSize (atts : list ResendReceivedAttachment) : Z :=
  fold_right (fun a acc => (sizeOf a + acc)%Z) 0%Z atts.

(** ** Predicates on notes and tokens *)

(** No character of [s] is a comma. *)
Definition commaFree (s : string) : Prop :=
  Js.countChars (fun c => Ascii.eqb c ","%char) s = 0.

(** A part of a comma-separated cell as the pipeline writes them: not
    empty, trimmed, without a comma. *)
Definition cleanPart (s : string) : Prop :=
  s <> EmptyString /\ Js.trim s = s /\ commaFree s.

(** The test of [stripR2FromNotes] on one part. *)
Definition keptNotePart (part : string) : bool :=
  Js.truthy part && negb (Js.startsWith (Js.toLowerCase part) "r2:").

(** The record [x] is matched by the recipient address [toEmail]. *)
Definition intakeMatches (toEmail : string) (x : CustomerRow) : bool :=
  String.eqb (Js.toLowerCase (Js.trim (safeStr (intakeEmail x)))) toEmail.

(** Every character of [s] satisfies [p]. *)
Fixpoint allChars (p : ascii -> bool) (s : string) : bool :=
  match s with
  | EmptyString => true
  | String c r => p c && allChars p r
  end.

(** The attachment was stopped for its file type. *)
Definition blockedForType (x : BlockedAttachment) : bool :=
  bool_decide (blockedReason x = unsupported_file_type).

(** The attachment passes every test of the guard on its own: type and
    size. *)
Definition withinLimits (lim : AttachmentLimits) (att : ResendReceivedAttachment) : Prop :=
  isAllowedFileByName (attachmentName att) = true
  /\ exists size, attSize att = Some size
                  /\ (0 < size)%Z /\ (size <= MAX_ATTACHMENT_BYTES lim)%Z.

(** What every turn of the loop keeps. *)
Definition guardInvariant (lim : AttachmentLimits) (seen : list ResendReceivedAttachment) (st : GuardState) : Prop :=
  Forall (withinLimits lim) (allowed st)
  /\ totalSize (allowed st) = total st
  /\ (0 <= total st)%Z
  /\ (allowed st <> [] -> (total st <= MAX_TOTAL_ATTACH_BYTES lim)%Z)
  /\ length (allowed st) + length (oversized st) = length seen
  /\ sublist (allowed st) seen
  /\ (allowed st = [] /\ forallb blockedForType (oversized st) = true
      <-> Forall (fun a => isAllowedFileByName (attachmentName a) = false) seen).

(** ** Predicates on the day row *)

(** Row [i] is the first row of the day [today] among the rows that
    [ensureTodayTallyRow] reads, and it holds [r]. *)
Definition DayRowIs (today sheet : string) (i : nat) (r : Row) (w : World) : Prop :=
  exists rows,
    ledger w !! sheet = Some rows
    /\ findIndex (isToday today) (take 999 rows) = Some i
    /\ rows !! i = Some r.

(** The sheet exists, and the rows that [ensureTodayTallyRow] reads hold
    the row of the day or leave room for it. *)
Definition DayRowInReach (today sheet : string) (w : World) : Prop :=
  exists rows,
    ledger w !! sheet = Some rows
    /\ (length rows < 999 \/ is_Some (findIndex (isToday today) (take 999 rows))).

(** The sheet [other] holds what it held. *)
Definition Untouched (other : string) (w w' : World) : Prop :=
  ledger w' !! other = ledger w !! other.

(** The calls that name a sheet name [sheet]. *)
Definition onSheet (sheet : string) (ev : Event) : Prop :=
  match ev with
  | DriveShare s _ | SheetsGetRows s | SheetsGetTokens _ s _
  | SheetsUpdate s _ _ | SheetsAppend s _ => s = sheet
  | _ => True
  end.

(** A day row within reach stays within reach. *)
Definition KeepsReach (today sheet : string) (w w' : World) : Prop :=
  DayRowInReach today sheet w -> DayRowInReach today sheet w'.

(** ** The master sheet (server.js 1640-1810)

    The customer directory is one sheet: row 1 holds the header names,
    each later row one customer. A read returns the rows as lists of
    cells; cells that are empty at the end of a row are left out. *)

Definition Grid := list (list string).

(** [columnLetter] (server.js 1676). The loop runs while [n > 0] and
    [n] decreases at every turn, so that [fuel = n] turns are enough. *)
Fixpoint columnLetterLoop (fuel n : nat) (s : string) : string :=
  match fuel with
  | O => s
  | S fuel' =>
      if 0 <? n then
        let m := (n - 1) mod 26 in
        columnLetterLoop fuel' ((n - 1) / 26) (String (ascii_of_nat (65 + m)) s)
      else s
  end.

Definition columnLetter (n : nat) : string := columnLetterLoop n n EmptyString.

(** The column that the spreadsheet store reads from the letters of a
    cell reference: A is 1, Z is 26, AA is 27. *)
Fixpoint columnNumberFrom (acc : nat) (letters : string) : nat :=
  match letters with
  | EmptyString => acc
  | String c r => columnNumberFrom (acc * 26 + (Js.code c - 64)) r
  end.

Definition columnNumber (letters : string) : nat := columnNumberFrom 0 letters.

(** [norm.indexOf(name.toLowerCase())] over
    [norm = headers.map((h) => safeStr(h).toLowerCase())] *)
Definition headerIndex (headers : list string) (name : string) : option nat :=
  findIndex (String.eqb (Js.toLowerCase name))
    (map (fun h => Js.toLowerCase (safeStr h)) headers).

(** [safeStr(row[i])]: a cell that is absent reads as empty, and so does
    the index -1 of a header that is missing. *)
Definition cellAt (row : list string) (i : option nat) : string :=
  match i with
  | Some k => safeStr (match row !! k with Some v => v | None => EmptyString end)
  | None => safeStr EmptyString
  end.

(** The record built from one row (server.js 1747-1758): the fields the
    pipeline reads. *)
Definition recordOfRow (headers row : list string) : CustomerRow :=
  {| customerId := cellAt row (headerIndex headers "customerId");
     companyName := cellAt row (headerIndex headers "companyName");
     adminEmail := cellAt row (headerIndex headers "reportToEmail");
     intakeEmail := cellAt row (headerIndex headers "intakeEmail");
     status := cellAt row (headerIndex headers "billingStatus");
     tallySheetId := cellAt row (headerIndex headers "currentSheetId") |}.

(** [readCustomersFromMasterSheet] (server.js 1725) on the cells that the
    read of the sheet returned. *)
Definition readCustomersFromValues (values : Grid) : list CustomerRow :=
  if length values <? 2 then []
  else
    let headers := match values with h :: _ => h | [] => [] end in
    match headerIndex headers "customerId" with
    | None => []
    | Some _ =>
        List.filter (fun c => Js.truthy (customerId c))
          (map (recordOfRow headers) (tail values))
    end.

(** One cell of the sheet overwritten; rows and cells that are missing
    before it are filled in empty. *)
Definition setInRow (c : nat) (v : string) (row : list string) : list string :=
  if c <? length row then <[c := v]> row
  else row ++ replicate (c - length row) EmptyString ++ [v].

Definition setCell (r c : nat) (v : string) (g : Grid) : Grid :=
  if r <? length g then alter (setInRow c v) r g
  else g ++ replicate (r - length g) [] ++ [setInRow c v []].

(** [values.update] on the one-cell range [<letters><rowNumber>] *)
Definition writeA1 (letters : string) (rowNumber : nat) (v : string) (g : Grid) : Grid :=
  match columnNumber letters, rowNumber with
  | S c, S r => setCell r c v g
  | _, _ => g
  end.

(** [updateCustomerCellInMasterSheet] (server.js 1766): the sheet after
    the call, which is the sheet before it when the call returns early. *)
Definition updateCustomerCellInMasterSheet
    (customer headerName value : string) (values : Grid) : Grid :=
  if length values <? 2 then values
  else
    let headers := match values with h :: _ => h | [] => [] end in
    match headerIndex headers headerName with
    | None => values
    | Some targetIdx =>
        match headerIndex headers "customerid" with
        | None => values
        | Some custIdIdx =>
            match findIndex (fun row => String.eqb (cellAt row (Some custIdIdx)) customer)
                    (tail values) with
            | None => values
            | Some i =>
                let rowNumber := (i + 1) + 1 in
                let colLetter := columnLetter (targetIdx + 1) in
                writeA1 colLetter rowNumber value values
            end
        end
    end.

Definition updateCustomerStatusInMasterSheet (customer newStatus : string) (values : Grid)
  : Grid :=
  updateCustomerCellInMasterSheet customer "billingStatus" newStatus values.

(** The record [c] with another billing status. *)
Definition withStatus (s : string) (c : CustomerRow) : CustomerRow :=
  {| customerId := customerId c;
     companyName := companyName c;
     adminEmail := adminEmail c;
     intakeEmail := intakeEmail c;
     status := s;
     tallySheetId := tallySheetId c |}.

(** ** The storage webhook [/webhooks/inbound-r2] (server.js 3570-3624) *)

(** One position of the date part of the key pattern: [\d] or a literal
    character. *)
Inductive PatternChar :=
| PDigit
| PLit (c : ascii).

Fixpoint matchPrefix (pattern : list PatternChar) (s : string) : option string :=
  match pattern with
  | [] => Some s
  | p :: pattern' =>
      match s with
      | EmptyString => None
      | String c r =>
          if match p with
             | PDigit => isDigit c
             | PLit l => Ascii.eqb c l
             end
          then matchPrefix pattern' r
          else None
      end
  end.

(** [\d{4}-\d{2}-\d{2}T] *)
Definition datePattern : list PatternChar :=
  [ PDigit; PDigit; PDigit; PDigit; PLit "-"; PDigit; PDigit; PLit "-";
    PDigit; PDigit; PLit "T" ].

(** the characters that [.] does not match *)
Definition isLineTerminator (c : ascii) : bool :=
  (Js.code c =? 10) || (Js.code c =? 13).

(** [.*?stop] at the start of [s]: what follows the first [stop] that no
    line terminator precedes *)
Fixpoint afterLazy (stop : string) (s : string) : option string :=
  if Js.startsWith s stop then Some (Extract.dropStr (String.length stop) s)
  else
    match s with
    | EmptyString => None
    | String c r => if isLineTerminator c then None else afterLazy stop r
    end.

(** [s.replace(/^\d{4}-\d{2}-\d{2}T.*?Z__/, EMPTY)], EMPTY the empty string *)
Definition stripTimestampPrefix (s : string) : string :=
  match matchPrefix datePattern s with
  | Some rest =>
      match afterLazy "Z__" rest with
      | Some name => name
      | None => s
      end
  | None => s
  end.

(** The JSON body and the secret header of a request. *)
Record R2Request := {
  reqSecret : option string;
  reqKey : option string;
  reqToEmail : option string;
  reqTo : option string;
}.

(** What the deployment sets for the webhook and for the object store
    (services/r2.ts 18-30), and the objects of the store: the bytes
    streamed for a bucket and a key, [None] when the request or the stream
    of its body fails (no such object, no body). *)
Record R2Deployment := {
  INBOUND_WEBHOOK_SECRET : option string;
  CLOUDFLARE_R2_BUCKET : option string;
  CLOUDFLARE_R2_ACCOUNT_ID : option string;
  CLOUDFLARE_R2_ACCESS_KEY_ID : option string;
  CLOUDFLARE_R2_SECRET_ACCESS_KEY : option string;
  r2Objects : string -> string -> option Buffer;
}.

(** [readR2Env] under [getR2Client] (services/r2.ts 18-58): the bucket
    of the client, or the error of a setting that is missing. The client is
    memoised per process; the memo only saves reading the settings again. *)
Definition getR2Client (dep : R2Deployment) : Outcome string :=
  let accountId := Js.trim (orEmpty (CLOUDFLARE_R2_ACCOUNT_ID dep)) in
  let accessKeyId := Js.trim (orEmpty (CLOUDFLARE_R2_ACCESS_KEY_ID dep)) in
  let secretAccessKey := Js.trim (orEmpty (CLOUDFLARE_R2_SECRET_ACCESS_KEY dep)) in
  let bucket := Js.trim (orEmpty (CLOUDFLARE_R2_BUCKET dep)) in
  if negb (Js.truthy accountId) then Throw "Missing CLOUDFLARE_R2_ACCOUNT_ID"
  else if negb (Js.truthy accessKeyId) then Throw "Missing CLOUDFLARE_R2_ACCESS_KEY_ID"
  else if negb (Js.truthy secretAccessKey)
       then Throw "Missing CLOUDFLARE_R2_SECRET_ACCESS_KEY"
  else if negb (Js.truthy bucket) then Throw "Missing CLOUDFLARE_R2_BUCKET"
  else Ok bucket.

(** [r2DownloadToBuffer] (services/r2.ts 134-151): one GetObject request;
    it returns the bytes of the object or throws. *)
Definition r2DownloadToBuffer (env : Env) (dep : R2Deployment) (key : string) : M Buffer :=
  if negb (Js.truthy key) then throw "Missing key"
  else
    bucket <- liftOutcome (getR2Client dep) ;;
    issue env (R2GetObject bucket key) ;;;
    match r2Objects dep bucket key with
    | Some body => ret body
    | None => throw "R2 object body missing"
    end.

Inductive Response :=
| Rejected (httpStatus : nat) (error : string)
| Processed (result : InboundDocResult).

(** [a || b] on two optional strings *)
Definition firstTruthy (a b : option string) : option string :=
  match a with
  | Some s => if Js.truthy s then a else b
  | None => b
  end.

(** The file name the webhook derives from the key. *)
Definition r2Filename (key : string) : string :=
  stripTimestampPrefix (safeBaseName key).

(** The arguments the webhook hands to [processInboundDoc]. *)
Definition r2Args (bucket key toEmail : string) (buffer : Buffer) (extractedText : string)
  : Args :=
  {| argSource := SrcInboundR2;
     argFilename := r2Filename key;
     argBuffer := buffer;
     argExtractedText := Some extractedText;
     argDocType :=
       Some (if 0 <? String.length (Js.trim extractedText)
             then classifyDocTypeFromText extractedText
             else NON_RESUME);
     argToEmail := Some toEmail;
     argR2 := Some {| r2Bucket := bucket; r2Key := key |} |}.

(** The handler of [/webhooks/inbound-r2] (server.js 3576-3626). The
    value [r2DownloadToBuffer] returns is a Buffer, an object, so that the
    test [!buffer] of line 3603 is false and its answer 404 is never
    given. *)
Definition inboundR2 (env : Env) (dep : R2Deployment) (req : R2Request) : M Response :=
  tryCatch
    (let secretConfigured :=
       match INBOUND_WEBHOOK_SECRET dep with
       | Some s => Js.truthy s
       | None => false
       end in
     let secretMatches :=
       match reqSecret req, INBOUND_WEBHOOK_SECRET dep with
       | Some given, Some expected => Js.truthy given && String.eqb given expected
       | _, _ => false
       end in
     if secretConfigured && negb secretMatches then ret (Rejected 401 "unauthorized")
     else
       let key := safeStr (orEmpty (reqKey req)) in
       let toEmail :=
         Js.toLowerCase
           (Js.trim (safeStr (orEmpty (firstTruthy (reqToEmail req) (reqTo req))))) in
       if negb (Js.truthy key) then ret (Rejected 400 "missing_key")
       else if negb (Js.truthy toEmail) then ret (Rejected 400 "missing_toEmail")
       else
         let bucket := safeStr (orEmpty (CLOUDFLARE_R2_BUCKET dep)) in
         if negb (Js.truthy bucket) then ret (Rejected 500 "R2_BUCKET_not_set")
         else
           let filename := r2Filename key in
           if negb (isAllowedFileByName filename)
           then ret (Rejected 415 "unsupported_file_type")
           else
             buffer <- r2DownloadToBuffer env dep key ;;
             extractedText <-
               liftOutcome (extractTextFromBuffer (platform env) filename buffer) ;;
             result <- processInboundDoc env
                         (r2Args bucket key toEmail buffer extractedText) ;;
             ret (Processed result))
    (fun _ => ret (Rejected 500 "inbound_r2_failed")).

(** The key under which the upload webhooks store a file (server.js
    2994, 3487): [iso] is the instant of the upload with its colons and dot
    replaced by hyphens. *)
Definition inboundKey (stamp safeName : string) : string :=
  "inbound/" +:+ stamp +:+ "__" +:+ safeName.

(** the characters of the time part of a key: digits and hyphens *)
Definition isStampChar (c : ascii) : bool := isDigit c || Ascii.eqb c "-"%char.

(** The secret of the request is the one the deployment asks for, if it
    asks for one. *)
Definition r2Authorized (dep : R2Deployment) (req : R2Request) : Prop :=
  match INBOUND_WEBHOOK_SECRET dep with
  | Some expected =>
      Js.truthy expected = true -> reqSecret req = Some expected
  | None => True
  end.

Definition r2Key_of (req : R2Request) : string := safeStr (orEmpty (reqKey req)).

Definition r2ToEmail_of (req : R2Request) : string :=
  Js.toLowerCase (Js.trim (safeStr (orEmpty (firstTruthy (reqToEmail req) (reqTo req))))).

Definition r2Bucket_of (dep : R2Deployment) : string :=
  safeStr (orEmpty (CLOUDFLARE_R2_BUCKET dep)).

(** ** The prompt of a scorer request (server.js 2294-2309) *)

(** What [safeScoreResume] hands to the one-argument [scoreResume]: the
    text, behind the rubric block and its frame when there is a rubric. *)
Definition scorePrompt (text : string) (rubric : option string) : string :=
  match rubric with
  | Some block =>
      if Js.truthy block
      then "RUBRIC (customer scoring criteria):" +:+ newline +:+ block
           +:+ newline +:+ newline +:+ text
      else text
  | None => text
  end.

(** ** Classifier: proofs *)

Section ClassifierFacts.

Lemma lowerChar_idem c : Js.lowerChar (Js.lowerChar c) = Js.lowerChar c.
Proof. destruct c as [[] [] [] [] [] [] [] []]; reflexivity. Qed.

Lemma toLowerCase_idem s : Js.toLowerCase (Js.toLowerCase s) = Js.toLowerCase s.
Proof. induction s as [|c r IH]; simpl; [done|]. now rewrite lowerChar_idem, IH. Qed.

Lemma isLower_lowerChar c : Js.isLower (Js.lowerChar c) = Js.isLetter c.
Proof. destruct c as [[] [] [] [] [] [] [] []]; reflexivity. Qed.

Lemma letters_of_lowered s :
  Js.countChars Js.isLower (Js.toLowerCase s) = ClassifierSpec.alphabeticCount s.
Proof.
  unfold ClassifierSpec.alphabeticCount.
  induction s as [|c r IH]; simpl; [done|].
  now rewrite isLower_lowerChar, IH.
Qed.

Lemma countAny_from text keys k0 :
  fold_left (fun n k => if Js.includes text k then n + 1 else n) keys k0
  = k0 + length (ClassifierSpec.present text keys).
Proof.
  revert k0. induction keys as [|k ks IH]; intros k0; simpl; [lia|].
  rewrite IH. destruct (Js.includes text k); simpl; lia.
Qed.

Lemma countAny_present text keys :
  countAny text keys = length (ClassifierSpec.present text keys).
Proof. unfold countAny. now rewrite countAny_from. Qed.

Lemma hasAny_present text keys :
  hasAny text keys
  = match ClassifierSpec.present text keys with [] => false | _ :: _ => true end.
Proof.
  unfold hasAny, ClassifierSpec.present.
  induction keys as [|k ks IH]; simpl; [done|].
  destruct (Js.includes text k); simpl; [done|apply IH].
Qed.

End ClassifierFacts.

(** C4. The classifier answers NON_RESUME below 80 alphabetic characters
    and otherwise follows the ordered rule (a)-(d) on the two weighted
    keyword scores of the lower-cased text: it coincides, on every text,
    with the decision procedure written from the specification. *)
Theorem classify_follows_decision_rule (t : string) :
  classifyDocTypeFromText t = ClassifierSpec.decide t.
Proof.
  unfold classifyDocTypeFromText, ClassifierSpec.decide,
    ClassifierSpec.resumeScore, ClassifierSpec.nonResumeScore,
    ClassifierSpec.anyStrongResume, ClassifierSpec.minLetters.
  rewrite letters_of_lowered, hasAny_present, !countAny_present.
  replace (length (ClassifierSpec.present (Js.toLowerCase t) resumeStrong) * 3
           + length (ClassifierSpec.present (Js.toLowerCase t) resumeWeak))
    with (3 * length (ClassifierSpec.present (Js.toLowerCase t) resumeStrong)
          + 1 * length (ClassifierSpec.present (Js.toLowerCase t) resumeWeak)) by lia.
  replace (length (ClassifierSpec.present (Js.toLowerCase t) nonResumeStrong) * 3)
    with (3 * length (ClassifierSpec.present (Js.toLowerCase t) nonResumeStrong)) by lia.
  reflexivity.
Qed.

(** C10. The classifier is case-insensitive: a text and its lower-cased
    form receive the same category. *)
Theorem classify_case_insensitive (t : string) :
  classifyDocTypeFromText t = classifyDocTypeFromText (Js.toLowerCase t).
Proof.
  unfold classifyDocTypeFromText.
  now rewrite toLowerCase_idem.
Qed.

(** ** Strings: trimming and splitting *)

Section StringFacts.

Lemma trimStart_clean s : startsClean (Js.trimStart s).
Proof.
  induction s as [|c r IH]; simpl; [done|].
  destruct (Js.isSpace c) eqn:Hc; [done|]. simpl. exact Hc.
Qed.

Lemma trimStart_of_clean s : startsClean s -> Js.trimStart s = s.
Proof. destruct s as [|c r]; simpl; [done|]. now intros ->. Qed.

Lemma trimEnd_clean s : startsClean s -> startsClean (Js.trimEnd s).
Proof.
  destruct s as [|c r]; simpl; [done|]. intros Hc.
  destruct (Js.trimEnd r); simpl; [rewrite Hc; simpl|]; exact Hc.
Qed.

Lemma trimEnd_idem s : Js.trimEnd (Js.trimEnd s) = Js.trimEnd s.
Proof.
  induction s as [|c r IH]; simpl; [done|].
  destruct (Js.trimEnd r) as [|d t] eqn:Ht.
  - destruct (Js.isSpace c) eqn:Hc; simpl; [done|]. now rewrite Hc.
  - change (Js.trimEnd (String c (String d t))) with
      (match Js.trimEnd (String d t) with
       | EmptyString => if Js.isSpace c then EmptyString else String c EmptyString
       | r' => String c r'
       end).
    now rewrite IH.
Qed.

Lemma trim_idem s : Js.trim (Js.trim s) = Js.trim s.
Proof.
  unfold Js.trim.
  rewrite (trimStart_of_clean (Js.trimEnd (Js.trimStart s))).
  - apply trimEnd_idem.
  - apply trimEnd_clean, trimStart_clean.
Qed.

Lemma safeStr_idem s : safeStr (safeStr s) = safeStr s.
Proof. apply trim_idem. Qed.

Lemma letter_not_space c : Js.isLetter c = true -> Js.isSpace c = false.
Proof. destruct c as [[] [] [] [] [] [] [] []]; (reflexivity || discriminate). Qed.

Lemma countChars_trimStart p s :
  (forall c, p c = true -> Js.isSpace c = false) ->
  Js.countChars p (Js.trimStart s) = Js.countChars p s.
Proof.
  intros Hp. induction s as [|c r IH]; simpl; [done|].
  destruct (Js.isSpace c) eqn:Hc; [|done].
  rewrite IH. destruct (p c) eqn:Hpc; [|done].
  apply Hp in Hpc. congruence.
Qed.

Lemma countChars_trimEnd p s :
  (forall c, p c = true -> Js.isSpace c = false) ->
  Js.countChars p (Js.trimEnd s) = Js.countChars p s.
Proof.
  intros Hp. induction s as [|c r IH]; simpl; [done|].
  destruct (Js.trimEnd r) as [|d t] eqn:Ht.
  - rewrite <- IH. simpl.
    destruct (Js.isSpace c) eqn:Hc; simpl; [|lia].
    destruct (p c) eqn:Hpc; [|done].
    apply Hp in Hpc. congruence.
  - rewrite <- IH. reflexivity.
Qed.

Lemma countChars_le_length p s : Js.countChars p s <= String.length s.
Proof. induction s as [|c r IH]; simpl; [lia|]. destruct (p c); lia. Qed.

Lemma letters_le_trim_length s :
  Js.countChars Js.isLetter s <= String.length (Js.trim s).
Proof.
  unfold Js.trim.
  rewrite <- (countChars_trimStart Js.isLetter s letter_not_space).
  rewrite <- (countChars_trimEnd Js.isLetter (Js.trimStart s) letter_not_space).
  apply countChars_le_length.
Qed.

Lemma splitComma_nonempty s : Js.splitComma s <> [].
Proof.
  destruct s as [|c r]; simpl; [done|].
  destruct (Ascii.eqb c ","); [done|].
  destruct (Js.splitComma r); done.
Qed.

Lemma splitComma_app a b :
  Js.splitComma (a +:+ String "," b) = Js.splitComma a ++ Js.splitComma b.
Proof.
  induction a as [|c r IH]; simpl; [done|].
  change (String.append r (String "," b)) with (r +:+ String "," b).
  rewrite IH.
  destruct (Ascii.eqb c ","); [done|].
  destruct (Js.splitComma r) as [|h t] eqn:Hr; [|done].
  now apply splitComma_nonempty in Hr.
Qed.

Lemma arrIncludes_app_r l x : Js.arrIncludes (l ++ [x]) x = true.
Proof.
  unfold Js.arrIncludes. rewrite existsb_app. simpl.
  rewrite String.eqb_refl. now rewrite orb_true_r.
Qed.

End StringFacts.

(** A RESUME verdict of the classifier needs 80 letters, which survive
    trimming. *)
Lemma classified_resume_trim_length t :
  classifyDocTypeFromText t = RESUME -> 80 <= String.length (Js.trim t).
Proof.
  unfold classifyDocTypeFromText. rewrite letters_of_lowered.
  destruct (ClassifierSpec.alphabeticCount t <? 80) eqn:Hl; [done|].
  intros _. apply Nat.ltb_ge in Hl.
  pose proof (letters_le_trim_length t).
  unfold ClassifierSpec.alphabeticCount in Hl. lia.
Qed.

(** ** Text extraction: proofs *)

Lemma catchOutcome_empty_total (body : Outcome string) :
  exists s, catchOutcome body (fun _ => Ok EmptyString) = Ok s.
Proof. destruct body as [s|e]; simpl; eauto. Qed.

Lemma extract_returns pf filename buf :
  exists s, extractTextFromBuffer pf filename buf = Ok s.
Proof. unfold extractTextFromBuffer. apply catchOutcome_empty_total. Qed.





(** ** Rules for runs of the pipeline monad *)

Section RunRules.

Context (env : Env).

Lemma Issues_refl P w : Issues P w w.
Proof. exists []. split; [done|constructor]. Qed.

Lemma Issues_trans P w1 w2 w3 : Issues P w1 w2 -> Issues P w2 w3 -> Issues P w1 w3.
Proof.
  intros (d1 & E1 & F1) (d2 & E2 & F2). exists (d2 ++ d1). split.
  - rewrite E2, E1. now rewrite app_assoc.
  - apply Forall_app. now split.
Qed.

#[local] Instance Issues_preorder P : PreOrder (Issues P).
Proof. split; [intros w; apply Issues_refl|intros w1 w2 w3; apply Issues_trans]. Qed.

#[local] Instance SameLedger_preorder : PreOrder SameLedger.
Proof.
  split; [intros w; reflexivity|].
  intros w1 w2 w3 H1 H2. unfold SameLedger in *. congruence.
Qed.

#[local] Instance ReadOnly_preorder P : PreOrder (ReadOnly P).
Proof.
  split.
  - intros w. split; reflexivity.
  - intros w1 w2 w3 [L1 I1] [L2 I2]. split; etransitivity; eauto.
Qed.

Lemma Issues_mono (P Q : Event -> Prop) w w' :
  (forall ev, P ev -> Q ev) -> Issues P w w' -> Issues Q w w'.
Proof.
  intros HPQ (d & E & F). exists d. split; [done|].
  eapply Forall_impl; eauto.
Qed.

Lemma Issues_silent (P : Event -> Prop) (p : Event -> bool) w w' :
  (forall ev, P ev -> p ev = false) -> Issues P w w' -> Silent p w w'.
Proof.
  intros HP (d & E & F). unfold Silent. rewrite E, List.filter_app.
  assert (List.filter p d = []) as ->; [|reflexivity].
  clear E. induction F as [|ev d Hev F IH]; simpl; [reflexivity|].
  now rewrite (HP ev Hev).
Qed.

Lemma Silent_count p w w' : Silent p w w' -> countEvents p w' = countEvents p w.
Proof. unfold Silent, countEvents. now intros ->. Qed.

Section Keeping.

Context (R : World -> World -> Prop) `{!PreOrder R}.

Lemma keeps_ret {A} (a : A) : Keeps R (ret a).
Proof. intros w. reflexivity. Qed.

Lemma keeps_throw {A} e : Keeps R (@throw A e).
Proof. intros w. reflexivity. Qed.

Lemma keeps_liftOutcome {A} (o : Outcome A) : Keeps R (liftOutcome o).
Proof. intros w. reflexivity. Qed.

Lemma keeps_readLedger sheet : Keeps R (readLedger sheet).
Proof. intros w. unfold readLedger. destruct (ledger w !! sheet); reflexivity. Qed.

Lemma keeps_bind {A B} (m : M A) (k : A -> M B) :
  Keeps R m -> (forall a, Keeps R (k a)) -> Keeps R (bind m k).
Proof.
  intros Hm Hk w. unfold bind. specialize (Hm w).
  destruct (m w) as [[a|e] w1]; simpl in *; [|done].
  etransitivity; [exact Hm|apply Hk].
Qed.

Lemma keeps_tryCatch {A} (m : M A) (h : string -> M A) :
  Keeps R m -> (forall e, Keeps R (h e)) -> Keeps R (tryCatch m h).
Proof.
  intros Hm Hh w. unfold tryCatch. specialize (Hm w).
  destruct (m w) as [[a|e] w1]; simpl in *; [done|].
  etransitivity; [exact Hm|apply Hh].
Qed.

Lemma keeps_issue ev : (forall w, R w (recorded ev w)) -> Keeps R (issue env ev).
Proof.
  intros H w. unfold issue. specialize (H w).
  destruct (remoteFails env (calls w) ev); exact H.
Qed.

Lemma keeps_writeLedger sheet f :
  (forall w rows, ledger w !! sheet = Some rows -> R w (stored sheet (f rows) w)) ->
  Keeps R (writeLedger sheet f).
Proof.
  intros H w. unfold writeLedger.
  destruct (ledger w !! sheet) as [rows|] eqn:E; simpl; [|reflexivity].
  now apply H.
Qed.

End Keeping.

Lemma Total_ret {A} (a : A) : Total (ret a).
Proof. intros w. reflexivity. Qed.

Lemma Total_tryCatch {A} (m : M A) (h : string -> M A) :
  (forall e, Total (h e)) -> Total (tryCatch m h).
Proof.
  intros Hh w. unfold tryCatch.
  destruct (m w) as [[a|e] w1]; simpl; [done|apply Hh].
Qed.

Lemma Total_bind {A B} (m : M A) (k : A -> M B) :
  Total m -> (forall a, Total (k a)) -> Total (bind m k).
Proof.
  intros Hm Hk w. unfold bind. specialize (Hm w).
  destruct (m w) as [[a|e] w1]; simpl in *; [apply Hk|done].
Qed.

Lemma Total_run {A} (m : M A) w :
  Total m -> exists a, m w = (Ok a, snd (m w)).
Proof.
  intros H. specialize (H w). destruct (m w) as [[a|e] w1]; simpl in *; [eauto|done].
Qed.

(** Recording a call changes no cell and issues that call. *)
Lemma recorded_readOnly (P : Event -> Prop) ev w : P ev -> ReadOnly P w (recorded ev w).
Proof.
  intros H. split; [reflexivity|].
  exists [ev]. split; [done|]. now constructor.
Qed.

Lemma recorded_issues (P : Event -> Prop) ev w : P ev -> Issues P w (recorded ev w).
Proof. intros H. exists [ev]. split; [done|]. now constructor. Qed.

Lemma stored_issues (P : Event -> Prop) sheet rows w : Issues P w (stored sheet rows w).
Proof. exists []. split; [done|constructor]. Qed.

End RunRules.

#[global] Existing Instance Issues_preorder.
#[global] Existing Instance SameLedger_preorder.
#[global] Existing Instance ReadOnly_preorder.

(** Symbolic steps through a [Keeps] goal. *)
Ltac keeps_step :=
  lazymatch goal with
  | |- Keeps _ (ret _) => apply keeps_ret; try typeclasses eauto
  | |- Keeps _ (throw _) => apply keeps_throw; try typeclasses eauto
  | |- Keeps _ (liftOutcome _) => apply keeps_liftOutcome; try typeclasses eauto
  | |- Keeps _ (readLedger _) => apply keeps_readLedger; try typeclasses eauto
  | |- Keeps _ (bind _ _) => apply keeps_bind; [try typeclasses eauto| |intros ?]
  | |- Keeps _ (tryCatch _ _) => apply keeps_tryCatch; [try typeclasses eauto| |intros ?]
  | |- Keeps _ (issue _ _) => apply keeps_issue; intros ?
  | |- Keeps _ (writeLedger _ _) =>
      apply keeps_writeLedger; [typeclasses eauto|intros ? ? ?]
  | |- Keeps _ (if ?b then _ else _) => destruct b
  | |- Keeps _ (match ?x with _ => _ end) => destruct x
  end.

Ltac keeps_go :=
  repeat (cbv zeta; first [ solve [eauto 3 with keeps] | keeps_step ]).

Ltac issues_side :=
  first [ apply stored_issues
        | apply recorded_issues; first [ assumption | reflexivity | eauto ] ].

(** ** Footprints: which remote calls each function may issue *)

Section Footprints.

Context (env : Env).

Lemma issues_share (P : Event -> Prop) sheet :
  (forall ev, shareCall ev = true -> P ev) ->
  Keeps (Issues P) (shareBeforeAccess env sheet).
Proof.
  intros HP.
  unfold shareBeforeAccess, logAuthedGoogleEmailFromTokens, ensureSheetSharedOnce.
  keeps_go; apply recorded_issues, HP; reflexivity.
Qed.

Lemma share_readOnly sheet :
  Keeps (ReadOnly (fun ev => shareCall ev = true)) (shareBeforeAccess env sheet).
Proof.
  unfold shareBeforeAccess, logAuthedGoogleEmailFromTokens, ensureSheetSharedOnce.
  keeps_go; apply recorded_readOnly; reflexivity.
Qed.

Lemma share_total sheet : Total (shareBeforeAccess env sheet).
Proof.
  unfold shareBeforeAccess, logAuthedGoogleEmailFromTokens, ensureSheetSharedOnce.
  apply Total_bind.
  - apply Total_tryCatch. intros e. apply Total_ret.
  - intros authed. apply Total_bind.
    + destruct authed as [e|]; [|apply Total_ret].
      destruct (_ || _); [apply Total_ret|].
      apply Total_tryCatch. intros ?. apply Total_ret.
    + intros _. cbv zeta. destruct (_ && _); [|apply Total_ret].
      destruct (_ || _); [apply Total_ret|].
      apply Total_tryCatch. intros ?. apply Total_ret.
Qed.

Lemma issues_sheetsGetRows (P : Event -> Prop) sheet :
  P (SheetsGetRows sheet) -> Keeps (Issues P) (sheetsGetRows env sheet).
Proof. intros HP. unfold sheetsGetRows. keeps_go. issues_side. Qed.

Lemma issues_sheetsGetTokens (P : Event -> Prop) site sheet rowNumber :
  P (SheetsGetTokens site sheet rowNumber) ->
  Keeps (Issues P) (sheetsGetTokens env site sheet rowNumber).
Proof. intros HP. unfold sheetsGetTokens. keeps_go. issues_side. Qed.

Lemma issues_sheetsUpdate (P : Event -> Prop) sheet rowNumber wr :
  P (SheetsUpdate sheet rowNumber wr) ->
  Keeps (Issues P) (sheetsUpdate env sheet rowNumber wr).
Proof. intros HP. unfold sheetsUpdate. keeps_go; issues_side. Qed.

Lemma issues_sheetsAppend (P : Event -> Prop) sheet r :
  P (SheetsAppend sheet r) -> Keeps (Issues P) (sheetsAppend env sheet r).
Proof. intros HP. unfold sheetsAppend. keeps_go; issues_side. Qed.

Lemma issues_ensure (P : Event -> Prop) sheet today customer :
  (forall ev, ledgerCall ev = true -> P ev) ->
  Keeps (Issues P) (ensureTodayTallyRow env sheet today customer).
Proof.
  intros HP. unfold ensureTodayTallyRow.
  apply keeps_bind; [typeclasses eauto| |intros _].
  { apply issues_share. intros ev Hev. apply HP. now destruct ev. }
  apply keeps_bind; [typeclasses eauto| |intros rows].
  { apply issues_sheetsGetRows, HP. reflexivity. }
  destruct (findIndex _ rows); [apply keeps_ret; typeclasses eauto|].
  apply keeps_bind; [typeclasses eauto| |intros _].
  { apply issues_sheetsAppend, HP. reflexivity. }
  apply keeps_bind; [typeclasses eauto| |intros rows2].
  { apply issues_sheetsGetRows, HP. reflexivity. }
  apply keeps_ret; typeclasses eauto.
Qed.

Lemma issues_tallyApply (P : Event -> Prop) sheet customer docType source key token ai :
  (forall ev, ledgerCall ev = true -> P ev) ->
  Keeps (Issues P) (tallyApply env sheet customer docType source key token ai).
Proof.
  intros HP.
  assert (Hup : forall rn wr, Keeps (Issues P) (sheetsUpdate env sheet rn wr)).
  { intros rn wr. apply issues_sheetsUpdate, HP. reflexivity. }
  assert (Hget : forall site rn, Keeps (Issues P) (sheetsGetTokens env site sheet rn)).
  { intros site rn. apply issues_sheetsGetTokens, HP. reflexivity. }
  unfold tallyApply, tokenAlreadyRecorded, recordPointerAndTokens. cbv zeta.
  apply keeps_bind; [typeclasses eauto|now apply issues_ensure|intros row].
  apply keeps_bind; [typeclasses eauto| |intros has].
  { destruct (_ && _); [|apply keeps_ret; typeclasses eauto].
    apply keeps_tryCatch; [typeclasses eauto| |intros ?; apply keeps_ret; typeclasses eauto].
    apply keeps_bind; [typeclasses eauto|apply Hget|intros ?].
    apply keeps_ret; typeclasses eauto. }
  destruct has; [apply keeps_ret; typeclasses eauto|].
  repeat (apply keeps_bind; [typeclasses eauto|apply Hup|intros _]).
  apply keeps_bind; [typeclasses eauto| |intros _; apply keeps_ret; typeclasses eauto].
  destruct (_ && _); [|apply keeps_ret; typeclasses eauto].
  repeat (apply keeps_bind; [typeclasses eauto|apply Hup|intros _]).
  apply keeps_bind; [typeclasses eauto|apply Hget|intros ?].
  apply keeps_bind; [typeclasses eauto|apply Hup|intros _].
  destruct (aiScore ai); [apply Hup|apply keeps_ret; typeclasses eauto].
Qed.

Lemma issues_alreadyProcessedToday (P : Event -> Prop) sheet customer token :
  (forall ev, ledgerCall ev = true -> P ev) ->
  Keeps (Issues P) (alreadyProcessedToday env sheet customer token).
Proof.
  intros HP. unfold alreadyProcessedToday.
  apply keeps_tryCatch; [typeclasses eauto| |intros ?; apply keeps_ret; typeclasses eauto].
  destruct (_ && _); [|apply keeps_ret; typeclasses eauto].
  apply keeps_bind; [typeclasses eauto|now apply issues_ensure|intros row].
  cbv zeta.
  apply keeps_bind; [typeclasses eauto| |intros ?; apply keeps_ret; typeclasses eauto].
  apply issues_sheetsGetTokens, HP. reflexivity.
Qed.

Lemma alreadyProcessedToday_total sheet customer token :
  Total (alreadyProcessedToday env sheet customer token).
Proof. apply Total_tryCatch. intros ?. apply Total_ret. Qed.

(** The only scorer request of [aiStage] carries the extracted text cut
    to the scorer cap. *)
Lemma issues_aiStage (P : Event -> Prop) args m docType text tooLarge rubric :
  (forall ev, ledgerCall ev = true -> P ev) ->
  P (ScoreCall (Js.slice0 (MAX_OPENAI_CHARS (config env)) text) rubric) ->
  Keeps (Issues P) (aiStage env args m docType text tooLarge rubric).
Proof.
  intros HP HS. unfold aiStage.
  apply keeps_tryCatch; [typeclasses eauto| |intros ?; apply keeps_ret; typeclasses eauto].
  destruct (blockedOf m); [apply keeps_ret; typeclasses eauto|].
  destruct (_ && _); [|apply keeps_ret; typeclasses eauto].
  destruct tooLarge; [apply keeps_ret; typeclasses eauto|].
  apply keeps_bind;
    [typeclasses eauto|now apply issues_alreadyProcessedToday|intros already].
  destruct (_ && _); [|apply keeps_ret; typeclasses eauto].
  destruct already; [apply keeps_ret; typeclasses eauto|].
  cbv zeta. unfold safeScoreResume.
  apply keeps_bind; [typeclasses eauto| |intros ?; apply keeps_ret; typeclasses eauto].
  apply keeps_bind; [typeclasses eauto| |intros _].
  { apply keeps_issue. intros w. now apply recorded_issues. }
  destruct rubric as [block|]; [destruct (Js.truthy block)|];
    apply keeps_ret; typeclasses eauto.
Qed.

Lemma aiStage_total args m docType text tooLarge rubric :
  Total (aiStage env args m docType text tooLarge rubric).
Proof. apply Total_tryCatch. intros ?. apply Total_ret. Qed.

Lemma issues_tallyStage (P : Event -> Prop) args m docType ai :
  (forall ev, ledgerCall ev = true -> P ev) ->
  Keeps (Issues P) (tallyStage env args m docType ai).
Proof.
  intros HP. unfold tallyStage. cbv zeta.
  apply keeps_tryCatch; [typeclasses eauto| |intros ?; apply keeps_ret; typeclasses eauto].
  destruct (blockedOf m); [apply keeps_ret; typeclasses eauto|].
  destruct (_ && _); [apply keeps_ret; typeclasses eauto|].
  destruct (_ && _); [|apply keeps_ret; typeclasses eauto].
  apply keeps_bind; [typeclasses eauto|now apply issues_tallyApply|intros ?].
  apply keeps_ret; typeclasses eauto.
Qed.

Lemma tallyStage_total args m docType ai : Total (tallyStage env args m docType ai).
Proof. apply Total_tryCatch. intros ?. apply Total_ret. Qed.

Lemma resolveCustomer_readOnly toEmail :
  Keeps (ReadOnly (fun ev => ev = DirectoryRead)) (resolveCustomer env toEmail).
Proof.
  unfold resolveCustomer, getCustomersCached.
  keeps_go. now apply recorded_readOnly.
Qed.

Lemma resolveCustomer_total toEmail : Total (resolveCustomer env toEmail).
Proof.
  unfold resolveCustomer. destruct (Js.truthy toEmail); [|apply Total_ret].
  apply Total_tryCatch. intros ?. apply Total_ret.
Qed.

Lemma getCustomerRubric_readOnly customer :
  Keeps (ReadOnly (fun ev => ev = RubricQuery customer)) (getCustomerRubric env customer).
Proof.
  unfold getCustomerRubric. keeps_go. now apply recorded_readOnly.
Qed.

Lemma getCustomerRubric_total customer : Total (getCustomerRubric env customer).
Proof.
  unfold getCustomerRubric. destruct (negb _); [apply Total_ret|].
  apply Total_tryCatch. intros ?. apply Total_ret.
Qed.

Lemma auditStage_total args m toEmail docType text ai :
  Total (auditStage env args m toEmail docType text ai).
Proof. apply Total_tryCatch. intros ?. apply Total_ret. Qed.

Lemma emailStage_total m toEmail docType ai tally :
  Total (emailStage env m toEmail docType ai tally).
Proof. apply Total_tryCatch. intros ?. apply Total_ret. Qed.

End Footprints.

(** ** The stages of a run of [processInboundDoc] *)

Section Stages.

Context (env : Env).

Lemma extractedTextRawOf_returns args : exists raw, extractedTextRawOf env args = Ok raw.
Proof.
  unfold extractedTextRawOf. destruct (argExtractedText args); [eauto|].
  apply extract_returns.
Qed.

(** A run decomposes into its stages, none of which throws. *)
Lemma processInboundDoc_stages args w :
  exists raw m rubric ai tally w1 w2 w3 w4 w5 w6,
    let text := capExtracted env raw in
    let docType := docTypeOf args text in
    extractedTextRawOf env args = Ok raw
    /\ resolveCustomer env (toEmailOf args) w = (Ok m, w1)
    /\ getCustomerRubric env (customerIdOf m) w1 = (Ok rubric, w2)
    /\ aiStage env args m docType text (extractedTooLargeOf env raw) rubric w2 = (Ok ai, w3)
    /\ tallyStage env args m docType ai w3 = (Ok tally, w4)
    /\ auditStage env args m (toEmailOf args) docType text ai w4 = (Ok tt, w5)
    /\ emailStage env m (toEmailOf args) docType ai tally w5 = (Ok tt, w6)
    /\ processInboundDoc env args w = (Ok (buildResult args m docType text tally ai), w6).
Proof.
  destruct (extractedTextRawOf_returns args) as [raw Hraw].
  destruct (Total_run _ w (resolveCustomer_total env (toEmailOf args))) as [m Hm].
  set (w1 := snd (resolveCustomer env (toEmailOf args) w)) in *.
  destruct (Total_run _ w1 (getCustomerRubric_total env (customerIdOf m))) as [rubric Hr].
  set (w2 := snd (getCustomerRubric env (customerIdOf m) w1)) in *.
  set (text := capExtracted env raw).
  set (docType := docTypeOf args text).
  destruct (Total_run _ w2
              (aiStage_total env args m docType text (extractedTooLargeOf env raw) rubric))
    as [ai Hai].
  set (w3 := snd (aiStage env args m docType text (extractedTooLargeOf env raw) rubric w2)) in *.
  destruct (Total_run _ w3 (tallyStage_total env args m docType ai)) as [tally Ht].
  set (w4 := snd (tallyStage env args m docType ai w3)) in *.
  destruct (Total_run _ w4 (auditStage_total env args m (toEmailOf args) docType text ai))
    as [[] Hau].
  set (w5 := snd (auditStage env args m (toEmailOf args) docType text ai w4)) in *.
  destruct (Total_run _ w5 (emailStage_total env m (toEmailOf args) docType ai tally))
    as [[] Hem].
  set (w6 := snd (emailStage env m (toEmailOf args) docType ai tally w5)) in *.
  exists raw, m, rubric, ai, tally, w1, w2, w3, w4, w5, w6.
  cbv zeta. repeat (split; [assumption|]).
  unfold processInboundDoc, bind, liftOutcome.
  rewrite Hraw. cbv zeta. fold text. fold docType.
  rewrite Hm, Hr, Hai, Ht, Hau, Hem. reflexivity.
Qed.

End Stages.

(** ** Notification gate: proofs *)

Section Notification.

Context (env : Env).

Lemma Issues_count_le (P : Event -> Prop) p w w' :
  Issues P w w' -> countEvents p w <= countEvents p w'.
Proof.
  intros (d & E & _). unfold countEvents. rewrite E, List.filter_app, length_app. lia.
Qed.

Lemma countEvents_recorded p ev w :
  countEvents p (recorded ev w) = (if p ev then 1 else 0) + countEvents p w.
Proof. unfold countEvents. simpl. now destruct (p ev). Qed.

Lemma emailStage_without_increment m toEmail docType ai tally w :
  didIncrement tally = false ->
  emailStage env m toEmail docType ai tally w = (Ok tt, w).
Proof. intros H. unfold emailStage, tryCatch. cbv zeta. now rewrite H. Qed.

Lemma issue_swallowed_run ev w :
  tryCatch (issue env ev) (fun _ => ret tt) w = (Ok tt, recorded ev w).
Proof.
  unfold tryCatch, issue, ret, recorded.
  destruct (remoteFails env (calls w) ev); reflexivity.
Qed.

Lemma sendCustomerText_run to kind w :
  sendCustomerText env to kind w
  = (Ok tt, if emailServiceAvailable env then recorded (EmailSend to kind) w else w).
Proof.
  unfold sendCustomerText.
  destruct (emailServiceAvailable env); simpl; [apply issue_swallowed_run|reflexivity].
Qed.

Lemma emailStage_at_most_one m toEmail docType ai tally w :
  emailsAttempted (snd (emailStage env m toEmail docType ai tally w))
  <= emailsAttempted w + 1.
Proof.
  unfold emailStage, emailsAttempted. cbv zeta. unfold tryCatch at 1.
  destruct (negb (didIncrement tally)); simpl; [lia|].
  destruct (_ && _); simpl; [lia|].
  rewrite sendCustomerText_run.
  destruct (emailServiceAvailable env); simpl; [|lia].
  rewrite countEvents_recorded. simpl. lia.
Qed.

Lemma issues_emailStage m toEmail docType ai tally :
  Keeps (Issues (fun ev => isEmailSend ev = true))
        (emailStage env m toEmail docType ai tally).
Proof.
  unfold emailStage, sendCustomerText. keeps_go. now apply recorded_issues.
Qed.

Lemma auditStage_run args m toEmail docType text ai w :
  exists record,
    auditStage env args m toEmail docType text ai w
    = (Ok tt, recorded (AuditInsert record) w).
Proof.
  unfold auditStage, saveInboundDocToDb.
  eexists. apply issue_swallowed_run.
Qed.

(** On a run, the stages before the dispatch send nothing. *)
Lemma no_email_before_dispatch args m docType text tooLarge rubric ai tally w2 w3 w4 :
  aiStage env args m docType text tooLarge rubric w2 = (Ok ai, w3) ->
  tallyStage env args m docType ai w3 = (Ok tally, w4) ->
  emailsAttempted w4 = emailsAttempted w2.
Proof.
  intros Hai Ht.
  pose proof (issues_aiStage env
                (fun ev => isEmailSend ev = false) args m docType text tooLarge rubric) as H3.
  pose proof (issues_tallyStage env (fun ev => isEmailSend ev = false) args m docType ai) as H4.
  specialize (H3 ltac:(now intros []) eq_refl w2).
  specialize (H4 ltac:(now intros []) w3).
  rewrite Hai in H3. rewrite Ht in H4. simpl in *.
  unfold emailsAttempted.
  rewrite (Silent_count isEmailSend w3 w4), (Silent_count isEmailSend w2 w3); [done| |].
  - eapply Issues_silent; [|exact H3]. auto.
  - eapply Issues_silent; [|exact H4]. auto.
Qed.

Lemma readOnly_count (P : Event -> Prop) p w w' :
  (forall ev, P ev -> p ev = false) -> ReadOnly P w w' -> countEvents p w' = countEvents p w.
Proof.
  intros HP [_ HI]. apply Silent_count. eapply Issues_silent; eauto.
Qed.

(** The stages up to the audit do not depend on the verdicts of the fault
    schedule on mail dispatch. *)
Lemma stages_ignore_dispatch_faults h args m docType text tooLarge rubric ai toEmail :
  extractedTextRawOf (withDispatchFaults h env) args = extractedTextRawOf env args
  /\ resolveCustomer (withDispatchFaults h env) toEmail = resolveCustomer env toEmail
  /\ getCustomerRubric (withDispatchFaults h env) (customerIdOf m)
     = getCustomerRubric env (customerIdOf m)
  /\ aiStage (withDispatchFaults h env) args m docType text tooLarge rubric
     = aiStage env args m docType text tooLarge rubric
  /\ tallyStage (withDispatchFaults h env) args m docType ai
     = tallyStage env args m docType ai
  /\ auditStage (withDispatchFaults h env) args m toEmail docType text ai
     = auditStage env args m toEmail docType text ai.
Proof. repeat split; reflexivity. Qed.

End Notification.

(** C2. A customer message is attempted only after a confirmed
    increment: a run of [processInboundDoc] returns a result, attempts no
    message when [tallyResult.shouldIncrement] is not [true] (duplicate
    skip, billing block, ledger failure) and at most one when it is; and
    whether the dispatch throws or not, the result returned is the same. *)
Theorem message_only_after_confirmed_increment env args w :
  exists res,
    fst (processInboundDoc env args w) = Ok res
    /\ emailsAttempted w <= emailsAttempted (snd (processInboundDoc env args w))
    /\ emailsAttempted (snd (processInboundDoc env args w))
       <= emailsAttempted w + (if didIncrement (resTally res) then 1 else 0)
    /\ forall h, fst (processInboundDoc (withDispatchFaults h env) args w) = Ok res.
Proof.
  destruct (processInboundDoc_stages env args w)
    as (raw & m & rubric & ai & tally & w1 & w2 & w3 & w4 & w5 & w6 & H).
  cbv zeta in H. destruct H as (Hraw & Hm & Hr & Hai & Ht & Hau & Hem & Hrun).
  rewrite Hrun. simpl. eexists. split; [reflexivity|].
  assert (E1 : emailsAttempted w1 = emailsAttempted w).
  { pose proof (resolveCustomer_readOnly env (toEmailOf args) w) as H.
    rewrite Hm in H. eapply readOnly_count; [|exact H]. now intros ev ->. }
  assert (E2 : emailsAttempted w2 = emailsAttempted w1).
  { pose proof (getCustomerRubric_readOnly env (customerIdOf m) w1) as H.
    rewrite Hr in H. eapply readOnly_count; [|exact H]. now intros ev ->. }
  assert (E4 : emailsAttempted w4 = emailsAttempted w2)
    by (eapply no_email_before_dispatch; eauto).
  assert (E5 : emailsAttempted w5 = emailsAttempted w4).
  { destruct (auditStage_run env args m (toEmailOf args)
                (docTypeOf args (capExtracted env raw)) (capExtracted env raw) ai w4)
      as [record Hrec].
    rewrite Hau in Hrec. injection Hrec as ->.
    unfold emailsAttempted. now rewrite countEvents_recorded. }
  split; [|split].
  - pose proof (issues_emailStage env m (toEmailOf args)
                  (docTypeOf args (capExtracted env raw)) ai tally w5) as H.
    rewrite Hem in H. apply (Issues_count_le _ isEmailSend) in H.
    simpl in H. unfold emailsAttempted in *. lia.
  - simpl. destruct (didIncrement tally) eqn:Hd.
    + pose proof (emailStage_at_most_one env m (toEmailOf args)
                    (docTypeOf args (capExtracted env raw)) ai tally w5) as H.
      rewrite Hem in H. simpl in H. simpl. unfold emailsAttempted in *. lia.
    + rewrite emailStage_without_increment in Hem by exact Hd.
      injection Hem as <-. unfold emailsAttempted in *. lia.
  - intros h.
    destruct (processInboundDoc_stages (withDispatchFaults h env) args w)
      as (raw' & m' & rubric' & ai' & tally' & v1 & v2 & v3 & v4 & v5 & v6 & H').
    cbv zeta in H'. destruct H' as (Hraw' & Hm' & Hr' & Hai' & Ht' & Hau' & _ & Hrun').
    rewrite Hrun'. simpl.
    change (extractedTextRawOf (withDispatchFaults h env) args)
      with (extractedTextRawOf env args) in Hraw'.
    rewrite Hraw in Hraw'. injection Hraw' as <-.
    change (resolveCustomer (withDispatchFaults h env) (toEmailOf args))
      with (resolveCustomer env (toEmailOf args)) in Hm'.
    rewrite Hm in Hm'. injection Hm' as <- <-.
    change (getCustomerRubric (withDispatchFaults h env) (customerIdOf m))
      with (getCustomerRubric env (customerIdOf m)) in Hr'.
    rewrite Hr in Hr'. injection Hr' as <- <-.
    change (capExtracted (withDispatchFaults h env) raw) with (capExtracted env raw) in *.
    change (extractedTooLargeOf (withDispatchFaults h env) raw)
      with (extractedTooLargeOf env raw) in *.
    change (aiStage (withDispatchFaults h env)) with (aiStage env) in Hai'.
    rewrite Hai in Hai'. injection Hai' as <- <-.
    change (tallyStage (withDispatchFaults h env)) with (tallyStage env) in Ht'.
    rewrite Ht in Ht'. injection Ht' as <- <-.
    reflexivity.
Qed.

(** ** Billing gate: proofs *)

Section Billing.

Context (env : Env).

Lemma blocking_status_blocks s :
  In (Js.toLowerCase (safeStr s)) blockingStatuses ->
  exists reason, isProcessingAllowed s = Blocked reason.
Proof.
  unfold isProcessingAllowed, blockingStatuses. cbv zeta.
  intros [E|[E|[E|[E|[]]]]]; rewrite <- E; eexists; reflexivity.
Qed.

Lemma readCustomers_normal c rows :
  In c (readCustomersFromMasterSheet rows) ->
  Js.truthy (customerId c) = true
  /\ safeStr (customerId c) = customerId c
  /\ safeStr (status c) = status c.
Proof.
  unfold readCustomersFromMasterSheet. intros H.
  apply List.filter_In in H as [H Ht]. split; [exact Ht|].
  apply in_map_iff in H as (r & <- & _). simpl.
  split; apply safeStr_idem.
Qed.

Lemma resolveCustomer_some toEmail w c :
  fst (resolveCustomer env toEmail w) = Ok (Some c) ->
  In c (readCustomersFromMasterSheet (masterRows env)).
Proof.
  unfold resolveCustomer, getCustomersCached, tryCatch, bind, issue, ret, findCustomer.
  destruct (Js.truthy toEmail); [|discriminate].
  destruct (remoteFails env (calls w) DirectoryRead); simpl; [discriminate|].
  intros [= H]. apply find_some in H as [H _]. now apply in_rev.
Qed.

Lemma resolved_blocked toEmail w c :
  fst (resolveCustomer env toEmail w) = Ok (Some c) ->
  In (Js.toLowerCase (safeStr (status c))) blockingStatuses ->
  blockedOf (Some c) = true.
Proof.
  intros Hres Hst. apply resolveCustomer_some, readCustomers_normal in Hres.
  destruct Hres as (Ht & Hid & Hs).
  unfold blockedOf, customerIdOf, billingStatusOf. rewrite Hid, Ht. simpl.
  rewrite <- Hs in Hst. rewrite Hs in Hst at 1.
  rewrite <- Hs in Hst. apply blocking_status_blocks in Hst as [reason ->]. reflexivity.
Qed.

Lemma aiStage_blocked args m docType text tooLarge rubric w :
  blockedOf m = true ->
  aiStage env args m docType text tooLarge rubric w = (Ok (AiSkip billing_block), w).
Proof. intros H. unfold aiStage, tryCatch. now rewrite H. Qed.

Lemma tallyStage_blocked args m docType ai w :
  blockedOf m = true ->
  exists s r, tallyStage env args m docType ai w = (Ok (TallyBillingBlock s r), w).
Proof. intros H. unfold tallyStage, tryCatch. cbv zeta. rewrite H. eauto. Qed.

End Billing.

(** C3. When the resolved tenant's billing status is one of
    trial_ended, past_due, canceled or unpaid, in any letter case, the run
    makes no scoring call, changes nothing in the ledger and sends no
    message, whatever the category of the document, and still writes its
    audit record. *)
Theorem blocked_tenant_short_circuits env args w c :
  fst (resolveCustomer env (toEmailOf args) w) = Ok (Some c) ->
  In (Js.toLowerCase (safeStr (status c))) blockingStatuses ->
  scoreCalls (snd (processInboundDoc env args w)) = scoreCalls w
  /\ ledger (snd (processInboundDoc env args w)) = ledger w
  /\ emailsAttempted (snd (processInboundDoc env args w)) = emailsAttempted w
  /\ auditInserts (snd (processInboundDoc env args w)) = auditInserts w + 1
  /\ exists res,
       fst (processInboundDoc env args w) = Ok res
       /\ resBlocked res = true
       /\ resAi res = AiSkip billing_block
       /\ didIncrement (resTally res) = false.
Proof.
  intros Hres Hst.
  destruct (processInboundDoc_stages env args w)
    as (raw & m & rubric & ai & tally & w1 & w2 & w3 & w4 & w5 & w6 & H).
  cbv zeta in H. destruct H as (Hraw & Hm & Hr & Hai & Ht & Hau & Hem & Hrun).
  rewrite Hm in Hres. simpl in Hres. injection Hres as ->.
  pose proof (resolved_blocked env (toEmailOf args) w c) as Hb.
  rewrite Hm in Hb. specialize (Hb eq_refl Hst).
  rewrite (aiStage_blocked env) in Hai by exact Hb. injection Hai as <- <-.
  destruct (tallyStage_blocked env args (Some c)
              (docTypeOf args (capExtracted env raw)) (AiSkip billing_block) w2 Hb)
    as (s & r & Ht').
  rewrite Ht' in Ht. injection Ht as <- <-.
  rewrite emailStage_without_increment in Hem by reflexivity. injection Hem as <-.
  destruct (auditStage_run env args (Some c) (toEmailOf args)
              (docTypeOf args (capExtracted env raw)) (capExtracted env raw)
              (AiSkip billing_block) w2) as [record Hrec].
  rewrite Hau in Hrec. injection Hrec as ->.
  pose proof (resolveCustomer_readOnly env (toEmailOf args) w) as R1.
  rewrite Hm in R1.
  pose proof (getCustomerRubric_readOnly env (customerIdOf (Some c)) w1) as R2.
  rewrite Hr in R2. simpl in R1, R2.
  rewrite Hrun. simpl.
  unfold scoreCalls, emailsAttempted, auditInserts.
  rewrite !countEvents_recorded. simpl.
  assert (C1 : forall p, p DirectoryRead = false -> countEvents p w1 = countEvents p w).
  { intros p Hp. eapply readOnly_count; [|exact R1]. now intros ev ->. }
  assert (C2 : forall p, p (RubricQuery (customerIdOf (Some c))) = false ->
                         countEvents p w2 = countEvents p w1).
  { intros p Hp. eapply readOnly_count; [|exact R2]. now intros ev ->. }
  rewrite !C2, !C1 by reflexivity.
  destruct R1 as [L1 _], R2 as [L2 _]. unfold SameLedger in *.
  repeat split; try lia; try congruence.
  eexists. split; [reflexivity|]. simpl. now rewrite Hb.
Qed.

Lemma blocked_tenant_short_circuits_witness :
  scoreCalls (snd (processInboundDoc (Sample.env "Past_Due" Sample.noFaults)
                     (Sample.args (Some Sample.resumeText) None)
                     (Sample.world [])))
  = 0.
Proof.
  pose proof (blocked_tenant_short_circuits
                (Sample.env "Past_Due" Sample.noFaults)
                (Sample.args (Some Sample.resumeText) None)
                (Sample.world []) (Sample.acme "Past_Due")) as H.
  destruct H as [H _].
  - vm_compute. reflexivity.
  - vm_compute. right. left. reflexivity.
  - exact H.
Defined.

(** ** Ledger engine: run equations *)

Section LedgerRuns.

Context (env : Env).

Lemma findIndex_Some {A} (p : A -> bool) (l : list A) i :
  findIndex p l = Some i -> exists x, l !! i = Some x /\ p x = true.
Proof.
  revert i. induction l as [|a l IH]; intros i; simpl; [discriminate|].
  destruct (p a) eqn:Hp.
  - intros [= <-]. eauto.
  - destruct (findIndex p l) as [j|]; simpl; [|discriminate].
    intros [= <-]. simpl. now apply IH.
Qed.

Lemma window_nonempty {A} n (l : list A) x :
  0 < n ->
  0 < length (take n (l ++ [x])) /\ length (take n (l ++ [x])) <= length (l ++ [x]).
Proof. intros Hn. rewrite length_take, length_app. cbn [length]. lia. Qed.

Lemma sheetsGetRows_run sheet w :
  sheetsGetRows env sheet w
  = if remoteFails env (calls w) (SheetsGetRows sheet)
    then (Throw "remote_call_failed", recorded (SheetsGetRows sheet) w)
    else match ledger w !! sheet with
         | Some rows => (Ok (take 999 rows), recorded (SheetsGetRows sheet) w)
         | None => (Throw "spreadsheet_not_found", recorded (SheetsGetRows sheet) w)
         end.
Proof.
  unfold sheetsGetRows, bind, issue, readLedger, ret, recorded.
  destruct (remoteFails env (calls w) (SheetsGetRows sheet)); [done|]. simpl.
  now destruct (ledger w !! sheet).
Qed.

Lemma sheetsGetTokens_run site sheet rowNumber w :
  sheetsGetTokens env site sheet rowNumber w
  = if remoteFails env (calls w) (SheetsGetTokens site sheet rowNumber)
    then (Throw "remote_call_failed", recorded (SheetsGetTokens site sheet rowNumber) w)
    else match ledger w !! sheet with
         | Some rows =>
             (Ok (tokensAt rows rowNumber),
              recorded (SheetsGetTokens site sheet rowNumber) w)
         | None => (Throw "spreadsheet_not_found",
                    recorded (SheetsGetTokens site sheet rowNumber) w)
         end.
Proof.
  unfold sheetsGetTokens, bind, issue, readLedger, ret, recorded, tokensAt.
  destruct (remoteFails env (calls w) _); [done|]. simpl.
  now destruct (ledger w !! sheet).
Qed.

Lemma sheetsUpdate_run sheet rowNumber wr w :
  sheetsUpdate env sheet rowNumber wr w
  = if remoteFails env (calls w) (SheetsUpdate sheet rowNumber wr)
    then (Throw "remote_call_failed", recorded (SheetsUpdate sheet rowNumber wr) w)
    else match ledger w !! sheet with
         | Some rows =>
             (Ok tt, stored sheet (updated rowNumber wr rows)
                       (recorded (SheetsUpdate sheet rowNumber wr) w))
         | None => (Throw "spreadsheet_not_found",
                    recorded (SheetsUpdate sheet rowNumber wr) w)
         end.
Proof.
  unfold sheetsUpdate, bind, issue, writeLedger, ret, recorded, stored, updated.
  destruct (remoteFails env (calls w) _); [done|]. simpl.
  now destruct (ledger w !! sheet).
Qed.

Lemma sheetsAppend_run sheet r w :
  sheetsAppend env sheet r w
  = if remoteFails env (calls w) (SheetsAppend sheet r)
    then (Throw "remote_call_failed", recorded (SheetsAppend sheet r) w)
    else match ledger w !! sheet with
         | Some rows =>
             (Ok tt, stored sheet (rows ++ [r]) (recorded (SheetsAppend sheet r) w))
         | None => (Throw "spreadsheet_not_found", recorded (SheetsAppend sheet r) w)
         end.
Proof.
  unfold sheetsAppend, bind, issue, writeLedger, ret, recorded, stored.
  destruct (remoteFails env (calls w) _); [done|]. simpl.
  now destruct (ledger w !! sheet).
Qed.

Lemma share_run sheet w :
  exists ws,
    shareBeforeAccess env sheet w = (Ok tt, ws)
    /\ ReadOnly (fun ev => shareCall ev = true) w ws.
Proof.
  destruct (Total_run _ w (share_total env sheet)) as [[] Hs].
  eexists. split; [exact Hs|]. apply share_readOnly.
Qed.

(** The day row found by [ensureTodayTallyRow] in a sheet that has one
    within its first 999 rows: nothing is appended. *)
Lemma ensure_existing sheet today customer w rows i :
  ledger w !! sheet = Some rows ->
  findIndex (isToday today) (take 999 rows) = Some i ->
  exists ws r,
    ReadOnly (fun ev => shareCall ev = true) w ws
    /\ rows !! i = Some r
    /\ isToday today r = true
    /\ ensureTodayTallyRow env sheet today customer w
       = if remoteFails env (calls ws) (SheetsGetRows sheet)
         then (Throw "remote_call_failed", recorded (SheetsGetRows sheet) ws)
         else (Ok {| rowIndex0 := Z.of_nat i;
                     currentCount := rowCount r;
                     currentNotes := safeStr (rowNotes r) |},
               recorded (SheetsGetRows sheet) ws).
Proof.
  intros Hl Hf.
  destruct (share_run sheet w) as (ws & Hs & HR).
  destruct (findIndex_Some _ _ _ Hf) as (r & Hr & Hp).
  exists ws, r. split; [exact HR|].
  split; [now apply lookup_take_Some in Hr as [? _]|]. split; [exact Hp|].
  unfold ensureTodayTallyRow, bind. rewrite Hs, sheetsGetRows_run.
  destruct (remoteFails env (calls ws) (SheetsGetRows sheet)); [done|].
  destruct HR as [HL _]. unfold SameLedger in HL. rewrite HL, Hl, Hf, Hr.
  reflexivity.
Qed.

(** What [ensureTodayTallyRow] leaves behind when it returns: the sheet
    holds a row for the day, the row it points at exists, and the ledger is
    the one it started from, but for an appended fresh row. *)
Lemma ensure_returns sheet today customer w row w' :
  ensureTodayTallyRow env sheet today customer w = (Ok row, w') ->
  exists rows rows',
    ledger w !! sheet = Some rows
    /\ ledger w' = <[sheet := rows']> (ledger w)
    /\ (rows' = rows \/ rows' = rows ++ [freshRow today customer])
    /\ (0 <= rowIndex0 row)%Z
    /\ Z.to_nat (rowIndex0 row) < length rows'
    /\ (exists r, r ∈ rows' /\ (isToday today r = true \/ r = freshRow today customer)).
Proof.
  destruct (share_run sheet w) as (ws & Hs & [HL _]). unfold SameLedger in HL.
  unfold ensureTodayTallyRow, bind. rewrite Hs, sheetsGetRows_run.
  destruct (remoteFails env (calls ws) (SheetsGetRows sheet)); [discriminate|].
  rewrite HL. destruct (ledger w !! sheet) as [rows|] eqn:Hl; [|discriminate].
  destruct (findIndex (isToday today) (take 999 rows)) as [i|] eqn:Hf.
  - intros [= <- <-]. simpl. exists rows, rows.
    destruct (findIndex_Some _ _ _ Hf) as (r & Hr & Hp).
    apply lookup_take_Some in Hr as [Hr _].
    split; [done|]. split; [now rewrite HL, insert_id|]. split; [now left|].
    split; [lia|]. rewrite Nat2Z.id. split; [now apply lookup_lt_Some in Hr|].
    exists r. split; [|now left]. eapply list_elem_of_lookup_2; eauto.
  - rewrite sheetsAppend_run.
    destruct (remoteFails env _ (SheetsAppend _ _)); [discriminate|].
    simpl. rewrite HL, Hl. rewrite sheetsGetRows_run.
    destruct (remoteFails env _ (SheetsGetRows _)); [discriminate|].
    simpl. rewrite lookup_insert_eq.
    intros [= <- <-]. simpl. exists rows, (rows ++ [freshRow today customer]).
    split; [done|]. split; [now rewrite HL|]. split; [now right|].
    destruct (findIndex (isToday today) (take 999 (rows ++ [freshRow today customer])))
      as [j|] eqn:Hj.
    + destruct (findIndex_Some _ _ _ Hj) as (r & Hr & Hp).
      apply lookup_take_Some in Hr as [Hr _].
      split; [lia|]. rewrite Nat2Z.id. split; [now apply lookup_lt_Some in Hr|].
      exists (freshRow today customer). split; [|now right].
      apply elem_of_app. right. now apply list_elem_of_singleton.
    + pose proof (window_nonempty 999 rows (freshRow today customer)) as [Hlen Hle];
        [lia|].
      split; [lia|]. split; [lia|].
      * exists (freshRow today customer). split; [|now right].
        apply elem_of_app. right. now apply list_elem_of_singleton.
Qed.

End LedgerRuns.

(** ** NON_RESUME documents in the ledger engine: proofs *)

Section NonResume.

Context (env : Env).

#[global] Instance SameOn_preorder {X} (g : Row -> X) : PreOrder (SameOn g).
Proof.
  split; [intros w; reflexivity|].
  intros w1 w2 w3 H1 H2. unfold SameOn in *. congruence.
Qed.

Lemma map_alter_invariant {X} (g : Row -> X) (f : Row -> Row) i (l : list Row) :
  (forall x, g (f x) = g x) -> map g (alter f i l) = map g l.
Proof.
  intros Hg. revert i. induction l as [|a l IH]; intros [|i]; simpl; [done|done| |].
  - now rewrite Hg.
  - f_equal. apply IH.
Qed.

Lemma stored_sameOn {X} (g : Row -> X) sheet rows rows' w :
  ledger w !! sheet = Some rows ->
  map g rows' = map g rows ->
  SameOn g w (stored sheet rows' w).
Proof.
  intros Hl Hg. unfold SameOn, stored. simpl.
  rewrite fmap_insert, Hg. apply insert_id. now rewrite lookup_fmap, Hl.
Qed.

Lemma recorded_sameOn {X} (g : Row -> X) ev w : SameOn g w (recorded ev w).
Proof. reflexivity. Qed.

Lemma sameOn_sheetsUpdate {X} (g : Row -> X) sheet rowNumber wr :
  (forall r, g (applyWrite wr r) = g r) ->
  Keeps (SameOn g) (sheetsUpdate env sheet rowNumber wr).
Proof.
  intros Hg. unfold sheetsUpdate.
  apply keeps_bind; [typeclasses eauto| |intros _].
  - apply keeps_issue. intros w. apply recorded_sameOn.
  - apply keeps_writeLedger; [typeclasses eauto|]. intros w rows Hl.
    apply stored_sameOn with rows; [exact Hl|]. unfold updated.
    destruct (dataIndex rowNumber); [|done]. now apply map_alter_invariant.
Qed.

Lemma appendNote_lists_note existing (src : Source) :
  Js.arrIncludes (splitTrim (appendNote existing (sourceName src +:+ ":NON_RESUME")))
                 (sourceName src +:+ ":NON_RESUME") = true.
Proof.
  unfold appendNote. cbv zeta.
  destruct (negb (Js.truthy (safeStr existing))); [now destruct src|].
  destruct (Js.arrIncludes (splitTrim (safeStr existing)) _) eqn:Hin; [exact Hin|].
  unfold splitTrim.
  change (safeStr existing +:+ ", " +:+ sourceName src +:+ ":NON_RESUME")
    with (safeStr existing +:+ String "," (" " +:+ sourceName src +:+ ":NON_RESUME")).
  rewrite splitComma_app, map_app.
  unfold Js.arrIncludes. rewrite existsb_app.
  apply orb_true_iff. right. now destruct src.
Qed.

Lemma tallyApply_non_resume_run sheet customer source key token ai w :
  tallyApply env sheet customer NON_RESUME source key token ai w
  = match ensureTodayTallyRow env sheet (today env) customer w with
    | (Ok row, w1) =>
        let nextNotes := appendNote (cleanNotes (currentNotes row))
                           (noteFor NON_RESUME source) in
        (sheetsUpdate env sheet (rowIndex0 row + 2) (WCount (currentCount row)) ;;;
         sheetsUpdate env sheet (rowIndex0 row + 2) (WNotes nextNotes) ;;;
         sheetsUpdate env sheet (rowIndex0 row + 2) (WCustomer customer) ;;;
         ret {| tallyToday := today env; nextCount := currentCount row;
                nextNotes := nextNotes; shouldIncrement := false |})%pipeline w1
    | (Throw e, w1) => (Throw e, w1)
    end.
Proof.
  unfold tallyApply. cbv zeta. unfold bind at 1.
  destruct (ensureTodayTallyRow env sheet (today env) customer w) as [[row|e] w1];
    [|reflexivity].
  unfold bind, ret. simpl.
  destruct (sheetsUpdate env sheet (rowIndex0 row + 2) (WCount (currentCount row)) w1)
    as [[[]|e1] w2]; [|reflexivity].
  destruct (sheetsUpdate env sheet (rowIndex0 row + 2) (WNotes _) w2)
    as [[[]|e2] w3]; [|reflexivity].
  destruct (sheetsUpdate env sheet (rowIndex0 row + 2) (WCustomer customer) w3)
    as [[[]|e3] w4]; reflexivity.
Qed.

End NonResume.

(** ** Duplicate submissions: proofs *)

Section Duplicates.

Context (env : Env).

Lemma dataIndex_of_row i : dataIndex (Z.of_nat i + 2) = Some i.
Proof.
  unfold dataIndex.
  destruct (2 <=? Z.of_nat i + 2)%Z eqn:H; [|apply Z.leb_gt in H; lia].
  f_equal. lia.
Qed.

Lemma tokensAt_row rows i r :
  rows !! i = Some r -> tokensAt rows (Z.of_nat i + 2) = rowTokens r.
Proof. intros H. unfold tokensAt. now rewrite dataIndex_of_row, H. Qed.

Lemma listed_token_truthy csv token :
  tokenListed csv token = true -> Js.truthy token = true.
Proof.
  unfold tokenListed, csvTokens, Js.arrIncludes.
  destruct (Js.truthy csv); [|discriminate].
  intros H. apply existsb_exists in H as (x & Hx & He).
  apply String.eqb_eq in He as ->.
  now apply List.filter_In in Hx as [_ Hx].
Qed.

Lemma Counted_same_ledger sheet token w w' i r :
  ledger w' = ledger w -> Counted env sheet token w i r -> Counted env sheet token w' i r.
Proof. intros E (rows & H). exists rows. now rewrite E. Qed.

Lemma readOnly_trans_recorded (P : Event -> Prop) ev w ws :
  ReadOnly (fun e => shareCall e = true) w ws ->
  (forall e, shareCall e = true -> P e) -> P ev ->
  ReadOnly P w (recorded ev ws).
Proof.
  intros [HL HI] HP Hev. split; [exact HL|].
  eapply Issues_trans; [eapply Issues_mono; [|exact HI]; exact HP|].
  now apply recorded_issues.
Qed.

(** A RESUME whose token is listed: [tallyApply] reads, writes nothing
    and reports no increment, as long as its token check can read. *)
Lemma tallyApply_duplicate sheet customer source key token ai w i r :
  Counted env sheet token w i r ->
  (forall n s rn, remoteFails env n (SheetsGetTokens TokenCheck s rn) = false) ->
  exists o w',
    tallyApply env sheet customer RESUME source key token ai w = (o, w')
    /\ ReadOnly (fun ev => ledgerRead ev = true) w w'
    /\ ((exists e, o = Throw e)
        \/ o = Ok {| tallyToday := today env;
                     nextCount := rowCount r;
                     nextNotes := appendNote (cleanNotes (safeStr (rowNotes r)))
                                    (noteFor RESUME source);
                     shouldIncrement := false |})
    /\ ((forall n s, remoteFails env n (SheetsGetRows s) = false) -> isOk o = true).
Proof.
  intros (rows & Hl & Hf & Hr & Hlisted) Hread.
  destruct (ensure_existing env sheet (today env) customer w rows i Hl Hf)
    as (ws & r' & HR & Hr' & _ & Hens).
  rewrite Hr in Hr'. injection Hr' as <-.
  pose proof (listed_token_truthy _ _ Hlisted) as Htruthy.
  unfold tallyApply. cbv zeta. unfold bind at 1. rewrite Hens.
  destruct (remoteFails env (calls ws) (SheetsGetRows sheet)) eqn:Hfault.
  - eexists _, _. split; [reflexivity|]. split; [|split].
    + apply readOnly_trans_recorded; [exact HR| |reflexivity].
      intros e He. now destruct e.
    + left. eauto.
    + intros Hrows. now rewrite Hrows in Hfault.
  - simpl. rewrite Htruthy. simpl.
    unfold bind at 1, tokenAlreadyRecorded, tryCatch, bind at 1.
    rewrite sheetsGetTokens_run, Hread. simpl.
    destruct HR as [HL HI]. unfold SameLedger in HL. rewrite HL, Hl.
    rewrite (tokensAt_row rows i r Hr). unfold ret at 1. rewrite Hlisted.
    eexists _, _. split; [reflexivity|]. split; [|split].
    + split; [exact HL|].
      eapply Issues_trans;
        [eapply Issues_mono; [|exact HI]; intros e He; now destruct e|].
      eapply Issues_trans; apply recorded_issues; reflexivity.
    + right. reflexivity.
    + reflexivity.
Qed.

(** A document that is not a RESUME, in a sheet that has the day row:
    the count column is rewritten with what it held. *)
Lemma tallyApply_non_resume_existing sheet customer source key token ai w rows i r :
  ledger w !! sheet = Some rows ->
  findIndex (isToday (today env)) (take 999 rows) = Some i ->
  rows !! i = Some r ->
  SameOn rowCount w
    (snd (tallyApply env sheet customer NON_RESUME source key token ai w))
  /\ forall res,
       fst (tallyApply env sheet customer NON_RESUME source key token ai w) = Ok res ->
       shouldIncrement res = false.
Proof.
  intros Hl Hf Hr.
  destruct (ensure_existing env sheet (today env) customer w rows i Hl Hf)
    as (ws & r' & [HL _] & Hr' & _ & Hens).
  rewrite Hr in Hr'. injection Hr' as <-. unfold SameLedger in HL.
  rewrite tallyApply_non_resume_run, Hens.
  destruct (remoteFails env (calls ws) (SheetsGetRows sheet)).
  { split; [|discriminate]. unfold SameOn. simpl. now rewrite HL. }
  cbv zeta. unfold bind, ret. rewrite sheetsUpdate_run. cbn [rowIndex0 currentCount].
  destruct (remoteFails env _ (SheetsUpdate _ _ _)).
  { split; [|discriminate]. unfold SameOn. simpl. now rewrite HL. }
  cbn [ledger recorded]. rewrite HL, Hl.
  match goal with
  | |- context [stored sheet ?x ?y] => set (w2 := stored sheet x y)
  end.
  assert (S2 : SameOn rowCount w w2).
  { unfold SameOn, w2, stored, recorded. simpl. rewrite HL, fmap_insert.
    apply insert_id. rewrite lookup_fmap, Hl. simpl. f_equal.
    unfold updated. rewrite dataIndex_of_row.
    clear -Hr. revert i Hr. induction rows as [|a l IH]; intros [|i] Hr; simpl in *;
      try discriminate.
    - now injection Hr as ->.
    - f_equal. now apply IH. }
  match goal with
  | |- context [sheetsUpdate env sheet ?rn (WNotes ?n) w2] =>
      pose proof (sameOn_sheetsUpdate env rowCount sheet rn (WNotes n)
                    ltac:(now intros []) w2) as K2;
      destruct (sheetsUpdate env sheet rn (WNotes n) w2) as [[[]|e2] w3]
  end; simpl in K2.
  2:{ split; [etransitivity; eauto|discriminate]. }
  match goal with
  | |- context [sheetsUpdate env sheet ?rn (WCustomer ?c) w3] =>
      pose proof (sameOn_sheetsUpdate env rowCount sheet rn (WCustomer c)
                    ltac:(now intros []) w3) as K3;
      destruct (sheetsUpdate env sheet rn (WCustomer c) w3) as [[[]|e3] w4]
  end; simpl in K3.
  2:{ split; [etransitivity; [exact S2|etransitivity; eauto]|discriminate]. }
  simpl. split; [etransitivity; [exact S2|etransitivity; eauto]|].
  now intros res [= <-].
Qed.

(** The scoring pre-check in a sheet that has the day row changes no
    cell. *)
Lemma alreadyProcessedToday_existing sheet customer token w rows i :
  ledger w !! sheet = Some rows ->
  findIndex (isToday (today env)) (take 999 rows) = Some i ->
  ledger (snd (alreadyProcessedToday env sheet customer token w)) = ledger w.
Proof.
  intros Hl Hf.
  destruct (ensure_existing env sheet (today env) customer w rows i Hl Hf)
    as (ws & r & [HL _] & _ & _ & Hens).
  unfold SameLedger in HL.
  unfold alreadyProcessedToday, tryCatch.
  destruct (_ && _); [|reflexivity].
  unfold bind at 1. rewrite Hens.
  destruct (remoteFails env (calls ws) (SheetsGetRows sheet)); [exact HL|].
  unfold bind at 1. rewrite sheetsGetTokens_run.
  destruct (remoteFails env _ (SheetsGetTokens _ _ _)); [exact HL|].
  simpl. rewrite HL, Hl. exact HL.
Qed.

End Duplicates.

Section DuplicateRuns.

Context (env : Env).

Lemma safeScoreResume_readOnly text rubric :
  Keeps (ReadOnly (fun ev => ev = ScoreCall text rubric)) (safeScoreResume env text rubric).
Proof.
  unfold safeScoreResume.
  apply keeps_bind; [typeclasses eauto| |intros _].
  - apply keeps_issue. intros w. now apply recorded_readOnly.
  - destruct rubric as [block|]; [destruct (Js.truthy block)|];
      apply keeps_ret; typeclasses eauto.
Qed.

Lemma aiStage_existing args m docType text tooLarge rubric w rows i :
  ledger w !! sheetIdOf m = Some rows ->
  findIndex (isToday (today env)) (take 999 rows) = Some i ->
  ledger (snd (aiStage env args m docType text tooLarge rubric w)) = ledger w.
Proof.
  intros Hl Hf. unfold aiStage, tryCatch.
  destruct (blockedOf m); [reflexivity|].
  destruct (_ && _); [|reflexivity].
  destruct tooLarge; [reflexivity|].
  unfold bind at 1.
  pose proof (alreadyProcessedToday_existing env (sheetIdOf m) (customerIdOf m)
                (docTokenOf env args) w rows i Hl Hf) as HA.
  destruct (alreadyProcessedToday env (sheetIdOf m) (customerIdOf m)
              (docTokenOf env args) w) as [[already|e] w1]; simpl in HA; [|exact HA].
  destruct (_ && _); [|exact HA].
  destruct already; [exact HA|].
  cbv zeta. unfold bind.
  match goal with
  | |- context [safeScoreResume env ?t ?r w1] =>
      pose proof (safeScoreResume_readOnly t r w1) as [HS _];
      destruct (safeScoreResume env t r w1) as [[reply|e] w2]
  end; simpl in *; unfold SameLedger in HS; congruence.
Qed.

Lemma tallyStage_duplicate args m docType ai w i r :
  Counted env (sheetIdOf m) (docTokenOf env args) w i r ->
  (forall n s rn, remoteFails env n (SheetsGetTokens TokenCheck s rn) = false) ->
  SameOn rowCount w (snd (tallyStage env args m docType ai w))
  /\ forall t, fst (tallyStage env args m docType ai w) = Ok t -> didIncrement t = false.
Proof.
  intros HC Hread. unfold tallyStage, tryCatch. cbv zeta.
  destruct (blockedOf m); [split; [reflexivity|now intros t [= <-]]|].
  destruct (_ && _); [split; [reflexivity|now intros t [= <-]]|].
  destruct (_ && _); [|split; [reflexivity|now intros t [= <-]]].
  unfold bind, ret. destruct docType.
  - destruct (tallyApply_duplicate env (sheetIdOf m) (customerIdOf m)
                (sourceName (argSource args)) (safeStr (orEmptyDoc (argR2 args)))
                (docTokenOf env args) ai w i r HC Hread)
      as (o & w' & Hrun & [HL _] & Ho & _).
    rewrite Hrun. unfold SameLedger in HL.
    destruct Ho as [[e ->]| ->]; simpl.
    + split; [unfold SameOn; now rewrite HL|now intros t [= <-]].
    + split; [unfold SameOn; now rewrite HL|now intros t [= <-]].
  - destruct HC as (rows & Hl & Hf & Hr & _).
    destruct (tallyApply_non_resume_existing env (sheetIdOf m) (customerIdOf m)
                (sourceName (argSource args)) (safeStr (orEmptyDoc (argR2 args)))
                (docTokenOf env args) ai w rows i r Hl Hf Hr) as [HS Hres].
    destruct (tallyApply env (sheetIdOf m) (customerIdOf m) NON_RESUME _ _ _ ai w)
      as [[res|e] w']; simpl in *.
    + split; [exact HS|]. intros t [= <-]. simpl. now apply Hres.
    + split; [exact HS|now intros t [= <-]].
Qed.

(** The stages before the dispatch send nothing. *)
Lemma emails_before_dispatch args w raw m rubric ai tally w1 w2 w3 w4 w5 :
  resolveCustomer env (toEmailOf args) w = (Ok m, w1) ->
  getCustomerRubric env (customerIdOf m) w1 = (Ok rubric, w2) ->
  aiStage env args m (docTypeOf args (capExtracted env raw)) (capExtracted env raw)
    (extractedTooLargeOf env raw) rubric w2 = (Ok ai, w3) ->
  tallyStage env args m (docTypeOf args (capExtracted env raw)) ai w3 = (Ok tally, w4) ->
  auditStage env args m (toEmailOf args) (docTypeOf args (capExtracted env raw))
    (capExtracted env raw) ai w4 = (Ok tt, w5) ->
  emailsAttempted w5 = emailsAttempted w.
Proof.
  intros Hm Hr Hai Ht Hau.
  assert (E1 : emailsAttempted w1 = emailsAttempted w).
  { pose proof (resolveCustomer_readOnly env (toEmailOf args) w) as H.
    rewrite Hm in H. eapply readOnly_count; [|exact H]. now intros ev ->. }
  assert (E2 : emailsAttempted w2 = emailsAttempted w1).
  { pose proof (getCustomerRubric_readOnly env (customerIdOf m) w1) as H.
    rewrite Hr in H. eapply readOnly_count; [|exact H]. now intros ev ->. }
  assert (E4 : emailsAttempted w4 = emailsAttempted w2)
    by (eapply no_email_before_dispatch; eauto).
  destruct (auditStage_run env args m (toEmailOf args)
              (docTypeOf args (capExtracted env raw)) (capExtracted env raw) ai w4)
    as [record Hrec].
  rewrite Hau in Hrec. injection Hrec as ->.
  unfold emailsAttempted in *. rewrite countEvents_recorded. simpl. lia.
Qed.

End DuplicateRuns.

(** C1, as stated, fails twice. When the read of the token-set cell in
    [tallyApply] throws, a document whose token is listed is counted again
    and a message goes out; and for a document that is not a RESUME,
    [tallyApply] does write cells although the token is listed. *)
Lemma duplicate_counted_again_when_token_read_fails :
  tokenListed (safeStr (rowTokens Sample.countedRow))
    (docTokenOf (Sample.env "active" Sample.duplicateChecksFail)
       (Sample.args (Some Sample.resumeText) None)) = true
  /\ counts (Sample.world [Sample.countedRow]) !! "sheet-acme" = Some [1%Z]
  /\ counts (snd (processInboundDoc (Sample.env "active" Sample.duplicateChecksFail)
                    (Sample.args (Some Sample.resumeText) None)
                    (Sample.world [Sample.countedRow]))) !! "sheet-acme" = Some [2%Z]
  /\ emailsAttempted
       (snd (processInboundDoc (Sample.env "active" Sample.duplicateChecksFail)
               (Sample.args (Some Sample.resumeText) None)
               (Sample.world [Sample.countedRow]))) = 1
  /\ countEvents isCellUpdate
       (snd (tallyApply (Sample.env "active" Sample.noFaults) "sheet-acme" "cust_acme"
               NON_RESUME "resend" "inbound/k2" "hash:doc" (AiSkip non_resume)
               (Sample.world [Sample.countedRow]))) = 3.
Proof. repeat split; vm_compute; reflexivity. Qed.

(** C1, amended. Let the day row of the tenant's sheet list the
    document's token, and let the token-set read of [tallyApply]'s
    duplicate check not throw. Then [tallyApply] on a RESUME writes no cell,
    and returns, unless its read of the day rows throws, the unchanged count
    with [shouldIncrement = false]; and [processInboundDoc], for a document
    of either category, leaves every count as it was, reports no confirmed
    increment and sends no message. *)
Theorem duplicate_not_counted_when_check_reads env args w c i r :
  fst (resolveCustomer env (toEmailOf args) w) = Ok (Some c) ->
  Counted env (sheetIdOf (Some c)) (docTokenOf env args) w i r ->
  (forall n s rn, remoteFails env n (SheetsGetTokens TokenCheck s rn) = false) ->
  (forall source key ai,
      ledger (snd (tallyApply env (sheetIdOf (Some c)) (customerIdOf (Some c)) RESUME
                     source key (docTokenOf env args) ai w)) = ledger w
      /\ countEvents isLedgerWrite
           (snd (tallyApply env (sheetIdOf (Some c)) (customerIdOf (Some c)) RESUME
                   source key (docTokenOf env args) ai w))
         = countEvents isLedgerWrite w
      /\ (forall res,
            fst (tallyApply env (sheetIdOf (Some c)) (customerIdOf (Some c)) RESUME
                   source key (docTokenOf env args) ai w) = Ok res ->
            nextCount res = rowCount r /\ shouldIncrement res = false)
      /\ ((forall n s, remoteFails env n (SheetsGetRows s) = false) ->
          isOk (fst (tallyApply env (sheetIdOf (Some c)) (customerIdOf (Some c)) RESUME
                       source key (docTokenOf env args) ai w)) = true))
  /\ counts (snd (processInboundDoc env args w)) = counts w
  /\ emailsAttempted (snd (processInboundDoc env args w)) = emailsAttempted w
  /\ exists res,
       fst (processInboundDoc env args w) = Ok res
       /\ didIncrement (resTally res) = false.
Proof.
  intros Hres HC Hread. split.
  { intros source key ai.
    destruct (tallyApply_duplicate env (sheetIdOf (Some c)) (customerIdOf (Some c))
                source key (docTokenOf env args) ai w i r HC Hread)
      as (o & w' & Hrun & [HL HI] & Ho & Hok).
    rewrite Hrun. simpl. split; [exact HL|]. split; [|split].
    - apply Silent_count. eapply Issues_silent; [|exact HI].
      intros ev Hev. now destruct ev.
    - intros res ->. destruct Ho as [[e He]|He]; [discriminate|].
      now injection He as ->.
    - exact Hok. }
  destruct (processInboundDoc_stages env args w)
    as (raw & m & rubric & ai & tally & w1 & w2 & w3 & w4 & w5 & w6 & H).
  cbv zeta in H. destruct H as (Hraw & Hm & Hr & Hai & Ht & Hau & Hem & Hrun).
  rewrite Hm in Hres. simpl in Hres. injection Hres as ->.
  pose proof (resolveCustomer_readOnly env (toEmailOf args) w) as [L1 _].
  rewrite Hm in L1.
  pose proof (getCustomerRubric_readOnly env (customerIdOf (Some c)) w1) as [L2 _].
  rewrite Hr in L2. simpl in L1, L2. unfold SameLedger in *.
  assert (HC2 : Counted env (sheetIdOf (Some c)) (docTokenOf env args) w2 i r).
  { eapply Counted_same_ledger; [|exact HC]. congruence. }
  assert (L3 : ledger w3 = ledger w2).
  { destruct HC2 as (rows & Hl & Hf & _).
    pose proof (aiStage_existing env args (Some c)
                  (docTypeOf args (capExtracted env raw)) (capExtracted env raw)
                  (extractedTooLargeOf env raw) rubric w2 rows i Hl Hf) as H.
    now rewrite Hai in H. }
  assert (HC3 : Counted env (sheetIdOf (Some c)) (docTokenOf env args) w3 i r)
    by (eapply Counted_same_ledger; eauto).
  destruct (tallyStage_duplicate env args (Some c)
              (docTypeOf args (capExtracted env raw)) ai w3 i r HC3 Hread) as [S4 D4].
  rewrite Ht in S4, D4. simpl in S4. specialize (D4 tally eq_refl).
  pose proof (emails_before_dispatch env args w raw (Some c) rubric ai tally
                w1 w2 w3 w4 w5 Hm Hr Hai Ht Hau) as E5.
  rewrite emailStage_without_increment in Hem by exact D4. injection Hem as <-.
  destruct (auditStage_run env args (Some c) (toEmailOf args)
              (docTypeOf args (capExtracted env raw)) (capExtracted env raw) ai w4)
    as [record Hrec].
  rewrite Hau in Hrec. injection Hrec as Hw5.
  rewrite Hrun. simpl. split; [|split].
  - unfold counts. rewrite Hw5. simpl.
    unfold SameOn in S4. rewrite S4, L3, L2, L1. reflexivity.
  - exact E5.
  - eexists. split; [reflexivity|exact D4].
Qed.

Lemma duplicate_not_counted_when_check_reads_witness :
  counts (snd (processInboundDoc (Sample.env "active" Sample.noFaults)
                 (Sample.args (Some Sample.resumeText) None)
                 (Sample.world [Sample.countedRow])))
  = counts (Sample.world [Sample.countedRow])
  /\ emailsAttempted
       (snd (processInboundDoc (Sample.env "active" Sample.noFaults)
               (Sample.args (Some Sample.resumeText) None)
               (Sample.world [Sample.countedRow])))
     = emailsAttempted (Sample.world [Sample.countedRow]).
Proof.
  pose proof (duplicate_not_counted_when_check_reads
                (Sample.env "active" Sample.noFaults)
                (Sample.args (Some Sample.resumeText) None)
                (Sample.world [Sample.countedRow])
                (Sample.acme "active") 0 Sample.countedRow) as H.
  destruct H as (_ & H1 & H2 & _).
  - vm_compute. reflexivity.
  - exists [Sample.countedRow]. repeat split; vm_compute; reflexivity.
  - intros n s rn. reflexivity.
  - split; assumption.
Defined.

(** ** Failing duplicate checks: proofs *)

Section FailingChecks.

Context (env : Env).

Hypothesis schedule : forall n ev, remoteFails env n ev = duplicateCheckRead ev.

Lemma share_keeps_count sheet idx c w :
  CountIs sheet idx c w -> CountIs sheet idx c (snd (shareBeforeAccess env sheet w)).
Proof.
  intros (rows & r & H). destruct (share_run env sheet w) as (ws & Hs & [HL _]).
  rewrite Hs. simpl. exists rows, r. now rewrite HL.
Qed.

Lemma update_other_keeps_count sheet idx c rowNumber wr w :
  writeCol wr <> ColB ->
  CountIs sheet idx c w ->
  exists w',
    sheetsUpdate env sheet rowNumber wr w = (Ok tt, w') /\ CountIs sheet idx c w'.
Proof.
  intros Hcol (rows & r & Hl & Hr & Hc).
  rewrite sheetsUpdate_run, schedule. simpl. rewrite Hl.
  eexists. split; [reflexivity|]. unfold CountIs, stored, updated. simpl.
  rewrite lookup_insert_eq.
  destruct (dataIndex rowNumber) as [j|]; [|eauto].
  destruct (decide (j = idx)) as [->|Hne].
  - exists (alter (applyWrite wr) idx rows), (applyWrite wr r).
    split; [done|]. split.
    + rewrite list_lookup_alter_eq, Hr. reflexivity.
    + destruct wr; simpl in *; congruence.
  - exists (alter (applyWrite wr) j rows), r.
    split; [done|]. split; [|done].
    now rewrite list_lookup_alter_ne.
Qed.

Lemma dataIndex_of_index z : (0 <= z)%Z -> dataIndex (z + 2) = Some (Z.to_nat z).
Proof.
  intros Hz. unfold dataIndex.
  destruct (2 <=? z + 2)%Z eqn:H; [|apply Z.leb_gt in H; lia].
  f_equal. lia.
Qed.

Lemma update_count_sets_count sheet rowNumber idx n rows w :
  dataIndex rowNumber = Some idx ->
  ledger w !! sheet = Some rows ->
  idx < length rows ->
  exists w',
    sheetsUpdate env sheet rowNumber (WCount n) w = (Ok tt, w')
    /\ CountIs sheet idx n w'.
Proof.
  intros Hidx Hl Hlt.
  rewrite sheetsUpdate_run, schedule. simpl. rewrite Hl.
  eexists. split; [reflexivity|]. unfold CountIs, stored, updated. simpl.
  rewrite lookup_insert_eq, Hidx.
  destruct (lookup_lt_is_Some_2 rows idx Hlt) as [r Hr].
  exists (alter (applyWrite (WCount n)) idx rows), (applyWrite (WCount n) r).
  split; [done|]. split; [|done].
  rewrite list_lookup_alter_eq, Hr. reflexivity.
Qed.

Lemma merge_read_keeps_count sheet idx c rowNumber w :
  CountIs sheet idx c w ->
  exists g w',
    sheetsGetTokens env TokenMerge sheet rowNumber w = (Ok g, w')
    /\ CountIs sheet idx c w'.
Proof.
  intros (rows & r & Hl & Hr & Hc).
  rewrite sheetsGetTokens_run, schedule. simpl. rewrite Hl.
  eexists _, _. split; [reflexivity|]. exists rows, r. now simpl.
Qed.

Lemma recordPointerAndTokens_keeps_count sheet idx c rowNumber key token ai w :
  CountIs sheet idx c w ->
  exists w',
    recordPointerAndTokens env sheet rowNumber key token ai w = (Ok tt, w')
    /\ CountIs sheet idx c w'.
Proof.
  intros H0. unfold recordPointerAndTokens. cbv zeta. unfold bind.
  destruct (update_other_keeps_count sheet idx c rowNumber (WR2Key key) w
              ltac:(discriminate) H0) as (w1 & -> & H1).
  match goal with
  | |- context [sheetsUpdate env sheet rowNumber (WFile ?f) w1] =>
      destruct (update_other_keeps_count sheet idx c rowNumber (WFile f) w1
                  ltac:(discriminate) H1) as (w2 & -> & H2)
  end.
  destruct (merge_read_keeps_count sheet idx c rowNumber w2 H2) as (g & w3 & -> & H3).
  match goal with
  | |- context [sheetsUpdate env sheet rowNumber (WTokens ?t) w3] =>
      destruct (update_other_keeps_count sheet idx c rowNumber (WTokens t) w3
                  ltac:(discriminate) H3) as (w4 & -> & H4)
  end.
  destruct (aiScore ai) as [scoreNum|].
  - apply update_other_keeps_count; [discriminate|exact H4].
  - eexists. split; [reflexivity|exact H4].
Qed.

Lemma ensure_succeeds sheet customer rows w :
  ledger w !! sheet = Some rows ->
  exists row w1, ensureTodayTallyRow env sheet (today env) customer w = (Ok row, w1).
Proof.
  intros Hl.
  destruct (share_run env sheet w) as (ws & Hs & [HL _]). unfold SameLedger in HL.
  unfold ensureTodayTallyRow, bind. rewrite Hs, sheetsGetRows_run, schedule. simpl.
  rewrite HL, Hl.
  destruct (findIndex _ (take 999 rows)); [eauto|].
  rewrite sheetsAppend_run, schedule. simpl. rewrite HL, Hl.
  rewrite sheetsGetRows_run, schedule. simpl. rewrite lookup_insert_eq. eauto.
Qed.

Lemma tokenAlreadyRecorded_fails_open sheet rowNumber token w :
  tokenAlreadyRecorded env sheet rowNumber token w
  = (Ok false, recorded (SheetsGetTokens TokenCheck sheet rowNumber) w).
Proof.
  unfold tokenAlreadyRecorded, tryCatch, bind.
  rewrite sheetsGetTokens_run, schedule. reflexivity.
Qed.

Lemma precheck_fails_open sheet customer token w :
  fst (alreadyProcessedToday env sheet customer token w) = Ok false.
Proof.
  unfold alreadyProcessedToday, tryCatch.
  destruct (_ && _); [|reflexivity].
  unfold bind at 1.
  destruct (ensureTodayTallyRow env sheet (today env) customer w) as [[row|e] w1];
    [|reflexivity].
  unfold bind. rewrite sheetsGetTokens_run, schedule. reflexivity.
Qed.

Lemma tallyApply_counts_again sheet customer source key token ai rows w :
  ledger w !! sheet = Some rows ->
  Js.truthy token = true ->
  exists row w1 res w',
    ensureTodayTallyRow env sheet (today env) customer w = (Ok row, w1)
    /\ tallyApply env sheet customer RESUME source key token ai w = (Ok res, w')
    /\ shouldIncrement res = true
    /\ nextCount res = (currentCount row + 1)%Z
    /\ CountIs sheet (Z.to_nat (rowIndex0 row)) (currentCount row + 1) w'.
Proof.
  intros Hl Htok.
  destruct (ensure_succeeds sheet customer rows w Hl) as (row & w1 & Hens).
  destruct (ensure_returns env _ _ _ _ _ _ Hens)
    as (rows0 & rows1 & Hl0 & Hl1 & _ & Hnn & Hlt & _).
  exists row, w1.
  unfold tallyApply. cbv zeta. unfold bind at 1. rewrite Hens.
  simpl. rewrite Htok. unfold bind at 1. rewrite tokenAlreadyRecorded_fails_open.
  unfold bind at 1.
  assert (Hl1' : ledger (recorded (SheetsGetTokens TokenCheck sheet (rowIndex0 row + 2)) w1)
                 !! sheet = Some rows1).
  { simpl. rewrite Hl1. apply lookup_insert_eq. }
  destruct (update_count_sets_count sheet (rowIndex0 row + 2) (Z.to_nat (rowIndex0 row))
              (currentCount row + 1) rows1 _ (dataIndex_of_index _ Hnn) Hl1' Hlt)
    as (w2 & -> & H2).
  unfold bind at 1.
  match goal with
  | |- context [sheetsUpdate env sheet ?rn (WNotes ?t) w2] =>
      destruct (update_other_keeps_count sheet _ _ rn (WNotes t) w2
                  ltac:(discriminate) H2) as (w3 & -> & H3)
  end.
  unfold bind at 1.
  match goal with
  | |- context [sheetsUpdate env sheet ?rn (WCustomer ?t) w3] =>
      destruct (update_other_keeps_count sheet _ _ rn (WCustomer t) w3
                  ltac:(discriminate) H3) as (w4 & -> & H4)
  end.
  unfold bind at 1.
  destruct (Js.truthy key).
  - match goal with
    | |- context [recordPointerAndTokens env sheet ?rn key token ai w4] =>
        destruct (recordPointerAndTokens_keeps_count sheet _ _ rn key token ai w4 H4)
          as (w5 & -> & H5)
    end.
    eexists _, _. split; [reflexivity|]. split; [reflexivity|].
    split; [reflexivity|]. split; [reflexivity|exact H5].
  - eexists _, _. split; [reflexivity|]. split; [reflexivity|].
    split; [reflexivity|]. split; [reflexivity|exact H4].
Qed.

End FailingChecks.

(** C6. When the reads of the duplicate checks throw (and nothing else
    does), the pipeline proceeds as for a new document: [tallyApply] on a
    RESUME, whether or not its token is listed, returns
    [shouldIncrement = true] with the count read plus one and stores that
    count in the day row; and the scoring pre-check answers that the
    document was not processed today. *)
Theorem failed_token_read_counts_as_new
    env sheet customer source key token ai rows w :
  (forall n ev, remoteFails env n ev = duplicateCheckRead ev) ->
  ledger w !! sheet = Some rows ->
  Js.truthy token = true ->
  (exists row w1 res w',
      ensureTodayTallyRow env sheet (today env) customer w = (Ok row, w1)
      /\ tallyApply env sheet customer RESUME source key token ai w = (Ok res, w')
      /\ shouldIncrement res = true
      /\ nextCount res = (currentCount row + 1)%Z
      /\ CountIs sheet (Z.to_nat (rowIndex0 row)) (currentCount row + 1) w')
  /\ forall w0, fst (alreadyProcessedToday env sheet customer token w0) = Ok false.
Proof.
  intros Hs Hl Ht. split.
  - eapply tallyApply_counts_again; eauto.
  - intros w0. now apply precheck_fails_open.
Qed.

Lemma failed_token_read_counts_as_new_witness :
  tokenListed (safeStr (rowTokens Sample.countedRow)) "hash:doc" = true
  /\ exists res w',
       tallyApply (Sample.env "active" Sample.duplicateChecksFail)
         "sheet-acme" "cust_acme" RESUME "resend" "inbound/k2" "hash:doc"
         (AiReply Sample.reply) (Sample.world [Sample.countedRow]) = (Ok res, w')
       /\ shouldIncrement res = true
       /\ nextCount res = 2%Z.
Proof.
  split; [vm_compute; reflexivity|].
  destruct (failed_token_read_counts_as_new
              (Sample.env "active" Sample.duplicateChecksFail)
              "sheet-acme" "cust_acme" "resend" "inbound/k2" "hash:doc"
              (AiReply Sample.reply) [Sample.countedRow]
              (Sample.world [Sample.countedRow]))
    as [(row & w1 & res & w' & Hens & Hrun & Hinc & Hnext & _) _].
  - intros n ev. reflexivity.
  - vm_compute. reflexivity.
  - reflexivity.
  - exists res, w'. split; [exact Hrun|]. split; [exact Hinc|].
    rewrite Hnext.
    assert (E : ensureTodayTallyRow (Sample.env "active" Sample.duplicateChecksFail)
                  "sheet-acme" "2026-11-02" "cust_acme"
                  (Sample.world [Sample.countedRow])
                = (Ok row, w1)) by exact Hens.
    vm_compute in E. injection E as <- _. reflexivity.
Defined.

(** ** Scoring gateway: proofs *)

Section Scoring.

Context (env : Env).

Lemma resolved_stage args w m w1 :
  resolveCustomer env (toEmailOf args) w = (Ok m, w1) ->
  resolvedTenant env args w = m.
Proof. intros H. unfold resolvedTenant. now rewrite H. Qed.

Lemma before_scoring_stage args w m w1 rubric w2 :
  resolveCustomer env (toEmailOf args) w = (Ok m, w1) ->
  getCustomerRubric env (customerIdOf m) w1 = (Ok rubric, w2) ->
  worldBeforeScoring env args w = w2.
Proof.
  intros Hm Hr. unfold worldBeforeScoring.
  rewrite (resolved_stage args w m w1 Hm), Hm. simpl. now rewrite Hr.
Qed.

Lemma readOnly_single_count e0 p w w' :
  ReadOnly (fun ev => ev = e0) w w' -> p e0 = false -> countEvents p w' = countEvents p w.
Proof. intros HR Hp. eapply readOnly_count; [|exact HR]. now intros ev ->. Qed.

(** Scorer calls are issued by the scoring stage only. *)
Lemma scoreCalls_outside_scoring args w raw m rubric ai tally w1 w2 w3 w4 w5 w6 :
  resolveCustomer env (toEmailOf args) w = (Ok m, w1) ->
  getCustomerRubric env (customerIdOf m) w1 = (Ok rubric, w2) ->
  tallyStage env args m (docTypeOf args (capExtracted env raw)) ai w3 = (Ok tally, w4) ->
  auditStage env args m (toEmailOf args) (docTypeOf args (capExtracted env raw))
    (capExtracted env raw) ai w4 = (Ok tt, w5) ->
  emailStage env m (toEmailOf args) (docTypeOf args (capExtracted env raw)) ai tally w5
  = (Ok tt, w6) ->
  scoreCalls w2 = scoreCalls w /\ scoreCalls w6 = scoreCalls w3.
Proof.
  intros Hm Hr Ht Hau Hem. unfold scoreCalls. split.
  - pose proof (resolveCustomer_readOnly env (toEmailOf args) w) as R1.
    rewrite Hm in R1.
    pose proof (getCustomerRubric_readOnly env (customerIdOf m) w1) as R2.
    rewrite Hr in R2. simpl in R1, R2.
    rewrite (readOnly_single_count _ isScoreCall w1 w2 R2 eq_refl).
    now rewrite (readOnly_single_count _ isScoreCall w w1 R1 eq_refl).
  - pose proof (issues_tallyStage env (fun ev => isScoreCall ev = false) args m
                  (docTypeOf args (capExtracted env raw)) ai ltac:(now intros []) w3) as H4.
    rewrite Ht in H4. simpl in H4.
    destruct (auditStage_run env args m (toEmailOf args)
                (docTypeOf args (capExtracted env raw)) (capExtracted env raw) ai w4)
      as [record Hrec].
    rewrite Hau in Hrec. injection Hrec as ->.
    pose proof (issues_emailStage env m (toEmailOf args)
                  (docTypeOf args (capExtracted env raw)) ai tally
                  (recorded (AuditInsert record) w4)) as H6.
    rewrite Hem in H6. simpl in H6.
    rewrite (Silent_count isScoreCall (recorded (AuditInsert record) w4) w6).
    + rewrite countEvents_recorded. simpl.
      apply Silent_count. eapply Issues_silent; [|exact H4]. auto.
    + eapply Issues_silent; [|exact H6]. intros ev Hev. now destruct ev.
Qed.

Lemma aiStage_too_large args m text rubric w :
  blockedOf m = false ->
  40 < String.length (Js.trim text) ->
  aiStage env args m RESUME text true rubric w = (Ok (AiSkip too_large), w).
Proof.
  intros Hb Hlen. unfold aiStage, tryCatch. rewrite Hb.
  apply Nat.ltb_lt in Hlen.
  now rewrite Hlen, (bool_decide_eq_true_2 _ (eq_refl RESUME)).
Qed.

Lemma precheck_makes_no_score_call sheet customer token w :
  scoreCalls (snd (alreadyProcessedToday env sheet customer token w)) = scoreCalls w.
Proof.
  apply Silent_count.
  eapply (Issues_silent (fun ev => isScoreCall ev = false)); [auto|].
  apply issues_alreadyProcessedToday. now intros [].
Qed.

Lemma aiStage_too_short args m text rubric w :
  blockedOf m = false ->
  40 < String.length (Js.trim text) ->
  String.length text < 120 ->
  fst (aiStage env args m RESUME text false rubric w) = Ok (AiSkip too_short)
  /\ scoreCalls (snd (aiStage env args m RESUME text false rubric w)) = scoreCalls w.
Proof.
  intros Hb Hlen Hshort. unfold aiStage, tryCatch. rewrite Hb.
  apply Nat.ltb_lt in Hlen.
  rewrite Hlen, (bool_decide_eq_true_2 _ (eq_refl RESUME)). cbn [andb].
  apply Nat.leb_gt in Hshort. rewrite Hshort, andb_false_r.
  unfold bind.
  pose proof (precheck_makes_no_score_call (sheetIdOf m) (customerIdOf m)
                (docTokenOf env args) w) as Hc.
  destruct (Total_run _ w (alreadyProcessedToday_total env (sheetIdOf m) (customerIdOf m)
                             (docTokenOf env args))) as [already Ha].
  rewrite Ha in *. simpl in *. split; [reflexivity|exact Hc].
Qed.

Lemma aiStage_scores args m text rubric w :
  blockedOf m = false ->
  40 < String.length (Js.trim text) ->
  120 <= String.length text ->
  fst (alreadyProcessedToday env (sheetIdOf m) (customerIdOf m) (docTokenOf env args) w)
  = Ok false ->
  scoreCalls (snd (aiStage env args m RESUME text false rubric w)) = scoreCalls w + 1.
Proof.
  intros Hb Hlen Hlong Hfresh. unfold aiStage, tryCatch. rewrite Hb.
  apply Nat.ltb_lt in Hlen.
  rewrite Hlen, (bool_decide_eq_true_2 _ (eq_refl RESUME)). cbn [andb].
  assert (Js.truthy text = true) as -> by (destruct text; [simpl in Hlong; lia|done]).
  apply Nat.leb_le in Hlong. rewrite Hlong. cbn [andb].
  unfold bind at 1.
  pose proof (precheck_makes_no_score_call (sheetIdOf m) (customerIdOf m)
                (docTokenOf env args) w) as Hc.
  destruct (alreadyProcessedToday env (sheetIdOf m) (customerIdOf m)
              (docTokenOf env args) w) as [[already|e] wa]; simpl in *; [|discriminate].
  injection Hfresh as ->.
  unfold safeScoreResume, bind, issue.
  destruct (remoteFails env (calls wa) _); simpl.
  - unfold scoreCalls, countEvents in *. simpl. lia.
  - destruct rubric as [block|]; [destruct (Js.truthy block)|]; simpl;
      unfold scoreCalls, countEvents in *; simpl; lia.
Qed.

(** Every call a run issues: the scorer only ever receives the extracted
    text cut to the scorer cap. *)
Lemma pipeline_issues (P : Event -> Prop) args w raw :
  extractedTextRawOf env args = Ok raw ->
  P DirectoryRead ->
  (forall c, P (RubricQuery c)) ->
  (forall ev, ledgerCall ev = true -> P ev) ->
  (forall rubric,
      P (ScoreCall (Js.slice0 (MAX_OPENAI_CHARS (config env)) (capExtracted env raw))
           rubric)) ->
  (forall record, P (AuditInsert record)) ->
  (forall to kind, P (EmailSend to kind)) ->
  Issues P w (snd (processInboundDoc env args w)).
Proof.
  intros Hraw Pd Pr Pl Ps Pa Pe.
  destruct (processInboundDoc_stages env args w)
    as (raw' & m & rubric & ai & tally & w1 & w2 & w3 & w4 & w5 & w6 & H).
  cbv zeta in H. destruct H as (Hraw' & Hm & Hr & Hai & Ht & Hau & Hem & Hrun).
  rewrite Hraw in Hraw'. injection Hraw' as <-.
  rewrite Hrun. simpl.
  pose proof (resolveCustomer_readOnly env (toEmailOf args) w) as [_ I1].
  rewrite Hm in I1.
  pose proof (getCustomerRubric_readOnly env (customerIdOf m) w1) as [_ I2].
  rewrite Hr in I2.
  pose proof (issues_aiStage env P args m (docTypeOf args (capExtracted env raw))
                (capExtracted env raw) (extractedTooLargeOf env raw) rubric
                Pl (Ps rubric) w2) as I3.
  rewrite Hai in I3.
  pose proof (issues_tallyStage env P args m (docTypeOf args (capExtracted env raw)) ai
                Pl w3) as I4.
  rewrite Ht in I4.
  destruct (auditStage_run env args m (toEmailOf args)
              (docTypeOf args (capExtracted env raw)) (capExtracted env raw) ai w4)
    as [record Hrec].
  rewrite Hau in Hrec. injection Hrec as ->.
  pose proof (issues_emailStage env m (toEmailOf args)
                (docTypeOf args (capExtracted env raw)) ai tally
                (recorded (AuditInsert record) w4)) as I6.
  rewrite Hem in I6. simpl in *.
  eapply Issues_trans; [eapply Issues_mono; [|exact I1]; now intros ev ->|].
  eapply Issues_trans; [eapply Issues_mono; [|exact I2]; now intros ev ->|].
  eapply Issues_trans; [exact I3|].
  eapply Issues_trans; [exact I4|].
  eapply Issues_trans; [apply recorded_issues, Pa|].
  eapply Issues_mono; [|exact I6]. intros ev Hev. destruct ev; try discriminate. apply Pe.
Qed.

End Scoring.

(** C5, as stated, fails: with the scorer cap at 150 characters and the
    extraction cap at 400, a RESUME of 163 characters is not skipped; the
    scorer is called with the first 150 characters of the text. *)
Lemma text_over_scorer_cap_is_cut_not_skipped :
  MAX_OPENAI_CHARS (config (Sample.envWithCaps 400 150)) < String.length Sample.resumeText
  /\ List.filter isScoreCall
       (trace (snd (processInboundDoc (Sample.envWithCaps 400 150)
                      (Sample.args (Some Sample.resumeText) None) (Sample.world []))))
     = [ScoreCall (Js.slice0 150 Sample.resumeText) None]
  /\ String.length (Js.slice0 150 Sample.resumeText) = 150
  /\ exists res,
       fst (processInboundDoc (Sample.envWithCaps 400 150)
              (Sample.args (Some Sample.resumeText) None) (Sample.world [])) = Ok res
       /\ resAi res = AiReply Sample.reply.
Proof.
  split; [apply Nat.ltb_lt; vm_compute; reflexivity|].
  split; [vm_compute; reflexivity|].
  split; [vm_compute; reflexivity|].
  eexists. split; [vm_compute; reflexivity|reflexivity].
Qed.

(** C5, amended. For a RESUME that is not billing-blocked and holds more
    than 40 characters once trimmed: when the extracted text exceeds the
    extraction cap MAX_EXTRACTED_CHARS, the scoring stage answers with the
    "too large" skip and no scorer call is made; and whatever its length,
    a text that is scored reaches the scorer cut to its first
    MAX_OPENAI_CHARS characters. *)
Theorem oversize_text_skipped_or_cut env args w raw :
  extractedTextRawOf env args = Ok raw ->
  blockedOf (resolvedTenant env args w) = false ->
  docTypeOf args (capExtracted env raw) = RESUME ->
  40 < String.length (Js.trim (capExtracted env raw)) ->
  (MAX_EXTRACTED_CHARS (config env) < String.length raw ->
   scoreCalls (snd (processInboundDoc env args w)) = scoreCalls w
   /\ exists res,
        fst (processInboundDoc env args w) = Ok res /\ resAi res = AiSkip too_large)
  /\ Issues (fun ev => forall text rubric,
                 ev = ScoreCall text rubric ->
                 text = Js.slice0 (MAX_OPENAI_CHARS (config env)) (capExtracted env raw))
       w (snd (processInboundDoc env args w)).
Proof.
  intros Hraw Hb Hdoc Hlen. split.
  - intros Hbig.
    destruct (processInboundDoc_stages env args w)
      as (raw' & m & rubric & ai & tally & w1 & w2 & w3 & w4 & w5 & w6 & H).
    cbv zeta in H. destruct H as (Hraw' & Hm & Hr & Hai & Ht & Hau & Hem & Hrun).
    rewrite Hraw in Hraw'. injection Hraw' as <-.
    rewrite (resolved_stage env args w m w1 Hm) in Hb.
    assert (Hlarge : extractedTooLargeOf env raw = true)
      by (unfold extractedTooLargeOf; now apply Nat.ltb_lt).
    rewrite Hdoc, Hlarge in Hai.
    rewrite (aiStage_too_large env) in Hai by assumption.
    injection Hai as <- <-.
    destruct (scoreCalls_outside_scoring env args w raw m rubric (AiSkip too_large) tally
                w1 w2 w2 w4 w5 w6 Hm Hr Ht Hau Hem) as [E2 E6].
    rewrite Hrun. simpl. split; [congruence|].
    eexists. split; reflexivity.
  - apply pipeline_issues with raw; try exact Hraw; try discriminate.
    + intros ev Hev. now destruct ev.
    + intros rubric text rubric' [= <- _]. reflexivity.
Qed.

Lemma oversize_text_skipped_or_cut_witness :
  scoreCalls (snd (processInboundDoc (Sample.envWithCaps 150 100)
                     (Sample.args (Some Sample.resumeText) None) (Sample.world [])))
  = 0
  /\ exists res,
       fst (processInboundDoc (Sample.envWithCaps 150 100)
              (Sample.args (Some Sample.resumeText) None) (Sample.world [])) = Ok res
       /\ resAi res = AiSkip too_large.
Proof.
  destruct (oversize_text_skipped_or_cut (Sample.envWithCaps 150 100)
              (Sample.args (Some Sample.resumeText) None) (Sample.world [])
              Sample.resumeText) as [H _].
  - reflexivity.
  - vm_compute. reflexivity.
  - vm_compute. reflexivity.
  - apply Nat.ltb_lt. vm_compute. reflexivity.
  - apply H. apply Nat.ltb_lt. vm_compute. reflexivity.
Defined.

(** C8. For a document the classifier calls a RESUME, of a tenant that is
    not billing-blocked, with a text within the extraction cap: a text of
    119 characters ends in the "too short" skip without any scorer call,
    and a text of 120 characters that the daily pre-check does not report
    as a duplicate makes the run call the scorer, once. *)
Theorem scoring_threshold_boundary env args w text :
  extractedTextRawOf env args = Ok text ->
  classifyDocTypeFromText text = RESUME ->
  argDocType args <> Some NON_RESUME ->
  blockedOf (resolvedTenant env args w) = false ->
  String.length text <= MAX_EXTRACTED_CHARS (config env) ->
  exists res,
    fst (processInboundDoc env args w) = Ok res
    /\ (String.length text = 119 ->
        resAi res = AiSkip too_short
        /\ scoreCalls (snd (processInboundDoc env args w)) = scoreCalls w)
    /\ (String.length text = 120 ->
        duplicateToday env args w = false ->
        scoreCalls (snd (processInboundDoc env args w)) = scoreCalls w + 1).
Proof.
  intros Hraw Hclass Hkind Hb Hcap.
  destruct (processInboundDoc_stages env args w)
    as (raw' & m & rubric & ai & tally & w1 & w2 & w3 & w4 & w5 & w6 & H).
  cbv zeta in H. destruct H as (Hraw' & Hm & Hr & Hai & Ht & Hau & Hem & Hrun).
  rewrite Hraw in Hraw'. injection Hraw' as <-.
  pose proof (classified_resume_trim_length text Hclass) as Htrim.
  assert (Hsmall : extractedTooLargeOf env text = false)
    by (unfold extractedTooLargeOf; apply Nat.ltb_ge; lia).
  assert (Hcapped : capExtracted env text = text)
    by (unfold capExtracted; now rewrite Hsmall).
  assert (Hdoc : docTypeOf args text = RESUME).
  { unfold docTypeOf. destruct (argDocType args) as [[]|]; [done|done|].
    assert (0 <? String.length (Js.trim text) = true) as ->
      by (apply Nat.ltb_lt; lia).
    exact Hclass. }
  unfold duplicateToday.
  rewrite (before_scoring_stage env args w m w1 rubric w2 Hm Hr).
  rewrite (resolved_stage env args w m w1 Hm) in *.
  rewrite Hcapped, Hdoc, Hsmall in *.
  destruct (scoreCalls_outside_scoring env args w text m rubric ai tally
              w1 w2 w3 w4 w5 w6 Hm Hr) as [E2 E6];
    try (rewrite ?Hcapped, ?Hdoc; assumption).
  rewrite Hrun. simpl. eexists. split; [reflexivity|]. simpl. split.
  - intros H119.
    destruct (aiStage_too_short env args m text rubric w2 Hb ltac:(lia) ltac:(lia))
      as [Hskip Hcalls].
    rewrite Hai in Hskip, Hcalls. simpl in *. injection Hskip as ->.
    split; [reflexivity|congruence].
  - intros H120 Hfresh.
    pose proof (aiStage_scores env args m text rubric w2 Hb ltac:(lia) ltac:(lia)) as Hs.
    destruct (Total_run _ w2 (alreadyProcessedToday_total env (sheetIdOf m)
                                (customerIdOf m) (docTokenOf env args))) as [b Hrunb].
    rewrite Hrunb in Hfresh, Hs. simpl in Hfresh, Hs. subst b.
    specialize (Hs eq_refl). rewrite Hai in Hs. simpl in Hs. lia.
Qed.

Lemma scoring_threshold_boundary_witness :
  (exists res,
      fst (processInboundDoc (Sample.env "active" Sample.noFaults)
             (Sample.args (Some Sample.resume119) None) (Sample.world [])) = Ok res
      /\ resAi res = AiSkip too_short)
  /\ scoreCalls (snd (processInboundDoc (Sample.env "active" Sample.noFaults)
                        (Sample.args (Some Sample.resume119) None) (Sample.world [])))
     = 0
  /\ scoreCalls (snd (processInboundDoc (Sample.env "active" Sample.noFaults)
                        (Sample.args (Some Sample.resume120) None) (Sample.world [])))
     = 1.
Proof.
  destruct (scoring_threshold_boundary (Sample.env "active" Sample.noFaults)
              (Sample.args (Some Sample.resume119) None) (Sample.world [])
              Sample.resume119) as (res & Hres & H119 & _).
  { reflexivity. }
  { vm_compute. reflexivity. }
  { discriminate. }
  { vm_compute. reflexivity. }
  { apply Nat.leb_le. vm_compute. reflexivity. }
  destruct (scoring_threshold_boundary (Sample.env "active" Sample.noFaults)
              (Sample.args (Some Sample.resume120) None) (Sample.world [])
              Sample.resume120) as (res' & _ & _ & H120).
  { reflexivity. }
  { vm_compute. reflexivity. }
  { discriminate. }
  { vm_compute. reflexivity. }
  { apply Nat.leb_le. vm_compute. reflexivity. }
  destruct H119 as [Hskip Hcalls]; [vm_compute; reflexivity|].
  split; [exists res; split; assumption|].
  split; [exact Hcalls|].
  apply H120; vm_compute; reflexivity.
Defined.

(** ** Notes and tokens of the day row: proofs *)

Section NoteFacts.

Lemma trimEnd_app a b :
  b <> EmptyString -> Js.trimEnd b = b -> Js.trimEnd (a +:+ b) = a +:+ b.
Proof.
  intros Hb Ht. induction a as [|c r IH]; simpl; [exact Ht|].
  change (String.append r b) with (r +:+ b). rewrite IH.
  change (String c r +:+ b) with (String c (r +:+ b)).
  destruct (r +:+ b) eqn:E; [|done].
  destruct r; [now apply Hb in E|discriminate].
Qed.

Lemma trim_fixed s : Js.trim s = s -> startsClean s /\ Js.trimEnd s = s.
Proof.
  intros H.
  assert (Hc : startsClean s).
  { rewrite <- H. apply trimEnd_clean, trimStart_clean. }
  split; [exact Hc|].
  unfold Js.trim in H. now rewrite (trimStart_of_clean s Hc) in H.
Qed.

Lemma trim_of_clean s : startsClean s -> Js.trimEnd s = s -> Js.trim s = s.
Proof. intros Hc Ht. unfold Js.trim. now rewrite (trimStart_of_clean s Hc). Qed.

Lemma startsClean_app a b : a <> EmptyString -> startsClean a -> startsClean (a +:+ b).
Proof. destruct a; [done|]. now simpl. Qed.

Lemma trim_app a b :
  a <> EmptyString -> Js.trim a = a -> b <> EmptyString -> Js.trim b = b ->
  forall x, Js.trim (a +:+ x +:+ b) = a +:+ x +:+ b.
Proof.
  intros Ha Hta Hb Htb x.
  apply trim_fixed in Hta as [Hca _]. apply trim_fixed in Htb as [_ Heb].
  apply trim_of_clean.
  - now apply startsClean_app.
  - apply trimEnd_app.
    + destruct x; simpl; [exact Hb|done].
    + now apply trimEnd_app.
Qed.

Lemma comma_not_space c : Ascii.eqb c ","%char = true -> Js.isSpace c = false.
Proof. intros H. apply Ascii.eqb_eq in H. now subst. Qed.

Lemma commaFree_cons c r :
  commaFree (String c r) <-> Ascii.eqb c ","%char = false /\ commaFree r.
Proof.
  unfold commaFree. simpl. destruct (Ascii.eqb c ","); split.
  - intros H. discriminate.
  - intros [H _]. discriminate.
  - intros H. now split.
  - now intros [_ H].
Qed.

Lemma commaFree_trim s : commaFree s -> commaFree (Js.trim s).
Proof.
  unfold commaFree, Js.trim. intros H.
  rewrite countChars_trimEnd by apply comma_not_space.
  now rewrite countChars_trimStart by apply comma_not_space.
Qed.

Lemma splitComma_commaFree s : commaFree s -> Js.splitComma s = [s].
Proof.
  induction s as [|c r IH]; [done|].
  intros [Hc Hr]%commaFree_cons. simpl. rewrite Hc, (IH Hr). reflexivity.
Qed.

Lemma splitComma_parts s : Forall commaFree (Js.splitComma s).
Proof.
  induction s as [|c r IH]; simpl.
  - constructor; [reflexivity|constructor].
  - destruct (Ascii.eqb c ",") eqn:Hc.
    + constructor; [reflexivity|exact IH].
    + destruct (Js.splitComma r) as [|h t].
      * constructor; [|constructor]. apply commaFree_cons. now split.
      * inversion IH as [|? ? Hh Ht]; subst.
        constructor; [|exact Ht]. apply commaFree_cons. now split.
Qed.

Lemma splitTrim_parts s :
  Forall (fun p => Js.trim p = p /\ commaFree p) (splitTrim s).
Proof.
  unfold splitTrim. apply Forall_map.
  eapply Forall_impl; [apply splitComma_parts|].
  intros p Hp. simpl. split; [apply trim_idem|now apply commaFree_trim].
Qed.

Lemma splitTrim_space s : splitTrim (String " " s) = splitTrim s.
Proof.
  unfold splitTrim. simpl.
  destruct (Js.splitComma s) as [|h t] eqn:E; [now apply splitComma_nonempty in E|].
  reflexivity.
Qed.

Lemma splitTrim_app a b : splitTrim (a +:+ ", " +:+ b) = splitTrim a ++ splitTrim b.
Proof.
  change (a +:+ ", " +:+ b) with (a +:+ String "," (String " " b)).
  unfold splitTrim at 1. rewrite splitComma_app, map_app.
  fold (splitTrim a). fold (splitTrim (String " " b)).
  now rewrite splitTrim_space.
Qed.

Lemma splitTrim_single p : Js.trim p = p -> commaFree p -> splitTrim p = [p].
Proof.
  intros Ht Hc. unfold splitTrim. rewrite (splitComma_commaFree p Hc). simpl.
  now rewrite Ht.
Qed.

Lemma joinCommaSpace_cons p q rest :
  Js.joinCommaSpace (p :: q :: rest) = p +:+ ", " +:+ Js.joinCommaSpace (q :: rest).
Proof. reflexivity. Qed.

Lemma splitTrim_join l :
  l <> [] -> Forall (fun p => Js.trim p = p /\ commaFree p) l ->
  splitTrim (Js.joinCommaSpace l) = l.
Proof.
  induction l as [|p rest IH]; [done|]. intros _ Hl.
  inversion Hl as [|? ? [Ht Hc] Hrest]; subst.
  destruct rest as [|q rest].
  - simpl. now apply splitTrim_single.
  - rewrite joinCommaSpace_cons, splitTrim_app, IH by done.
    now rewrite (splitTrim_single p Ht Hc).
Qed.

Lemma cleanPart_truthy p : cleanPart p -> Js.truthy p = true.
Proof. intros [Hn _]. now destruct p. Qed.

Lemma filter_all {A} (f : A -> bool) (l : list A) :
  Forall (fun x => f x = true) l -> List.filter f l = l.
Proof.
  induction 1 as [|x l Hx _ IH]; simpl; [done|]. now rewrite Hx, IH.
Qed.

Lemma csvTokens_join l : Forall cleanPart l -> csvTokens (Js.joinCommaSpace l) = l.
Proof.
  intros Hl. destruct l as [|p rest]; [reflexivity|].
  unfold csvTokens. rewrite splitTrim_join.
  - apply filter_all. eapply Forall_impl; [exact Hl|]. apply cleanPart_truthy.
  - done.
  - eapply Forall_impl; [exact Hl|]. now intros x (_ & ? & ?).
Qed.

Lemma joinCommaSpace_trimmed l :
  Forall cleanPart l ->
  Js.trim (Js.joinCommaSpace l) = Js.joinCommaSpace l
  /\ (l <> [] -> Js.joinCommaSpace l <> EmptyString).
Proof.
  induction 1 as [|p rest Hp Hrest [IHt IHn]]; [done|].
  destruct Hp as (Hn & Ht & Hc).
  destruct rest as [|q rest]; [now simpl|].
  rewrite joinCommaSpace_cons. split.
  - apply trim_app; [done|done|now apply IHn|exact IHt].
  - intros _. destruct p; [done|]. discriminate.
Qed.

Lemma csvTokens_parts s : Forall cleanPart (csvTokens s).
Proof.
  unfold csvTokens. apply List.Forall_forall. intros p Hp.
  apply filter_In in Hp as [Hin Ht].
  pose proof (splitTrim_parts s) as Hall.
  rewrite List.Forall_forall in Hall. destruct (Hall p Hin) as [H1 H2].
  split; [|done]. now destruct p.
Qed.

Lemma kept_parts_clean s : Forall cleanPart (List.filter keptNotePart (splitTrim s)).
Proof.
  apply List.Forall_forall. intros p Hp.
  apply filter_In in Hp as [Hin Hk].
  pose proof (splitTrim_parts s) as Hall.
  rewrite List.Forall_forall in Hall. destruct (Hall p Hin) as [H1 H2].
  split; [|done]. unfold keptNotePart in Hk. now destruct p.
Qed.

Lemma stripR2FromNotes_join notes :
  stripR2FromNotes notes
  = Js.joinCommaSpace (List.filter keptNotePart (splitTrim (safeStr notes))).
Proof.
  unfold stripR2FromNotes. fold keptNotePart.
  destruct (safeStr notes) eqn:E; reflexivity.
Qed.

Lemma arrIncludes_In l x : Js.arrIncludes l x = true <-> In x l.
Proof.
  unfold Js.arrIncludes. rewrite existsb_exists. split.
  - intros (y & Hy & He). apply String.eqb_eq in He. now subst.
  - intros H. exists x. split; [done|apply String.eqb_refl].
Qed.

End NoteFacts.

(** X1. [stripR2FromNotes] removes exactly the parts that start
    with [r2:] in any letter case: read back as a comma-separated list, its
    result holds the non-empty parts of the notes that do not start with
    [r2:], in their order, and none that does; stripping a second time
    changes nothing. *)
Theorem stripR2FromNotes_removes_exactly_r2_parts (notes : string) :
  csvTokens (stripR2FromNotes notes)
  = List.filter keptNotePart (splitTrim (safeStr notes))
  /\ Forall (fun p => Js.startsWith (Js.toLowerCase p) "r2:" = false)
       (csvTokens (stripR2FromNotes notes))
  /\ stripR2FromNotes (stripR2FromNotes notes) = stripR2FromNotes notes.
Proof.
  pose proof (kept_parts_clean (safeStr notes)) as Hclean.
  assert (Hcsv : csvTokens (stripR2FromNotes notes)
                 = List.filter keptNotePart (splitTrim (safeStr notes))).
  { rewrite stripR2FromNotes_join. now apply csvTokens_join. }
  split; [exact Hcsv|]. split.
  - rewrite Hcsv. apply List.Forall_forall. intros p Hp.
    apply filter_In in Hp as [_ Hk]. unfold keptNotePart in Hk.
    apply andb_true_iff in Hk as [_ Hk]. now apply negb_true_iff in Hk.
  - rewrite (stripR2FromNotes_join notes).
    set (l := List.filter keptNotePart (splitTrim (safeStr notes))) in *.
    assert (Hkept : Forall (fun x => keptNotePart x = true) l).
    { apply List.Forall_forall. intros x Hx. now apply filter_In in Hx as [_ Hk]. }
    clearbody l.
    rewrite stripR2FromNotes_join. unfold safeStr.
    rewrite (proj1 (joinCommaSpace_trimmed l Hclean)).
    destruct l as [|p rest]; [reflexivity|].
    rewrite splitTrim_join.
    + now rewrite filter_all.
    + done.
    + eapply Forall_impl; [exact Hclean|]. now intros x (_ & ? & ?).
Qed.

(** X2. [appendNote] with a note that is not empty, trimmed and
    without a comma: the result lists the note, and appending the same note
    again changes nothing. *)
Theorem appendNote_lists_once (existing note : string) :
  cleanPart note ->
  Js.arrIncludes (splitTrim (appendNote existing note)) note = true
  /\ appendNote (appendNote existing note) note = appendNote existing note.
Proof.
  intros (Hn & Ht & Hc).
  assert (Hself : forall e, Js.truthy e = true -> safeStr e = e ->
                   Js.arrIncludes (splitTrim e) note = true ->
                   appendNote e note = e).
  { intros e He Hs Hi. unfold appendNote. rewrite Hs, He. simpl. now rewrite Hi. }
  assert (Hnote : Js.arrIncludes (splitTrim note) note = true).
  { rewrite (splitTrim_single note Ht Hc). apply arrIncludes_In. now left. }
  unfold appendNote at 1 3 4.
  destruct (Js.truthy (safeStr existing)) eqn:Hex; simpl.
  - destruct (Js.arrIncludes (splitTrim (safeStr existing)) note) eqn:Hin.
    + split; [exact Hin|]. apply Hself; [exact Hex|apply safeStr_idem|exact Hin].
    + assert (Hex' : safeStr existing <> EmptyString).
      { intros E. rewrite E in Hex. discriminate. }
      assert (Hlisted :
                Js.arrIncludes (splitTrim (safeStr existing +:+ ", " +:+ note)) note = true).
      { rewrite splitTrim_app, (splitTrim_single note Ht Hc). apply arrIncludes_app_r. }
      split; [exact Hlisted|].
      apply Hself; [|apply trim_app; [done|apply trim_idem|done|done]|exact Hlisted].
      destruct (safeStr existing); [done|reflexivity].
  - split; [exact Hnote|].
    apply Hself; [now destruct note|exact Ht|exact Hnote].
Qed.

Lemma appendNote_lists_once_witness :
  cleanPart "resend:RESUME"
  /\ appendNote (appendNote "inbound-r2:NON_RESUME" "resend:RESUME") "resend:RESUME"
     = "inbound-r2:NON_RESUME, resend:RESUME".
Proof.
  assert (H : cleanPart "resend:RESUME") by (repeat split; discriminate).
  split; [exact H|].
  rewrite (proj2 (appendNote_lists_once "inbound-r2:NON_RESUME" "resend:RESUME" H)).
  reflexivity.
Defined.

(** X3. [mergeTokens] keeps the tokens it is given, in their
    order, and adds behind them each wanted token that is not yet listed,
    once: every wanted token is listed afterwards, and what is added was
    wanted, was not listed and holds no token twice. *)
Theorem mergeTokens_keeps_and_adds_once (tokens wanted : list string) :
  exists added,
    mergeTokens tokens wanted = tokens ++ added
    /\ (forall w, In w wanted -> In w (mergeTokens tokens wanted))
    /\ (forall x, In x added -> In x wanted /\ ~ In x tokens)
    /\ NoDup added.
Proof.
  unfold mergeTokens. revert tokens.
  induction wanted as [|w ws IH]; intros tokens; simpl.
  - exists []. rewrite app_nil_r. repeat split; try done. constructor.
  - destruct (Js.arrIncludes tokens w) eqn:Hw.
    + destruct (IH tokens) as (added & Heq & Hall & Hnew & Hnd).
      exists added. split; [exact Heq|]. split; [|split; [|exact Hnd]].
      * intros x [<-|Hx]; [|now apply Hall].
        rewrite Heq. apply in_or_app. left. now apply arrIncludes_In.
      * intros x Hx. destruct (Hnew x Hx). split; [now right|done].
    + destruct (IH (tokens ++ [w])) as (added & Heq & Hall & Hnew & Hnd).
      exists (w :: added). split; [now rewrite Heq, <- app_assoc|].
      split; [|split].
      * intros x [<-|Hx]; [|now apply Hall].
        rewrite Heq. apply in_or_app. left. apply in_or_app. right. now left.
      * intros x [<-|Hx].
        -- split; [now left|]. intros Hin. apply arrIncludes_In in Hin. congruence.
        -- destruct (Hnew x Hx) as [H1 H2]. split; [now right|].
           intros Hin. apply H2. apply in_or_app. now left.
      * constructor; [|exact Hnd].
        intros Hin%list_elem_of_In. destruct (Hnew w Hin) as [_ H2]. apply H2.
        apply in_or_app. right. now left.
Qed.

(** ** Billing gate and tenant lookup: further proofs *)

(** X4. The billing gate blocks exactly the four listed statuses
    and reports the status itself, lower-cased and trimmed, as the reason;
    an empty, unknown or misspelt status is allowed. *)
Theorem billing_gate_blocks_exactly_the_listed (s reason : string) :
  isProcessingAllowed s = Blocked reason
  <-> Js.toLowerCase (safeStr s) = reason /\ In reason blockingStatuses.
Proof.
  unfold isProcessingAllowed, blockingStatuses.
  split.
  - destruct (Js.truthy (Js.toLowerCase (safeStr s))); simpl; [|discriminate].
    repeat match goal with
           | |- context [String.eqb ?a ?b] =>
               destruct (String.eqb_spec a b) as [->|?]; simpl
           end; try discriminate; intros [= <-]; simpl; tauto.
  - intros [<- Hin]. simpl in Hin.
    destruct Hin as [H|[H|[H|[H|[]]]]]; rewrite <- H; reflexivity.
Qed.

Lemma find_app_failing {A} (f : A -> bool) (l1 l2 : list A) :
  Forall (fun x => f x = false) l1 -> List.find f (l1 ++ l2) = List.find f l2.
Proof. induction 1 as [|x l Hx _ IH]; simpl; [done|]. now rewrite Hx. Qed.

(** X5. Tenant lookup takes the last matching record of the
    directory: a record whose intake address, trimmed and lower-cased,
    equals the recipient is returned when no record after it matches,
    whatever stands before it. *)
Theorem findCustomer_last_match_wins pre c post toEmail :
  intakeMatches toEmail c = true ->
  Forall (fun x => intakeMatches toEmail x = false) post ->
  findCustomer (pre ++ c :: post) toEmail = Some c.
Proof.
  intros Hc Hpost. unfold findCustomer. fold (intakeMatches toEmail).
  rewrite rev_app_distr. simpl. rewrite <- app_assoc.
  rewrite find_app_failing.
  - simpl. now rewrite Hc.
  - apply List.Forall_forall. intros x Hx. apply in_rev in Hx.
    rewrite List.Forall_forall in Hpost. now apply Hpost.
Qed.

Lemma findCustomer_last_match_wins_witness :
  findCustomer
    [Sample.acme "canceled"; Sample.acme "active"; Sample.acme "trial"]
    "intake@acme.test"
  = Some (Sample.acme "trial").
Proof.
  apply (findCustomer_last_match_wins
           [Sample.acme "canceled"; Sample.acme "active"] (Sample.acme "trial") []).
  - reflexivity.
  - constructor.
Defined.

(** ** Upload names and the allowlist: proofs *)

Section UploadNames.









Lemma afterLast_split sep s e :
  afterLast sep s = Some e -> exists pre, s = pre +:+ String sep e.
Proof.
  revert e. induction s as [|c r IH]; intros e; simpl; [done|].
  destruct (afterLast sep r) as [e'|] eqn:Hr.
  - intros [= <-]. destruct (IH e' eq_refl) as [pre ->].
    now exists (String c pre).
  - destruct (Ascii.eqb_spec c sep) as [->|]; [|done].
    intros [= <-]. now exists EmptyString.
Qed.

Lemma toLowerCase_app a b :
  Js.toLowerCase (a +:+ b) = Js.toLowerCase a +:+ Js.toLowerCase b.
Proof.
  induction a as [|c r IH]; [done|].
  change (String c r +:+ b) with (String c (r +:+ b)). simpl.
  now rewrite IH.
Qed.

Lemma trimStart_suffix s : exists ws, s = ws +:+ Js.trimStart s.
Proof.
  induction s as [|c r [ws IH]]; simpl; [now exists EmptyString|].
  destruct (Js.isSpace c).
  - exists (String c ws). change (String c ws +:+ Js.trimStart r)
      with (String c (ws +:+ Js.trimStart r)). now rewrite <- IH.
  - now exists EmptyString.
Qed.

Lemma trimEnd_trimStart s : Js.trimEnd s = s -> Js.trimEnd (Js.trimStart s) = Js.trimStart s.
Proof.
  induction s as [|c r IH]; simpl; [done|].
  destruct (Js.isSpace c) eqn:Hc.
  - destruct (Js.trimEnd r) as [|d t] eqn:Hr; [done|].
    intros [= E]. apply IH. exact E.
  - intros H. simpl. rewrite Hc. exact H.
Qed.

Lemma string_app_assoc (a b c : string) : (a +:+ b) +:+ c = a +:+ b +:+ c.
Proof.
  induction a as [|x r IH]; [done|].
  change ((String x r +:+ b) +:+ c) with (String x ((r +:+ b) +:+ c)).
  now rewrite IH.
Qed.

Lemma string_app_length (a b : string) :
  String.length (a +:+ b) = String.length a + String.length b.
Proof.
  induction a as [|x r IH]; [done|].
  change (String x r +:+ b) with (String x (r +:+ b)). simpl. now rewrite IH.
Qed.

Lemma dropStr_app a b : Extract.dropStr (String.length a) (a +:+ b) = b.
Proof. induction a as [|x r IH]; [now destruct b|exact IH]. Qed.

Lemma endsWith_app_same_length x a b :
  String.length a = String.length b ->
  Extract.endsWith (x +:+ a) b = String.eqb a b.
Proof.
  intros Hl. unfold Extract.endsWith.
  rewrite string_app_length, <- Hl.
  replace (String.length x + String.length a - String.length a) with (String.length x) by lia.
  rewrite dropStr_app.
  replace (String.length a <=? String.length x + String.length a) with true; [done|].
  symmetry. apply Nat.leb_le. lia.
Qed.

(** The lower-cased name ends with a dot and the extension. *)
Lemma extension_is_suffix filename ext :
  Js.trimEnd filename = filename ->
  afterLast "." (Js.toLowerCase (safeStr filename)) = Some ext ->
  exists pre, Js.toLowerCase filename = pre +:+ String "." ext.
Proof.
  intros Ht Hext.
  unfold safeStr, Js.trim in Hext. rewrite (trimEnd_trimStart filename Ht) in Hext.
  destruct (afterLast_split _ _ _ Hext) as [pre Hpre].
  destruct (trimStart_suffix filename) as [ws Hws].
  exists (Js.toLowerCase ws +:+ pre).
  rewrite Hws at 1. rewrite toLowerCase_app, Hpre. now rewrite string_app_assoc.
Qed.

End UploadNames.


(** The tests of [extractTextFromBuffer] on a name that the allowlist
    accepts. *)
Lemma allowlisted_name_suffix (filename : string) :
  Js.trimEnd filename = filename ->
  isAllowedFileByName filename = true ->
  (extFromFilename filename = "txt"
   /\ Extract.endsWith (Js.toLowerCase filename) ".txt" = true)
  \/ (extFromFilename filename = "pdf"
      /\ Extract.endsWith (Js.toLowerCase filename) ".txt" = false
      /\ Extract.endsWith (Js.toLowerCase filename) ".pdf" = true)
  \/ (extFromFilename filename = "docx"
      /\ Extract.endsWith (Js.toLowerCase filename) ".txt" = false
      /\ Extract.endsWith (Js.toLowerCase filename) ".pdf" = false
      /\ Extract.endsWith (Js.toLowerCase filename) ".docx" = true).
Proof.
  intros Ht Hallowed.
  unfold isAllowedFileByName in Hallowed.
  apply andb_true_iff in Hallowed as [Hne Hin].
  apply arrIncludes_In in Hin.
  unfold extFromFilename in *.
  destruct (afterLast "." (Js.toLowerCase (safeStr filename))) as [ext|] eqn:Hext;
    [|discriminate].
  destruct (extension_is_suffix filename ext Ht Hext) as [pre ->].
  destruct Hin as [<-|[<-|[<-|[]]]].
  - right. left. split; [done|].
    split; [apply (endsWith_app_same_length pre ".pdf" ".txt"); reflexivity|].
    apply (endsWith_app_same_length pre ".pdf" ".pdf"); reflexivity.
  - left. split; [done|].
    apply (endsWith_app_same_length pre ".txt" ".txt"); reflexivity.
  - right. right. split; [done|].
    change (pre +:+ ".docx") with (pre +:+ "." +:+ "docx").
    rewrite <- string_app_assoc. split; [|split].
    + apply (endsWith_app_same_length (pre +:+ ".") "docx" ".txt"); reflexivity.
    + apply (endsWith_app_same_length (pre +:+ ".") "docx" ".pdf"); reflexivity.
    + rewrite string_app_assoc.
      apply (endsWith_app_same_length pre ".docx" ".docx"); reflexivity.
Qed.

(** X7. The allowlist and the extraction agree on a file name
    without trailing white space: when [isAllowedFileByName] accepts the
    name, its extension is txt, pdf or docx, and [extractTextFromBuffer]
    reads the bytes with the reader of that very type: decoded text for txt,
    the PDF reader with its garbled-text test for pdf, the DOCX reader for
    docx, the empty text when a reader throws. *)
Theorem allowlisted_name_selects_its_reader (pf : Platform) (filename : string)
    (buf : Buffer) :
  Js.trimEnd filename = filename ->
  isAllowedFileByName filename = true ->
  (extFromFilename filename = "txt"
   /\ extractTextFromBuffer pf filename buf
      = Ok (Extract.removeNul (safeStr (decodeTextSmartBuf pf buf))))
  \/ (extFromFilename filename = "pdf"
      /\ extractTextFromBuffer pf filename buf
         = Ok (match pdfParse pf buf with
               | Ok parsed =>
                   if looksGarbledText (safeStr (orEmpty parsed)) then EmptyString
                   else safeStr (orEmpty parsed)
               | Throw _ => EmptyString
               end))
  \/ (extFromFilename filename = "docx"
      /\ extractTextFromBuffer pf filename buf
         = Ok (match mammothExtractRawText pf buf with
               | Ok value => safeStr (orEmpty value)
               | Throw _ => EmptyString
               end)).
Proof.
  intros Ht Hallowed.
  destruct (allowlisted_name_suffix filename Ht Hallowed)
    as [[He H1]|[(He & H1 & H2)|(He & H1 & H2 & H3)]].
  - left. split; [exact He|]. unfold extractTextFromBuffer. cbv zeta. now rewrite H1.
  - right. left. split; [exact He|]. unfold extractTextFromBuffer. cbv zeta.
    rewrite H1, H2. destruct (pdfParse pf buf) as [parsed|e]; [|reflexivity].
    cbn [catchOutcome]. now destruct (looksGarbledText _).
  - right. right. split; [exact He|]. unfold extractTextFromBuffer. cbv zeta.
    rewrite H1, H2, H3. now destruct (mammothExtractRawText pf buf).
Qed.

Lemma allowlisted_name_selects_its_reader_witness :
  extractTextFromBuffer Sample.digitsPdfPlatform
    (normalizeUploadName "My Resume (final).PDF") []
  = Ok EmptyString.
Proof.
  destruct (allowlisted_name_selects_its_reader Sample.digitsPdfPlatform
              (normalizeUploadName "My Resume (final).PDF") [] eq_refl eq_refl)
    as [[H _]|[(_ & H)|[H _]]].
  - discriminate H.
  - rewrite H. reflexivity.
  - discriminate H.
Defined.

(** ** Attachment guards: proofs *)

Section AttachmentGuards.

Context (lim : AttachmentLimits).

Lemma totalSize_snoc l a : totalSize (l ++ [a]) = (totalSize l + sizeOf a)%Z.
Proof. induction l as [|x l IH]; simpl; [lia|]. rewrite IH. lia. Qed.

Lemma guardStep_invariant seen st att :
  guardInvariant lim seen st -> guardInvariant lim (seen ++ [att]) (guardStep lim st att).
Proof.
  intros (Hok & Hsum & Hpos & Hcap & Hlen & Hsub & Htype).
  assert (Hblock : forall reason,
    (reason = unsupported_file_type
     <-> isAllowedFileByName (attachmentName att) = false) ->
    guardInvariant lim (seen ++ [att])
      {| oversized := oversized st
                      ++ [{| blockedId := safeStr (attId att);
                             blockedFilename := attachmentName att;
                             blockedSize := attSize att;
                             blockedReason := reason |}];
         allowed := allowed st;
         total := total st |}).
  { intros reason Hreason. unfold guardInvariant. simpl.
    split; [exact Hok|]. split; [exact Hsum|]. split; [exact Hpos|].
    split; [exact Hcap|]. split; [rewrite !length_app; simpl; lia|].
    split; [now apply sublist_inserts_r|].
    rewrite forallb_app, Forall_app, Forall_singleton. simpl.
    rewrite andb_true_r, andb_true_iff. unfold blockedForType at 2. simpl.
    rewrite bool_decide_eq_true. tauto. }
  unfold guardStep.
  destruct (isAllowedFileByName (attachmentName att)) eqn:Hname; simpl.
  2:{ apply Hblock. tauto. }
  destruct (attSize att) as [size|] eqn:Hsize.
  2:{ apply Hblock. split; [discriminate|congruence]. }
  destruct (size <=? 0)%Z eqn:H0.
  { apply Hblock. split; [discriminate|congruence]. }
  destruct (MAX_ATTACHMENT_BYTES lim <? size)%Z eqn:H1.
  { apply Hblock. split; [discriminate|congruence]. }
  destruct (MAX_TOTAL_ATTACH_BYTES lim <? total st + size)%Z eqn:H2.
  { apply Hblock. split; [discriminate|congruence]. }
  apply Z.leb_gt in H0. apply Z.ltb_ge in H1, H2.
  unfold guardInvariant. simpl.
  split.
  { apply Forall_app. split; [exact Hok|]. apply Forall_singleton.
    split; [exact Hname|]. exists size. repeat split; [exact Hsize|lia|lia]. }
  split; [rewrite totalSize_snoc; unfold sizeOf; rewrite Hsize; lia|].
  split; [lia|]. split; [intros _; lia|].
  split; [rewrite !length_app; simpl; lia|].
  split; [now apply sublist_app|].
  rewrite Forall_app, Forall_singleton. split.
  - intros [Hnil _]. now destruct (allowed st).
  - intros [_ Hno]. congruence.
Qed.

Lemma guard_fold_invariant l seen st :
  guardInvariant lim seen st -> guardInvariant lim (seen ++ l) (fold_left (guardStep lim) l st).
Proof.
  revert seen st. induction l as [|a l IH]; intros seen st Hst; simpl.
  - now rewrite app_nil_r.
  - replace (seen ++ a :: l) with ((seen ++ [a]) ++ l) by now rewrite <- app_assoc.
    apply IH. now apply guardStep_invariant.
Qed.

Lemma attachmentGuard_invariant atts :
  guardInvariant lim (sliceTo (MAX_ATTACHMENTS lim) atts) (attachmentGuard lim atts).
Proof.
  unfold attachmentGuard.
  apply (guard_fold_invariant _ []).
  unfold guardInvariant. simpl.
  repeat split; try done; try lia; try constructor.
Qed.

Lemma sliceTo_sublist {A} n (l : list A) : sublist (sliceTo n l) l.
Proof. unfold sliceTo. destruct (0 <=? n)%Z; apply sublist_take. Qed.

Lemma sliceTo_length {A} n (l : list A) :
  (0 <= n)%Z -> length (sliceTo n l) = Nat.min (Z.to_nat n) (length l).
Proof.
  intros Hn. unfold sliceTo. apply Z.leb_le in Hn. rewrite Hn. apply length_take.
Qed.

End AttachmentGuards.

(** X8. The attachments the guard lets through respect every
    limit: each has an allowlisted name and a size that is known, positive
    and at most MAX_ATTACHMENT_BYTES, and their sizes add up to at most
    MAX_TOTAL_ATTACH_BYTES; they are attachments of the message, in the
    order of the message. *)
Theorem attachment_guard_respects_limits lim atts :
  Forall (withinLimits lim) (allowed (attachmentGuard lim atts))
  /\ totalSize (allowed (attachmentGuard lim atts)) = total (attachmentGuard lim atts)
  /\ (allowed (attachmentGuard lim atts) <> [] ->
      (totalSize (allowed (attachmentGuard lim atts)) <= MAX_TOTAL_ATTACH_BYTES lim)%Z)
  /\ sublist (allowed (attachmentGuard lim atts)) atts.
Proof.
  destruct (attachmentGuard_invariant lim atts)
    as (Hok & Hsum & Hpos & Hcap & Hlen & Hsub & Htype).
  split; [exact Hok|]. split; [exact Hsum|]. split.
  - rewrite Hsum. exact Hcap.
  - etrans; [exact Hsub|apply sliceTo_sublist].
Qed.

(** X9. What the webhook does with the attachments of a message. Without
    attachments it goes on with the text body. With attachments the guard
    examines the first MAX_ATTACHMENTS of them and sorts each into exactly
    one of its two lists; the webhook answers 415 exactly when at least one
    attachment was examined and every attachment examined has a name
    outside the allowlist; it answers 413 when nothing was let through
    otherwise; and it goes on with the attachments let through when there
    is one. *)
Theorem attachment_guard_verdict lim atts :
  length (allowed (attachmentGuard lim atts)) + length (oversized (attachmentGuard lim atts))
  = length (sliceTo (MAX_ATTACHMENTS lim) atts)
  /\ ((0 <= MAX_ATTACHMENTS lim)%Z ->
      length (sliceTo (MAX_ATTACHMENTS lim) atts)
      = Nat.min (Z.to_nat (MAX_ATTACHMENTS lim)) (length atts))
  /\ match guardVerdict lim atts with
     | TextBody => atts = []
     | Answer415 blocked =>
         atts <> []
         /\ blocked = oversized (attachmentGuard lim atts)
         /\ sliceTo (MAX_ATTACHMENTS lim) atts <> []
         /\ Forall (fun a => isAllowedFileByName (attachmentName a) = false)
              (sliceTo (MAX_ATTACHMENTS lim) atts)
     | Answer413 blocked =>
         atts <> []
         /\ blocked = oversized (attachmentGuard lim atts)
         /\ allowed (attachmentGuard lim atts) = []
         /\ (sliceTo (MAX_ATTACHMENTS lim) atts = []
             \/ Exists (fun a => isAllowedFileByName (attachmentName a) = true)
                  (sliceTo (MAX_ATTACHMENTS lim) atts))
     | Proceed attachments =>
         atts <> []
         /\ attachments = allowed (attachmentGuard lim atts)
         /\ attachments <> []
         /\ Exists (fun a => isAllowedFileByName (attachmentName a) = true)
              (sliceTo (MAX_ATTACHMENTS lim) atts)
     end.
Proof.
  destruct (attachmentGuard_invariant lim atts)
    as (Hok & Hsum & Hpos & Hcap & Hlen & Hsub & Htype).
  set (st := attachmentGuard lim atts) in *.
  set (examined := sliceTo (MAX_ATTACHMENTS lim) atts) in *.
  split; [exact Hlen|]. split; [intros Hmax; now apply sliceTo_length|].
  assert (Hex : ~ Forall (fun a => isAllowedFileByName (attachmentName a) = false) examined
                -> Exists (fun a => isAllowedFileByName (attachmentName a) = true) examined).
  { clear. induction examined as [|a l IH]; intros Hn.
    - exfalso. apply Hn. constructor.
    - destruct (isAllowedFileByName (attachmentName a)) eqn:Ha.
      + now apply Exists_cons_hd.
      + apply Exists_cons_tl. apply IH. intros Hl. apply Hn. now constructor. }
  unfold guardVerdict. cbv zeta. fold st. fold blockedForType.
  destruct (0 <? length atts) eqn:Hsome.
  2: { apply Nat.ltb_ge in Hsome. now destruct atts; [|simpl in Hsome; lia]. }
  assert (Hatts : atts <> []).
  { intros ->. discriminate Hsome. }
  destruct (allowed st) as [|a l] eqn:Ha.
  - simpl in Hlen.
    destruct (forallb blockedForType (oversized st)) eqn:Hall.
    + destruct (oversized st) as [|b bs] eqn:Hb; simpl.
      * split; [done|]. split; [done|]. split; [done|]. left.
        destruct examined; [done|discriminate].
      * split; [done|]. split; [done|]. split; [|now apply Htype].
        destruct examined; [discriminate|done].
    + rewrite andb_false_r. split; [done|]. split; [done|]. split; [done|]. right.
      apply Hex. intros Hno. apply Htype in Hno as [_ Hno]. congruence.
  - split; [done|]. split; [done|]. split; [done|].
    apply Hex. intros Hno. apply Htype in Hno as [Hno _]. discriminate.
Qed.

(** ** The day row through a run of the ledger engine: proofs *)

Section DayRows.

Context (env : Env).

Lemma findIndex_dates today (l l' : list Row) :
  map rowDate l = map rowDate l' ->
  findIndex (isToday today) l = findIndex (isToday today) l'.
Proof.
  revert l'. induction l as [|a l IH]; intros [|b l'] H; simpl in *;
    try discriminate; [done|].
  injection H as Hd Hl. unfold isToday at 1 3. rewrite Hd.
  destruct (String.eqb _ today); [done|]. f_equal. now apply IH.
Qed.

Lemma applyWrite_date wr r : rowDate (applyWrite wr r) = rowDate r.
Proof. now destruct wr. Qed.

Lemma findIndex_updated today rn wr rows :
  findIndex (isToday today) (take 999 (updated rn wr rows))
  = findIndex (isToday today) (take 999 rows).
Proof.
  apply findIndex_dates. rewrite <- !firstn_map. f_equal.
  unfold updated. destruct (dataIndex rn); [|done].
  apply map_alter_invariant, applyWrite_date.
Qed.

Lemma findIndex_None {A} (p : A -> bool) (l : list A) :
  findIndex p l = None -> Forall (fun x => p x = false) l.
Proof.
  induction l as [|a l IH]; simpl; [constructor|].
  destruct (p a) eqn:Hp; [discriminate|].
  destruct (findIndex p l); [discriminate|]. intros _. constructor; auto.
Qed.

Lemma findIndex_app_fresh {A} (p : A -> bool) (l : list A) x :
  findIndex p l = None -> p x = true -> findIndex p (l ++ [x]) = Some (length l).
Proof.
  intros Hn Hx. induction l as [|a l IH]; simpl in *; [now rewrite Hx|].
  destruct (p a); [discriminate|].
  destruct (findIndex p l); [discriminate|]. now rewrite IH.
Qed.

Lemma findIndex_app_found {A} (p : A -> bool) (l k : list A) i :
  findIndex p l = Some i -> findIndex p (l ++ k) = Some i.
Proof.
  revert i. induction l as [|a l IH]; intros i; simpl; [discriminate|].
  destruct (p a); [done|].
  destruct (findIndex p l) as [j|]; [|discriminate].
  now rewrite (IH j eq_refl).
Qed.

Lemma isToday_fresh today customer :
  safeStr today = today -> isToday today (freshRow today customer) = true.
Proof. intros H. unfold isToday. simpl. rewrite H. apply String.eqb_refl. Qed.

Lemma DayRowIs_ledger today sheet i r w w' :
  ledger w' = ledger w -> DayRowIs today sheet i r w -> DayRowIs today sheet i r w'.
Proof. intros E (rows & H). exists rows. now rewrite E. Qed.

Lemma DayRowIs_unique today sheet i r j q w :
  DayRowIs today sheet i r w -> DayRowIs today sheet j q w -> i = j /\ r = q.
Proof.
  intros (rows & Hl & Hf & Hr) (rows' & Hl' & Hf' & Hr').
  assert (rows' = rows) as -> by congruence.
  assert (j = i) as -> by congruence.
  split; congruence.
Qed.

Lemma DayRowIs_reach today sheet i r w :
  DayRowIs today sheet i r w -> DayRowInReach today sheet w.
Proof. intros (rows & Hl & Hf & _). exists rows. split; [done|]. right. eauto. Qed.

Lemma update_dayRow today sheet i r wr w w' :
  DayRowIs today sheet i r w ->
  sheetsUpdate env sheet (Z.of_nat i + 2) wr w = (Ok tt, w') ->
  DayRowIs today sheet i (applyWrite wr r) w'.
Proof.
  intros (rows & Hl & Hf & Hr). rewrite sheetsUpdate_run.
  destruct (remoteFails env _ _); [discriminate|]. rewrite Hl. intros [= <-].
  exists (updated (Z.of_nat i + 2) wr rows).
  split; [simpl; apply lookup_insert_eq|].
  split; [now rewrite findIndex_updated|].
  unfold updated. rewrite dataIndex_of_row, list_lookup_alter_eq, Hr. reflexivity.
Qed.

Lemma tokens_dayRow today sheet i r site w g w' :
  DayRowIs today sheet i r w ->
  sheetsGetTokens env site sheet (Z.of_nat i + 2) w = (Ok g, w') ->
  g = rowTokens r /\ DayRowIs today sheet i r w'.
Proof.
  intros (rows & Hl & Hf & Hr). rewrite sheetsGetTokens_run.
  destruct (remoteFails env _ _); [discriminate|]. rewrite Hl. intros [= <- <-].
  split; [now apply tokensAt_row|]. now exists rows.
Qed.

Lemma tokenCheck_dayRow today sheet i r token w :
  DayRowIs today sheet i r w ->
  exists b,
    tokenAlreadyRecorded env sheet (Z.of_nat i + 2) token w
    = (Ok b, recorded (SheetsGetTokens TokenCheck sheet (Z.of_nat i + 2)) w)
    /\ (b = true -> tokenListed (safeStr (rowTokens r)) token = true)
    /\ (remoteFails env (calls w) (SheetsGetTokens TokenCheck sheet (Z.of_nat i + 2)) = false
        -> b = tokenListed (safeStr (rowTokens r)) token).
Proof.
  intros (rows & Hl & Hf & Hr).
  unfold tokenAlreadyRecorded, tryCatch, bind. rewrite sheetsGetTokens_run.
  destruct (remoteFails env _ _).
  - exists false. split; [reflexivity|]. split; [discriminate|discriminate].
  - rewrite Hl, (tokensAt_row rows i r Hr). eexists. split; [reflexivity|].
    split; [done|done].
Qed.

(** Where [ensureTodayTallyRow] points when it returns, in a sheet whose
    day row is within reach. *)
Lemma ensure_dayRow today sheet customer w row w1 :
  safeStr today = today ->
  DayRowInReach today sheet w ->
  ensureTodayTallyRow env sheet today customer w = (Ok row, w1) ->
  exists i r,
    row = {| rowIndex0 := Z.of_nat i;
             currentCount := rowCount r;
             currentNotes := safeStr (rowNotes r) |}
    /\ DayRowIs today sheet i r w1
    /\ ((ledger w1 = ledger w /\ DayRowIs today sheet i r w)
        \/ exists rows,
             ledger w !! sheet = Some rows
             /\ findIndex (isToday today) (take 999 rows) = None
             /\ ledger w1 = <[sheet := rows ++ [freshRow today customer]]> (ledger w)
             /\ i = length rows
             /\ r = freshRow today customer).
Proof.
  intros Htoday (rows & Hl & Hreach).
  destruct (share_run env sheet w) as (ws & Hs & [HL _]). unfold SameLedger in HL.
  unfold ensureTodayTallyRow, bind. rewrite Hs, sheetsGetRows_run.
  destruct (remoteFails env (calls ws) (SheetsGetRows sheet)); [discriminate|].
  rewrite HL, Hl.
  destruct (findIndex (isToday today) (take 999 rows)) as [i|] eqn:Hf.
  - intros [= <- <-].
    destruct (findIndex_Some _ _ _ Hf) as (r & Hr' & Hp).
    pose proof Hr' as Hr. apply lookup_take_Some in Hr as [Hr _].
    exists i, r. rewrite Hr'.
    assert (HD : DayRowIs today sheet i r w) by now exists rows.
    split; [reflexivity|]. split; [|left; split; [exact HL|exact HD]].
    eapply DayRowIs_ledger; [|exact HD]. exact HL.
  - destruct Hreach as [Hlen|[j Hj]]; [|discriminate].
    rewrite sheetsAppend_run.
    destruct (remoteFails env _ (SheetsAppend _ _)); [discriminate|].
    cbn [ledger recorded]. rewrite HL, Hl. rewrite sheetsGetRows_run.
    destruct (remoteFails env _ (SheetsGetRows _)); [discriminate|].
    cbn [ledger recorded stored]. rewrite lookup_insert_eq.
    assert (Hall : take 999 rows = rows) by (apply take_ge; lia).
    assert (Hall2 : take 999 (rows ++ [freshRow today customer])
                    = rows ++ [freshRow today customer]).
    { apply take_ge. rewrite length_app. cbn [length]. lia. }
    rewrite Hall in Hf. rewrite Hall2.
    rewrite (findIndex_app_fresh _ rows _ Hf (isToday_fresh today customer Htoday)).
    intros [= <- <-].
    exists (length rows), (freshRow today customer).
    split; [reflexivity|]. split.
    + exists (rows ++ [freshRow today customer]).
      split; [apply lookup_insert_eq|]. rewrite Hall2.
      split; [now apply findIndex_app_fresh, isToday_fresh|].
      rewrite lookup_app_r by lia. now rewrite Nat.sub_diag.
    + right. exists rows. rewrite Hall. repeat split; try done.
      cbn [ledger recorded stored]. now rewrite HL.
Qed.

Lemma cleanPart_r2 key : cleanPart key -> cleanPart ("r2:" +:+ key).
Proof.
  intros (Hn & Ht & Hc). apply trim_fixed in Ht as [_ He].
  split; [discriminate|]. split.
  - apply trim_of_clean; [reflexivity|]. now apply trimEnd_app.
  - change ("r2:" +:+ key) with (String "r" (String "2" (String ":" key))).
    repeat (apply commaFree_cons; split; [reflexivity|]). exact Hc.
Qed.

Lemma mergeTokens_parts tokens wanted :
  exists added,
    mergeTokens tokens wanted = tokens ++ added
    /\ (forall w, In w wanted -> In w (mergeTokens tokens wanted))
    /\ (forall x, In x added -> In x wanted /\ ~ In x tokens)
    /\ NoDup added.
Proof.
  unfold mergeTokens. revert tokens.
  induction wanted as [|w ws IH]; intros tokens; simpl.
  - exists []. rewrite app_nil_r. repeat split; try done. constructor.
  - destruct (Js.arrIncludes tokens w) eqn:Hw.
    + destruct (IH tokens) as (added & Heq & Hall & Hnew & Hnd).
      exists added. split; [exact Heq|]. split; [|split; [|exact Hnd]].
      * intros x [<-|Hx]; [|now apply Hall].
        rewrite Heq. apply in_or_app. left. now apply arrIncludes_In.
      * intros x Hx. destruct (Hnew x Hx). split; [now right|done].
    + destruct (IH (tokens ++ [w])) as (added & Heq & Hall & Hnew & Hnd).
      exists (w :: added). split; [now rewrite Heq, <- app_assoc|].
      split; [|split].
      * intros x [<-|Hx]; [|now apply Hall].
        rewrite Heq. apply in_or_app. left. apply in_or_app. right. now left.
      * intros x [<-|Hx].
        -- split; [now left|]. intros Hin. apply arrIncludes_In in Hin. congruence.
        -- destruct (Hnew x Hx) as [H1 H2]. split; [now right|].
           intros Hin. apply H2. apply in_or_app. now left.
      * constructor; [|exact Hnd].
        intros Hin%list_elem_of_In. destruct (Hnew w Hin) as [_ H2]. apply H2.
        apply in_or_app. right. now left.
Qed.

(** The token-set cell written by [recordPointerAndTokens] lists the
    token of the document. *)
Lemma merged_token_listed existing token key :
  cleanPart token -> cleanPart key ->
  tokenListed
    (safeStr
       (Js.joinCommaSpace
          (mergeTokens
             (if Js.truthy (safeStr existing) then csvTokens (safeStr existing) else [])
             ([token] ++ ["r2:" +:+ key]))))
    token = true.
Proof.
  intros Htok Hkey.
  set (tokens := if Js.truthy (safeStr existing) then csvTokens (safeStr existing) else []).
  destruct (mergeTokens_parts tokens ([token] ++ ["r2:" +:+ key]))
    as (added & Heq & Hall & Hnew & _).
  set (l := mergeTokens tokens ([token] ++ ["r2:" +:+ key])) in *.
  assert (Hin : In token l) by (apply Hall; now left).
  assert (Hclean : Forall cleanPart l).
  { rewrite Heq. apply Forall_app. split.
    - unfold tokens. destruct (Js.truthy (safeStr existing));
        [apply csvTokens_parts|constructor].
    - apply List.Forall_forall. intros x Hx. destruct (Hnew x Hx) as [[<-|[<-|[]]] _];
        [exact Htok|now apply cleanPart_r2]. }
  destruct (joinCommaSpace_trimmed l Hclean) as [Ht Hne].
  unfold tokenListed, safeStr. rewrite Ht.
  destruct (Js.joinCommaSpace l) eqn:Ej.
  - exfalso. apply Hne; [|reflexivity]. intros El. rewrite El in Hin. destruct Hin.
  - cbn [Js.truthy]. rewrite <- Ej, (csvTokens_join l Hclean).
    now apply arrIncludes_In.
Qed.

Lemma tallyApply_increment_is_resume sheet customer docType source key token ai w res w' :
  tallyApply env sheet customer docType source key token ai w = (Ok res, w') ->
  shouldIncrement res = true -> docType = RESUME.
Proof.
  destruct docType; [done|].
  rewrite tallyApply_non_resume_run.
  destruct (ensureTodayTallyRow env sheet (today env) customer w) as [[row|e] w1];
    [|discriminate].
  cbv zeta.
  repeat (unfold bind at 1;
          match goal with
          | |- context [sheetsUpdate env ?s ?rn ?wr ?w0] =>
              destruct (sheetsUpdate env s rn wr w0) as [[[]|?] ?]; [|discriminate]
          end).
  unfold ret. intros [= <- <-]. discriminate.
Qed.

(** What [tallyApply] did with a RESUME, read off what it returned. *)
Lemma tallyApply_resume_cases sheet customer source key token ai w res w' :
  safeStr (today env) = today env ->
  DayRowInReach (today env) sheet w ->
  Js.truthy token = true ->
  tallyApply env sheet customer RESUME source key token ai w = (Ok res, w') ->
  exists i r0 w0,
    DayRowIs (today env) sheet i r0 w0
    /\ ((ledger w0 = ledger w /\ DayRowIs (today env) sheet i r0 w)
        \/ exists rows,
             ledger w !! sheet = Some rows
             /\ findIndex (isToday (today env)) (take 999 rows) = None
             /\ ledger w0 = <[sheet := rows ++ [freshRow (today env) customer]]> (ledger w)
             /\ i = length rows
             /\ r0 = freshRow (today env) customer)
    /\ nextNotes res
       = appendNote (cleanNotes (safeStr (rowNotes r0))) (noteFor RESUME source)
    /\ ((shouldIncrement res = false
         /\ nextCount res = rowCount r0
         /\ ledger w' = ledger w0
         /\ tokenListed (safeStr (rowTokens r0)) token = true)
        \/ (shouldIncrement res = true
            /\ nextCount res = (rowCount r0 + 1)%Z
            /\ ((forall n s rn, remoteFails env n (SheetsGetTokens TokenCheck s rn) = false)
                -> tokenListed (safeStr (rowTokens r0)) token = false)
            /\ exists r,
                 DayRowIs (today env) sheet i r w'
                 /\ rowCount r = nextCount res
                 /\ rowNotes r = nextNotes res
                 /\ rowCustomer r = customer
                 /\ (Js.truthy key = true ->
                     rowR2Key r = key
                     /\ rowTokens r
                        = Js.joinCommaSpace
                            (mergeTokens
                               (if Js.truthy (safeStr (rowTokens r0))
                                then csvTokens (safeStr (rowTokens r0)) else [])
                               ([token] ++ ["r2:" +:+ key]))
                     /\ (forall s, aiScore ai = Some s -> rowLastScore r = Some s))
                 /\ (Js.truthy key = false -> pointerCells r = pointerCells r0))).
Proof.
  intros Htoday Hreach Htok. unfold tallyApply. cbv zeta. unfold bind at 1.
  destruct (ensureTodayTallyRow env sheet (today env) customer w) as [[row|e] w1] eqn:Hens;
    [|discriminate].
  destruct (ensure_dayRow _ _ _ _ _ _ Htoday Hreach Hens) as (i & r0 & -> & HD & HL).
  cbn [rowIndex0 currentCount currentNotes].
  rewrite (bool_decide_eq_true_2 (RESUME = RESUME)) by reflexivity.
  cbn [andb]. rewrite Htok. unfold bind at 1.
  destruct (tokenCheck_dayRow (today env) sheet i r0 token w1 HD) as (b & -> & Hb1 & Hb2).
  destruct b.
  { unfold ret. intros [= <- <-]. exists i, r0, w1.
    split; [exact HD|]. split; [exact HL|]. split; [reflexivity|].
    left. repeat split. now apply Hb1. }
  assert (HD1 : DayRowIs (today env) sheet i r0
                  (recorded (SheetsGetTokens TokenCheck sheet (Z.of_nat i + 2)) w1))
    by (eapply DayRowIs_ledger; [|exact HD]; reflexivity).
  assert (Hfresh : (forall n s rn, remoteFails env n (SheetsGetTokens TokenCheck s rn) = false)
                   -> tokenListed (safeStr (rowTokens r0)) token = false).
  { intros Hread. symmetry. apply Hb2, Hread. }
  unfold bind at 1.
  match goal with
  | |- context [sheetsUpdate env sheet ?rn ?wr ?w0] =>
      destruct (sheetsUpdate env sheet rn wr w0) as [[[]|?] w2] eqn:E2; [|discriminate]
  end.
  apply (update_dayRow _ _ _ _ _ _ _ HD1) in E2.
  unfold bind at 1.
  match goal with
  | |- context [sheetsUpdate env sheet ?rn ?wr w2] =>
      destruct (sheetsUpdate env sheet rn wr w2) as [[[]|?] w3] eqn:E3; [|discriminate]
  end.
  apply (update_dayRow _ _ _ _ _ _ _ E2) in E3.
  unfold bind at 1.
  match goal with
  | |- context [sheetsUpdate env sheet ?rn ?wr w3] =>
      destruct (sheetsUpdate env sheet rn wr w3) as [[[]|?] w4] eqn:E4; [|discriminate]
  end.
  apply (update_dayRow _ _ _ _ _ _ _ E3) in E4.
  unfold bind at 1.
  destruct (Js.truthy key) eqn:Hkey; cbn [andb].
  - unfold recordPointerAndTokens. cbv zeta. rewrite ?Hkey, ?Htok. unfold bind at 1.
    match goal with
    | |- context [sheetsUpdate env sheet ?rn ?wr w4] =>
        destruct (sheetsUpdate env sheet rn wr w4) as [[[]|?] w5] eqn:E5; [|discriminate]
    end.
    apply (update_dayRow _ _ _ _ _ _ _ E4) in E5.
    unfold bind at 1.
    match goal with
    | |- context [sheetsUpdate env sheet ?rn ?wr w5] =>
        destruct (sheetsUpdate env sheet rn wr w5) as [[[]|?] w6] eqn:E6; [|discriminate]
    end.
    apply (update_dayRow _ _ _ _ _ _ _ E5) in E6.
    unfold bind at 1.
    destruct (sheetsGetTokens env TokenMerge sheet (Z.of_nat i + 2) w6)
      as [[g|?] w7] eqn:E7; [|discriminate].
    apply (tokens_dayRow _ _ _ _ _ _ _ _ E6) in E7 as [Hg E7]. cbn in Hg. subst g.
    unfold bind at 1.
    match goal with
    | |- context [sheetsUpdate env sheet ?rn ?wr w7] =>
        destruct (sheetsUpdate env sheet rn wr w7) as [[[]|?] w8] eqn:E8; [|discriminate]
    end.
    apply (update_dayRow _ _ _ _ _ _ _ E7) in E8.
    destruct (aiScore ai) as [scoreNum|] eqn:Hscore.
    + match goal with
      | |- context [sheetsUpdate env sheet ?rn ?wr w8] =>
          destruct (sheetsUpdate env sheet rn wr w8) as [[[]|?] w9] eqn:E9; [|discriminate]
      end.
      apply (update_dayRow _ _ _ _ _ _ _ E8) in E9.
      unfold ret. intros [= <- <-]. exists i, r0, w1.
      split; [exact HD|]. split; [exact HL|]. split; [reflexivity|].
      right. split; [reflexivity|]. split; [reflexivity|]. split; [exact Hfresh|].
      eexists. split; [exact E9|].
      repeat split; try reflexivity; try congruence;
        try (intros ? [= <-]; reflexivity); try (intros ? [=]).
    + unfold ret. intros [= <- <-]. exists i, r0, w1.
      split; [exact HD|]. split; [exact HL|]. split; [reflexivity|].
      right. split; [reflexivity|]. split; [reflexivity|]. split; [exact Hfresh|].
      eexists. split; [exact E8|].
      repeat split; try reflexivity; try congruence;
        try (intros ? [= <-]; reflexivity); try (intros ? [=]).
  - unfold ret. intros [= <- <-]. exists i, r0, w1.
    split; [exact HD|]. split; [exact HL|]. split; [reflexivity|].
    right. split; [reflexivity|]. split; [reflexivity|]. split; [exact Hfresh|].
    eexists. split; [exact E4|].
    repeat split; try reflexivity; try congruence;
      try (intros ? [= <-]; reflexivity); try (intros ? [=]).
Qed.

(** Once [tallyApply] has counted a document that came with a storage
    key, the day row lists its token. *)
Lemma counted_after_increment sheet customer docType source key token ai w res w' :
  safeStr (today env) = today env ->
  DayRowInReach (today env) sheet w ->
  cleanPart token -> cleanPart key ->
  tallyApply env sheet customer docType source key token ai w = (Ok res, w') ->
  shouldIncrement res = true ->
  exists i r, Counted env sheet token w' i r /\ rowCount r = nextCount res.
Proof.
  intros Htoday Hreach Htok Hkey Hrun Hinc.
  pose proof (tallyApply_increment_is_resume _ _ _ _ _ _ _ _ _ _ Hrun Hinc) as ->.
  destruct (tallyApply_resume_cases _ _ _ _ _ _ _ _ _ Htoday Hreach
              (cleanPart_truthy _ Htok) Hrun)
    as (i & r0 & w0 & HD0 & _ & _ & [(Hno & _)|(_ & _ & _ & r & HD & Hc & _ & _ & Hk & _)]);
    [congruence|].
  destruct (Hk (cleanPart_truthy _ Hkey)) as (_ & Hg & _).
  exists i, r. split; [|exact Hc].
  destruct HD as (rows & Hl & Hf & Hr). exists rows.
  split; [exact Hl|]. split; [exact Hf|]. split; [exact Hr|].
  rewrite Hg. now apply merged_token_listed.
Qed.

End DayRows.

(** ** Documents that are not resumes: the writes *)

Section NonResumeWrites.

Context (env : Env).

Lemma sheetsUpdate_returns sheet rn wr w w' :
  sheetsUpdate env sheet rn wr w = (Ok tt, w') ->
  exists rows,
    ledger w !! sheet = Some rows
    /\ ledger w' = <[sheet := updated rn wr rows]> (ledger w)
    /\ trace w' = SheetsUpdate sheet rn wr :: trace w.
Proof.
  rewrite sheetsUpdate_run.
  destruct (remoteFails env _ _); [discriminate|].
  destruct (ledger w !! sheet) as [rows|] eqn:Hl; [|discriminate].
  intros [= <-]. exists rows. repeat split.
Qed.

End NonResumeWrites.

(** C9. For a NON_RESUME document, [tallyApply] first ensures the day row
    (a failure there is the failure of the call); then it only writes the
    cells B, C and D of that row: the count cell receives the count that
    was read, the notes cell the notes with the source-tagged note listed;
    the pointer, file-link, token-set and last-score cells of every row stay
    as they were, and the result reports the unchanged count and no
    increment. A call that returns has issued exactly these three writes,
    in this order, and the row it pointed at then holds the count read, the
    notes with the note and the customer, every other cell and row as
    before; and the call returns when none of its three writes fails. In a
    sheet whose day row is within the rows read, that row is
    the row of the day and the count read is the count it held. *)
Theorem non_resume_count_and_tokens_untouched
    env sheet customer (src : Source) key token ai w :
  match ensureTodayTallyRow env sheet (today env) customer w with
  | (Throw e, w1) =>
      tallyApply env sheet customer NON_RESUME (sourceName src) key token ai w
      = (Throw e, w1)
  | (Ok row, w1) =>
      (exists rows r,
          ledger w1 !! sheet = Some rows /\ r ∈ rows
          /\ (isToday (today env) r = true \/ r = freshRow (today env) customer))
      /\ Issues (nonResumeWrite sheet customer (sourceName src +:+ ":NON_RESUME") row) w1
           (snd (tallyApply env sheet customer NON_RESUME (sourceName src) key token ai w))
      /\ SameOn pointerCells w1
           (snd (tallyApply env sheet customer NON_RESUME (sourceName src) key token ai w))
      /\ Js.arrIncludes
           (splitTrim (appendNote (cleanNotes (currentNotes row))
                         (sourceName src +:+ ":NON_RESUME")))
           (sourceName src +:+ ":NON_RESUME") = true
      /\ (forall r,
           fst (tallyApply env sheet customer NON_RESUME (sourceName src) key token ai w)
           = Ok r ->
           nextCount r = currentCount row
           /\ shouldIncrement r = false
           /\ nextNotes r = appendNote (cleanNotes (currentNotes row))
                              (sourceName src +:+ ":NON_RESUME"))
      /\ (forall res w',
           tallyApply env sheet customer NON_RESUME (sourceName src) key token ai w
           = (Ok res, w') ->
           trace w'
           = SheetsUpdate sheet (rowIndex0 row + 2) (WCustomer customer)
             :: SheetsUpdate sheet (rowIndex0 row + 2)
                  (WNotes (appendNote (cleanNotes (currentNotes row))
                             (sourceName src +:+ ":NON_RESUME")))
             :: SheetsUpdate sheet (rowIndex0 row + 2) (WCount (currentCount row))
             :: trace w1
           /\ exists rows1 r1,
                ledger w1 !! sheet = Some rows1
                /\ rows1 !! Z.to_nat (rowIndex0 row) = Some r1
                /\ ledger w'
                   = <[sheet :=
                         <[Z.to_nat (rowIndex0 row) :=
                             {| rowDate := rowDate r1;
                                rowCount := currentCount row;
                                rowNotes := appendNote (cleanNotes (currentNotes row))
                                              (sourceName src +:+ ":NON_RESUME");
                                rowCustomer := customer;
                                rowR2Key := rowR2Key r1;
                                rowFile := rowFile r1;
                                rowTokens := rowTokens r1;
                                rowLastScore := rowLastScore r1 |}]> rows1]> (ledger w1))
      /\ ((forall n wr,
             remoteFails env n (SheetsUpdate sheet (rowIndex0 row + 2) wr) = false) ->
          exists res w',
            tallyApply env sheet customer NON_RESUME (sourceName src) key token ai w
            = (Ok res, w'))
      /\ (safeStr (today env) = today env ->
          DayRowInReach (today env) sheet w ->
          exists i r1,
            DayRowIs (today env) sheet i r1 w1
            /\ rowIndex0 row = Z.of_nat i
            /\ currentCount row = rowCount r1
            /\ currentNotes row = safeStr (rowNotes r1))
  end.
Proof.
  rewrite tallyApply_non_resume_run.
  destruct (ensureTodayTallyRow env sheet (today env) customer w) as [[row|e] w1] eqn:He;
    [|reflexivity].
  cbv zeta. unfold noteFor.
  set (nn := appendNote (cleanNotes (currentNotes row)) (sourceName src +:+ ":NON_RESUME")).
  set (rn := (rowIndex0 row + 2)%Z).
  set (tail := (sheetsUpdate env sheet rn (WCount (currentCount row)) ;;;
                sheetsUpdate env sheet rn (WNotes nn) ;;;
                sheetsUpdate env sheet rn (WCustomer customer) ;;;
                ret {| tallyToday := today env; nextCount := currentCount row;
                       nextNotes := nn; shouldIncrement := false |})%pipeline).
  destruct (ensure_returns env _ _ _ _ _ _ He)
    as (rows & rows' & Hl & Hl' & _ & Hpos & Hlt & r & Hr & Hd).
  assert (Hl1 : ledger w1 !! sheet = Some rows').
  { rewrite Hl'. apply lookup_insert_eq. }
  split; [|split; [|split; [|split; [|split; [|split; [|split]]]]]].
  - exists rows', r. now split.
  - assert (K : Keeps (Issues (nonResumeWrite sheet customer
                                 (sourceName src +:+ ":NON_RESUME") row)) tail).
    { unfold tail.
      do 3 (apply keeps_bind;
            [typeclasses eauto
            |apply issues_sheetsUpdate; unfold nonResumeWrite; auto
            |intros _]).
      apply keeps_ret; typeclasses eauto. }
    apply K.
  - assert (K : Keeps (SameOn pointerCells) tail).
    { unfold tail.
      do 3 (apply keeps_bind;
            [typeclasses eauto|apply sameOn_sheetsUpdate; now intros []|intros _]).
      apply keeps_ret; typeclasses eauto. }
    apply K.
  - apply appendNote_lists_note.
  - intros r0. unfold tail, bind, ret.
    destruct (sheetsUpdate env sheet rn (WCount (currentCount row)) w1)
      as [[[]|e1] w2]; [|discriminate].
    destruct (sheetsUpdate env sheet rn (WNotes nn) w2)
      as [[[]|e2] w3]; [|discriminate].
    destruct (sheetsUpdate env sheet rn (WCustomer customer) w3)
      as [[[]|e3] w4]; [|discriminate].
    simpl. now intros [= <-].
  - intros res w'. unfold tail, bind, ret.
    destruct (sheetsUpdate env sheet rn (WCount (currentCount row)) w1)
      as [[[]|e1] w2] eqn:H1; [|discriminate].
    destruct (sheetsUpdate env sheet rn (WNotes nn) w2)
      as [[[]|e2] w3] eqn:H2; [|discriminate].
    destruct (sheetsUpdate env sheet rn (WCustomer customer) w3)
      as [[[]|e3] w4] eqn:H3; [|discriminate].
    intros [= _ <-].
    destruct (sheetsUpdate_returns env _ _ _ _ _ H1) as (q1 & L1 & E1 & T1).
    destruct (sheetsUpdate_returns env _ _ _ _ _ H2) as (q2 & L2 & E2 & T2).
    destruct (sheetsUpdate_returns env _ _ _ _ _ H3) as (q3 & L3 & E3 & T3).
    split; [now rewrite T3, T2, T1|].
    rewrite Hl1 in L1. injection L1 as <-.
    rewrite E1, lookup_insert_eq in L2. injection L2 as <-.
    rewrite E2, lookup_insert_eq in L3. injection L3 as <-.
    destruct (lookup_lt_is_Some_2 rows' (Z.to_nat (rowIndex0 row)) Hlt) as [r1 Hr1].
    exists rows', r1. split; [exact Hl1|]. split; [exact Hr1|].
    rewrite E3, E2, E1, !insert_insert_eq. f_equal.
    unfold updated, dataIndex, rn.
    destruct (2 <=? rowIndex0 row + 2)%Z eqn:Hge; [|apply Z.leb_gt in Hge; lia].
    replace (Z.to_nat (rowIndex0 row + 2 - 2)) with (Z.to_nat (rowIndex0 row))
      by (f_equal; lia).
    apply list_eq. intros j.
    destruct (decide (j = Z.to_nat (rowIndex0 row))) as [->|Hj].
    + rewrite !list_lookup_alter_eq, Hr1, list_lookup_insert_eq by exact Hlt.
      reflexivity.
    + rewrite !list_lookup_alter_ne, list_lookup_insert_ne by congruence. reflexivity.
  - intros Hok. unfold tail, bind, ret.
    rewrite sheetsUpdate_run, Hok, Hl1.
    rewrite sheetsUpdate_run, Hok. cbn [ledger stored recorded].
    rewrite lookup_insert_eq.
    rewrite sheetsUpdate_run, Hok. cbn [ledger stored recorded].
    rewrite lookup_insert_eq. eauto.
  - intros Htoday Hreach.
    destruct (ensure_dayRow env _ _ _ _ _ _ Htoday Hreach He) as (i & r1 & -> & HD & _).
    exists i, r1. repeat split. exact HD.
Qed.

Lemma non_resume_count_and_tokens_untouched_witness :
  ledger (snd (tallyApply (Sample.env "active" Sample.noFaults) "sheet-acme" "cust_acme"
                 NON_RESUME (sourceName SrcInboundFile) "inbound/k2" "hash:other"
                 (AiSkip non_resume) (Sample.world [Sample.countedRow])))
  !! "sheet-acme"
  = Some [{| rowDate := "2026-11-02";
             rowCount := 1;
             rowNotes := "resend:RESUME, inbound-file:NON_RESUME";
             rowCustomer := "cust_acme";
             rowR2Key := "inbound/k1";
             rowFile := EmptyString;
             rowTokens := "hash:doc, r2:inbound/k1";
             rowLastScore := Some 82%Z |}].
Proof.
  pose proof (non_resume_count_and_tokens_untouched
                (Sample.env "active" Sample.noFaults) "sheet-acme" "cust_acme"
                SrcInboundFile "inbound/k2" "hash:other" (AiSkip non_resume)
                (Sample.world [Sample.countedRow])) as H.
  destruct (ensureTodayTallyRow (Sample.env "active" Sample.noFaults) "sheet-acme"
              (today (Sample.env "active" Sample.noFaults)) "cust_acme"
              (Sample.world [Sample.countedRow])) as [[row|e] w1] eqn:He;
    [|vm_compute in He; discriminate].
  destruct H as (_ & _ & _ & _ & _ & Hw & _ & _).
  destruct (tallyApply (Sample.env "active" Sample.noFaults) "sheet-acme" "cust_acme"
              NON_RESUME (sourceName SrcInboundFile) "inbound/k2" "hash:other"
              (AiSkip non_resume) (Sample.world [Sample.countedRow]))
    as [[res|e] w'] eqn:Hrun; [|vm_compute in Hrun; discriminate].
  destruct (Hw res w' eq_refl) as (_ & rows1 & r1 & Hl & Hr & Hledger).
  cbn [snd]. rewrite Hledger, lookup_insert_eq.
  vm_compute in He. injection He as <- <-.
  vm_compute in Hl. injection Hl as <-.
  vm_compute in Hr. injection Hr as <-.
  vm_compute. reflexivity.
Defined.

(** X10. [ensureTodayTallyRow] settles the row of the day: in a
    sheet that holds fewer than 999 day rows, or the row of the day among
    its first 999, a call that returns has appended a row only when no row
    it read carried the date, points at the first row of the day and reports
    its count; a further call appends nothing and returns the same
    answer. *)
Theorem ensureTodayTallyRow_settles_the_day_row env today sheet customer w row w1 :
  safeStr today = today ->
  DayRowInReach today sheet w ->
  ensureTodayTallyRow env sheet today customer w = (Ok row, w1) ->
  (exists i r,
      DayRowIs today sheet i r w1
      /\ rowIndex0 row = Z.of_nat i
      /\ currentCount row = rowCount r
      /\ currentNotes row = safeStr (rowNotes r))
  /\ (ledger w1 = ledger w
      \/ exists rows,
           ledger w !! sheet = Some rows
           /\ findIndex (isToday today) (take 999 rows) = None
           /\ ledger w1 = <[sheet := rows ++ [freshRow today customer]]> (ledger w))
  /\ forall customer',
       ledger (snd (ensureTodayTallyRow env sheet today customer' w1)) = ledger w1
       /\ forall row',
            fst (ensureTodayTallyRow env sheet today customer' w1) = Ok row' -> row' = row.
Proof.
  intros Htoday Hreach Hens.
  destruct (ensure_dayRow env _ _ _ _ _ _ Htoday Hreach Hens) as (i & r & -> & HD & HL).
  split; [exists i, r; repeat split; exact HD|]. split.
  - destruct HL as [[HL _]|(rows & Hl & Hf & HL & _)]; [now left|right; eauto].
  - intros customer'. destruct HD as (rows1 & Hl1 & Hf1 & Hr1).
    destruct (ensure_existing env sheet today customer' w1 rows1 i Hl1 Hf1)
      as (ws & r' & [HS _] & Hr' & _ & Hrun).
    assert (r' = r) as -> by congruence.
    rewrite Hrun. unfold SameLedger in HS.
    destruct (remoteFails env (calls ws) (SheetsGetRows sheet)); simpl.
    + split; [exact HS|discriminate].
    + split; [exact HS|]. now intros row' [= <-].
Qed.

Lemma ensureTodayTallyRow_settles_the_day_row_witness :
  ledger (snd (ensureTodayTallyRow (Sample.env "active" Sample.noFaults) "sheet-acme"
                 "2026-11-02" "cust_acme"
                 (snd (ensureTodayTallyRow (Sample.env "active" Sample.noFaults)
                         "sheet-acme" "2026-11-02" "cust_acme" (Sample.world [])))))
  = ledger (snd (ensureTodayTallyRow (Sample.env "active" Sample.noFaults)
                   "sheet-acme" "2026-11-02" "cust_acme" (Sample.world []))).
Proof.
  refine (proj1 (proj2 (proj2
            (ensureTodayTallyRow_settles_the_day_row
               (Sample.env "active" Sample.noFaults) "2026-11-02" "sheet-acme" "cust_acme"
               (Sample.world [])
               {| rowIndex0 := 0; currentCount := 0; currentNotes := EmptyString |}
               (snd (ensureTodayTallyRow (Sample.env "active" Sample.noFaults)
                       "sheet-acme" "2026-11-02" "cust_acme" (Sample.world [])))
               _ _ _)) "cust_acme")).
  - reflexivity.
  - exists []. split; [reflexivity|]. left. simpl. lia.
  - vm_compute. reflexivity.
Defined.

(** X11. Beyond the window: when the sheet holds 999 day rows or
    more and none of the first 999 carries the date, a call of
    [ensureTodayTallyRow] that returns has appended a row for the day and
    points at index 998, the last row it read, which is not a row of the
    day. *)
Theorem ensureTodayTallyRow_beyond_the_window env today sheet customer w rows row w1 :
  ledger w !! sheet = Some rows ->
  999 <= length rows ->
  findIndex (isToday today) (take 999 rows) = None ->
  ensureTodayTallyRow env sheet today customer w = (Ok row, w1) ->
  ledger w1 = <[sheet := rows ++ [freshRow today customer]]> (ledger w)
  /\ rowIndex0 row = 998%Z
  /\ exists r, rows !! 998 = Some r /\ isToday today r = false.
Proof.
  intros Hl Hlen Hf.
  destruct (share_run env sheet w) as (ws & Hs & [HL _]). unfold SameLedger in HL.
  unfold ensureTodayTallyRow, bind. rewrite Hs, sheetsGetRows_run.
  destruct (remoteFails env (calls ws) (SheetsGetRows sheet)); [discriminate|].
  rewrite HL, Hl, Hf. rewrite sheetsAppend_run.
  destruct (remoteFails env _ (SheetsAppend _ _)); [discriminate|].
  cbn [ledger recorded]. rewrite HL, Hl. rewrite sheetsGetRows_run.
  destruct (remoteFails env _ (SheetsGetRows _)); [discriminate|].
  cbn [ledger recorded stored]. rewrite lookup_insert_eq.
  rewrite (take_app_le rows _ 999 Hlen), Hf.
  intros [= <- <-]. cbn [ledger recorded stored rowIndex0].
  split; [now rewrite HL|]. split; [rewrite length_take; lia|].
  destruct (lookup_lt_is_Some_2 rows 998 ltac:(lia)) as [r Hr].
  exists r. split; [exact Hr|].
  apply findIndex_None in Hf. rewrite List.Forall_forall in Hf. apply Hf.
  apply list_elem_of_In. eapply list_elem_of_lookup_2.
  apply lookup_take_Some. split; [exact Hr|lia].
Qed.

Lemma ensureTodayTallyRow_beyond_the_window_witness :
  rowIndex0
    (match fst (ensureTodayTallyRow (Sample.env "active" Sample.noFaults) "sheet-acme"
                  "2026-11-02" "cust_acme"
                  (Sample.world (replicate 999 (freshRow "2026-11-01" "cust_acme")))) with
     | Ok row => row
     | Throw _ => {| rowIndex0 := 0; currentCount := 0; currentNotes := EmptyString |}
     end)
  = 998%Z.
Proof.
  destruct (ensureTodayTallyRow (Sample.env "active" Sample.noFaults) "sheet-acme"
              "2026-11-02" "cust_acme"
              (Sample.world (replicate 999 (freshRow "2026-11-01" "cust_acme"))))
    as [[row|e] w1] eqn:Hrun; [|vm_compute in Hrun; discriminate].
  cbn [fst].
  refine (proj1 (proj2 (ensureTodayTallyRow_beyond_the_window
                          (Sample.env "active" Sample.noFaults) "2026-11-02" "sheet-acme"
                          "cust_acme"
                          (Sample.world (replicate 999 (freshRow "2026-11-01" "cust_acme")))
                          (replicate 999 (freshRow "2026-11-01" "cust_acme"))
                          row w1 _ _ _ Hrun))).
  - reflexivity.
  - vm_compute. lia.
  - vm_compute. reflexivity.
Defined.

(** X12. Exactly once per day and document in the ledger engine, in a
    sheet whose day row is within the 999 rows read (fewer rows, or the row
    of the day among the first 999), for a token and a storage key that
    are not empty, trimmed and without a comma: after [tallyApply] has
    counted a document that came with a storage key, the day row lists its
    token and holds the count returned; a later [tallyApply] for the same
    token, whatever its source, key or score, changes no cell and, when it
    returns, reports no increment and the same count, provided the reads of
    the token cell in the duplicate check do not throw. *)
Theorem counted_resume_is_not_counted_again
    env sheet customer docType source key token ai w res w1 :
  safeStr (today env) = today env ->
  DayRowInReach (today env) sheet w ->
  cleanPart token ->
  cleanPart key ->
  (forall n s rn, remoteFails env n (SheetsGetTokens TokenCheck s rn) = false) ->
  tallyApply env sheet customer docType source key token ai w = (Ok res, w1) ->
  shouldIncrement res = true ->
  (exists i r, Counted env sheet token w1 i r /\ rowCount r = nextCount res)
  /\ forall customer' source' key' ai',
       ledger (snd (tallyApply env sheet customer' RESUME source' key' token ai' w1))
       = ledger w1
       /\ forall res2,
            fst (tallyApply env sheet customer' RESUME source' key' token ai' w1) = Ok res2 ->
            shouldIncrement res2 = false /\ nextCount res2 = nextCount res.
Proof.
  intros Htoday Hreach Htok Hkey Hread Hrun Hinc.
  destruct (counted_after_increment env _ _ _ _ _ _ _ _ _ _ Htoday Hreach Htok Hkey Hrun Hinc)
    as (i & r & HC & Hc).
  split; [eauto|]. intros customer' source' key' ai'.
  destruct (tallyApply_duplicate env sheet customer' source' key' token ai' w1 i r HC Hread)
    as (o & w2 & Hrun2 & [HL _] & Ho & _).
  rewrite Hrun2. simpl. split; [exact HL|].
  intros res2 ->. destruct Ho as [[e He]|He]; [discriminate|].
  injection He as ->. simpl. split; [reflexivity|exact Hc].
Qed.

Lemma counted_resume_is_not_counted_again_witness :
  ledger (snd (tallyApply (Sample.env "active" Sample.noFaults) "sheet-acme" "cust_acme"
                 RESUME "inbound-r2" "inbound/k3" "hash:doc" (AiSkip too_short)
                 (snd (tallyApply (Sample.env "active" Sample.noFaults) "sheet-acme"
                         "cust_acme" RESUME "resend" "inbound/k2" "hash:doc"
                         (AiReply Sample.reply) (Sample.world [])))))
  = ledger (snd (tallyApply (Sample.env "active" Sample.noFaults) "sheet-acme"
                   "cust_acme" RESUME "resend" "inbound/k2" "hash:doc"
                   (AiReply Sample.reply) (Sample.world []))).
Proof.
  refine (proj1 (proj2
            (counted_resume_is_not_counted_again
               (Sample.env "active" Sample.noFaults) "sheet-acme" "cust_acme" RESUME
               "resend" "inbound/k2" "hash:doc" (AiReply Sample.reply) (Sample.world [])
               {| tallyToday := "2026-11-02"; nextCount := 1;
                  nextNotes := "resend:RESUME"; shouldIncrement := true |}
               (snd (tallyApply (Sample.env "active" Sample.noFaults) "sheet-acme"
                       "cust_acme" RESUME "resend" "inbound/k2" "hash:doc"
                       (AiReply Sample.reply) (Sample.world [])))
               _ _ _ _ _ _ _)
            "cust_acme" "inbound-r2" "inbound/k3" (AiSkip too_short))).
  - reflexivity.
  - exists []. split; [reflexivity|]. left. simpl. lia.
  - repeat split; discriminate.
  - repeat split; discriminate.
  - intros n s rn. reflexivity.
  - vm_compute. reflexivity.
  - reflexivity.
Defined.

(** X13. Without a storage key the token is never stored, in a sheet
    whose day row is within the 999 rows read and when the reads of the
    token cell in the duplicate check do not throw: a RESUME with a token
    that [tallyApply] counts without a key leaves the token cell of the day
    row without the token, so the same document is counted again by the
    next call that returns, which reports the count plus one. *)
Theorem resume_without_storage_key_is_counted_each_time
    env sheet customer source token ai w res w1 :
  safeStr (today env) = today env ->
  DayRowInReach (today env) sheet w ->
  Js.truthy token = true ->
  (forall n s rn, remoteFails env n (SheetsGetTokens TokenCheck s rn) = false) ->
  tallyApply env sheet customer RESUME source EmptyString token ai w = (Ok res, w1) ->
  shouldIncrement res = true ->
  (exists i r,
      DayRowIs (today env) sheet i r w1
      /\ rowCount r = nextCount res
      /\ tokenListed (safeStr (rowTokens r)) token = false)
  /\ forall customer' source' ai' res2 w2,
       tallyApply env sheet customer' RESUME source' EmptyString token ai' w1 = (Ok res2, w2) ->
       shouldIncrement res2 = true /\ nextCount res2 = (nextCount res + 1)%Z.
Proof.
  intros Htoday Hreach Htok Hread Hrun Hinc.
  destruct (tallyApply_resume_cases env _ _ _ _ _ _ _ _ _ Htoday Hreach Htok Hrun)
    as (i & r0 & w0 & _ & _ & _
        & [(Hno & _)|(_ & Hn & Hfresh & r & HD & Hc & _ & _ & _ & Hk)]);
    [congruence|].
  specialize (Hfresh Hread). specialize (Hk eq_refl).
  assert (Hg : rowTokens r = rowTokens r0) by (unfold pointerCells in Hk; congruence).
  assert (Hnot : tokenListed (safeStr (rowTokens r)) token = false) by now rewrite Hg.
  split; [exists i, r; repeat split; assumption|].
  intros customer' source' ai' res2 w2 Hrun2.
  destruct (tallyApply_resume_cases env _ _ _ _ _ _ _ _ _ Htoday
              (DayRowIs_reach _ _ _ _ _ HD) Htok Hrun2)
    as (j & q & wq & HDq & Hq & _ & Hres2).
  assert (j = i /\ q = r) as [-> ->].
  { destruct Hq as [[_ Hq]|(rows & Hl & Hf & _)].
    - eapply DayRowIs_unique; eauto.
    - destruct HD as (rows' & Hl' & Hf' & _). congruence. }
  destruct Hres2 as [(_ & _ & _ & Hlisted)|(Hinc2 & Hn2 & _)]; [congruence|].
  split; [exact Hinc2|]. rewrite Hn2, Hc. reflexivity.
Qed.

Lemma resume_without_storage_key_is_counted_each_time_witness :
  match fst (tallyApply (Sample.env "active" Sample.noFaults) "sheet-acme" "cust_acme" RESUME
               "resend" EmptyString "hash:doc" (AiReply Sample.reply)
               (snd (tallyApply (Sample.env "active" Sample.noFaults) "sheet-acme"
                       "cust_acme" RESUME "resend" EmptyString "hash:doc"
                       (AiReply Sample.reply) (Sample.world [])))) with
  | Ok res2 => shouldIncrement res2 = true /\ nextCount res2 = 2%Z
  | Throw _ => False
  end.
Proof.
  destruct (tallyApply (Sample.env "active" Sample.noFaults) "sheet-acme" "cust_acme" RESUME
              "resend" EmptyString "hash:doc" (AiReply Sample.reply)
              (snd (tallyApply (Sample.env "active" Sample.noFaults) "sheet-acme"
                      "cust_acme" RESUME "resend" EmptyString "hash:doc"
                      (AiReply Sample.reply) (Sample.world []))))
    as [[res2|e] w2] eqn:Hrun2; [|vm_compute in Hrun2; discriminate].
  cbn [fst].
  refine (proj2
            (resume_without_storage_key_is_counted_each_time
               (Sample.env "active" Sample.noFaults) "sheet-acme" "cust_acme"
               "resend" "hash:doc" (AiReply Sample.reply) (Sample.world [])
               {| tallyToday := "2026-11-02"; nextCount := 1;
                  nextNotes := "resend:RESUME"; shouldIncrement := true |}
               (snd (tallyApply (Sample.env "active" Sample.noFaults) "sheet-acme"
                       "cust_acme" RESUME "resend" EmptyString "hash:doc"
                       (AiReply Sample.reply) (Sample.world [])))
               _ _ _ _ _ _)
            "cust_acme" "resend" (AiReply Sample.reply) res2 w2 Hrun2).
  - reflexivity.
  - exists []. split; [reflexivity|]. left. simpl. lia.
  - reflexivity.
  - intros n s rn. reflexivity.
  - vm_compute. reflexivity.
  - reflexivity.
Defined.

(** ** What the ledger engine keeps, whatever the faults *)

Section LedgerKeeping.

Context (env : Env) (R : World -> World -> Prop) `{!PreOrder R} (sheet : string).

Hypothesis R_recorded : forall ev w, onSheet sheet ev -> R w (recorded ev w).

Hypothesis R_updated : forall rn wr w rows,
  ledger w !! sheet = Some rows -> R w (stored sheet (updated rn wr rows) w).

Hypothesis R_appended : forall customer w rows,
  ledger w !! sheet = Some rows ->
  R w (stored sheet (rows ++ [freshRow (today env) customer]) w).

Lemma keeps_share : Keeps R (shareBeforeAccess env sheet).
Proof.
  unfold shareBeforeAccess, logAuthedGoogleEmailFromTokens, ensureSheetSharedOnce.
  keeps_go; now apply R_recorded.
Qed.

Lemma keeps_sheetsGetRows : Keeps R (sheetsGetRows env sheet).
Proof. unfold sheetsGetRows. keeps_go. now apply R_recorded. Qed.

Lemma keeps_sheetsGetTokens site rn : Keeps R (sheetsGetTokens env site sheet rn).
Proof. unfold sheetsGetTokens. keeps_go. now apply R_recorded. Qed.

Lemma keeps_sheetsUpdate rn wr : Keeps R (sheetsUpdate env sheet rn wr).
Proof. unfold sheetsUpdate. keeps_go; [now apply R_recorded|now apply R_updated]. Qed.

Lemma keeps_sheetsAppend customer :
  Keeps R (sheetsAppend env sheet (freshRow (today env) customer)).
Proof. unfold sheetsAppend. keeps_go; [now apply R_recorded|now apply R_appended]. Qed.

Lemma keeps_ensure customer :
  Keeps R (ensureTodayTallyRow env sheet (today env) customer).
Proof.
  unfold ensureTodayTallyRow.
  apply keeps_bind; [typeclasses eauto|apply keeps_share|intros _].
  apply keeps_bind; [typeclasses eauto|apply keeps_sheetsGetRows|intros rows].
  destruct (findIndex _ rows); [apply keeps_ret; typeclasses eauto|].
  apply keeps_bind; [typeclasses eauto|apply keeps_sheetsAppend|intros _].
  apply keeps_bind; [typeclasses eauto|apply keeps_sheetsGetRows|intros rows2].
  apply keeps_ret; typeclasses eauto.
Qed.

Lemma keeps_alreadyProcessedToday customer token :
  Keeps R (alreadyProcessedToday env sheet customer token).
Proof.
  unfold alreadyProcessedToday.
  apply keeps_tryCatch; [typeclasses eauto| |intros ?; apply keeps_ret; typeclasses eauto].
  destruct (_ && _); [|apply keeps_ret; typeclasses eauto].
  apply keeps_bind; [typeclasses eauto|apply keeps_ensure|intros row].
  cbv zeta.
  apply keeps_bind; [typeclasses eauto| |intros ?; apply keeps_ret; typeclasses eauto].
  apply keeps_sheetsGetTokens.
Qed.

Lemma keeps_tallyApply customer docType source key token ai :
  Keeps R (tallyApply env sheet customer docType source key token ai).
Proof.
  unfold tallyApply, tokenAlreadyRecorded, recordPointerAndTokens. cbv zeta.
  apply keeps_bind; [typeclasses eauto|apply keeps_ensure|intros row].
  apply keeps_bind; [typeclasses eauto| |intros has].
  { destruct (_ && _); [|apply keeps_ret; typeclasses eauto].
    apply keeps_tryCatch; [typeclasses eauto| |intros ?; apply keeps_ret; typeclasses eauto].
    apply keeps_bind; [typeclasses eauto|apply keeps_sheetsGetTokens|intros ?].
    apply keeps_ret; typeclasses eauto. }
  destruct has; [apply keeps_ret; typeclasses eauto|].
  repeat (apply keeps_bind; [typeclasses eauto|apply keeps_sheetsUpdate|intros _]).
  apply keeps_bind; [typeclasses eauto| |intros _; apply keeps_ret; typeclasses eauto].
  destruct (_ && _); [|apply keeps_ret; typeclasses eauto].
  repeat (apply keeps_bind; [typeclasses eauto|apply keeps_sheetsUpdate|intros _]).
  apply keeps_bind; [typeclasses eauto|apply keeps_sheetsGetTokens|intros ?].
  apply keeps_bind; [typeclasses eauto|apply keeps_sheetsUpdate|intros _].
  destruct (aiScore ai); [apply keeps_sheetsUpdate|apply keeps_ret; typeclasses eauto].
Qed.

Lemma keeps_safeScoreResume text rubric : Keeps R (safeScoreResume env text rubric).
Proof.
  unfold safeScoreResume.
  apply keeps_bind; [typeclasses eauto| |intros _].
  - apply keeps_issue. intros w. now apply R_recorded.
  - destruct rubric as [block|]; [destruct (Js.truthy block)|];
      apply keeps_ret; typeclasses eauto.
Qed.

Lemma keeps_aiStage args m docType text tooLarge rubric :
  sheetIdOf m = sheet ->
  Keeps R (aiStage env args m docType text tooLarge rubric).
Proof.
  intros Hm. unfold aiStage. rewrite Hm.
  apply keeps_tryCatch; [typeclasses eauto| |intros ?; apply keeps_ret; typeclasses eauto].
  destruct (blockedOf m); [apply keeps_ret; typeclasses eauto|].
  destruct (_ && _); [|apply keeps_ret; typeclasses eauto].
  destruct tooLarge; [apply keeps_ret; typeclasses eauto|].
  apply keeps_bind;
    [typeclasses eauto|apply keeps_alreadyProcessedToday|intros already].
  destruct (_ && _); [|apply keeps_ret; typeclasses eauto].
  destruct already; [apply keeps_ret; typeclasses eauto|].
  cbv zeta.
  apply keeps_bind; [typeclasses eauto| |intros ?; apply keeps_ret; typeclasses eauto].
  apply keeps_safeScoreResume.
Qed.

Lemma keeps_tallyStage args m docType ai :
  sheetIdOf m = sheet ->
  Keeps R (tallyStage env args m docType ai).
Proof.
  intros Hm. unfold tallyStage. cbv zeta. rewrite Hm.
  apply keeps_tryCatch; [typeclasses eauto| |intros ?; apply keeps_ret; typeclasses eauto].
  destruct (blockedOf m); [apply keeps_ret; typeclasses eauto|].
  destruct (_ && _); [apply keeps_ret; typeclasses eauto|].
  destruct (_ && _); [|apply keeps_ret; typeclasses eauto].
  apply keeps_bind; [typeclasses eauto|apply keeps_tallyApply|intros ?].
  apply keeps_ret; typeclasses eauto.
Qed.

End LedgerKeeping.

(** ** Runs of the pipeline: further proofs *)

#[global] Instance Untouched_preorder other : PreOrder (Untouched other).
Proof.
  split.
  - intros w. reflexivity.
  - intros w1 w2 w3 H1 H2. unfold Untouched in *. congruence.
Qed.

#[global] Instance KeepsReach_preorder today sheet : PreOrder (KeepsReach today sheet).
Proof.
  split.
  - intros w H. exact H.
  - intros w1 w2 w3 H1 H2 H. apply H2, H1, H.
Qed.

Section PipelineRuns.

Context (env : Env).

Lemma updated_length rn wr (rows : list Row) : length (updated rn wr rows) = length rows.
Proof. unfold updated. destruct (dataIndex rn); [apply length_alter|done]. Qed.

Lemma reach_stored_appended today sheet s customer rows w :
  safeStr today = today ->
  ledger w !! s = Some rows ->
  KeepsReach today sheet w (stored s (rows ++ [freshRow today customer]) w).
Proof.
  intros Htoday Hl (rows0 & Hl0 & H). unfold DayRowInReach, stored. simpl.
  destruct (decide (s = sheet)) as [->|Hne].
  - assert (rows0 = rows) as -> by congruence.
    exists (rows ++ [freshRow today customer]). rewrite lookup_insert_eq.
    split; [done|]. right.
    destruct H as [Hlen|[i Hi]].
    + rewrite take_ge by (rewrite length_app; cbn [length]; lia).
      destruct (findIndex (isToday today) rows) as [i|] eqn:Hf.
      * rewrite (findIndex_app_found _ _ _ _ Hf). eauto.
      * rewrite (findIndex_app_fresh _ _ _ Hf (isToday_fresh today customer Htoday)). eauto.
    + rewrite take_app. rewrite (findIndex_app_found _ _ _ _ Hi). eauto.
  - exists rows0. now rewrite lookup_insert_ne.
Qed.

Lemma aiStage_keeps_reach args m docType text tooLarge rubric w :
  safeStr (today env) = today env ->
  DayRowInReach (today env) (sheetIdOf m) w ->
  DayRowInReach (today env) (sheetIdOf m)
    (snd (aiStage env args m docType text tooLarge rubric w)).
Proof.
  intros Htoday H.
  refine (keeps_aiStage env (KeepsReach (today env) (sheetIdOf m)) (sheetIdOf m)
            _ _ args m docType text tooLarge rubric eq_refl w H).
  - intros ev w0 _ H0. exact H0.
  - intros customer w0 rows Hl. now apply reach_stored_appended.
Qed.

Lemma emailStage_sameLedger m toEmail docType ai tally :
  Keeps SameLedger (emailStage env m toEmail docType ai tally).
Proof.
  unfold emailStage, sendCustomerText. keeps_go; reflexivity.
Qed.

Lemma sameLedger_of_readOnly (P : Event -> Prop) w w' : ReadOnly P w w' -> ledger w' = ledger w.
Proof. now intros [H _]. Qed.

(** What the stages before the ledger stage leave of the ledger. *)
Lemma ledger_before_scoring args w m rubric w1 w2 :
  resolveCustomer env (toEmailOf args) w = (Ok m, w1) ->
  getCustomerRubric env (customerIdOf m) w1 = (Ok rubric, w2) ->
  ledger w2 = ledger w.
Proof.
  intros Hm Hr.
  pose proof (resolveCustomer_readOnly env (toEmailOf args) w) as [L1 _].
  rewrite Hm in L1.
  pose proof (getCustomerRubric_readOnly env (customerIdOf m) w1) as [L2 _].
  rewrite Hr in L2. simpl in L1, L2. unfold SameLedger in *. congruence.
Qed.

Lemma ledger_after_tally args m toEmail docType text ai tally w4 w5 w6 :
  auditStage env args m toEmail docType text ai w4 = (Ok tt, w5) ->
  emailStage env m toEmail docType ai tally w5 = (Ok tt, w6) ->
  ledger w6 = ledger w4.
Proof.
  intros Hau Hem.
  destruct (auditStage_run env args m toEmail docType text ai w4) as [record Hrec].
  rewrite Hau in Hrec. injection Hrec as ->.
  pose proof (emailStage_sameLedger m toEmail docType ai tally
                (recorded (AuditInsert record) w4)) as H.
  rewrite Hem in H. exact H.
Qed.

(** A confirmed increment comes from [tallyApply]. *)
Lemma tallyStage_increment args m docType ai w3 tally w4 :
  tallyStage env args m docType ai w3 = (Ok tally, w4) ->
  didIncrement tally = true ->
  blockedOf m = false
  /\ Js.truthy (sheetIdOf m) = true
  /\ Js.truthy (customerIdOf m) = true
  /\ exists r,
       tally = TallyDone r
       /\ shouldIncrement r = true
       /\ tallyApply env (sheetIdOf m) (customerIdOf m) docType
            (sourceName (argSource args)) (safeStr (orEmptyDoc (argR2 args)))
            (docTokenOf env args) ai w3 = (Ok r, w4).
Proof.
  unfold tallyStage, tryCatch. cbv zeta.
  destruct (blockedOf m); [intros [= <- <-]; discriminate|].
  destruct (_ && _); [intros [= <- <-]; discriminate|].
  destruct (Js.truthy (sheetIdOf m)); [|intros [= <- <-]; discriminate].
  destruct (Js.truthy (customerIdOf m)); [|intros [= <- <-]; discriminate].
  cbn [andb]. unfold bind, ret.
  destruct (tallyApply env _ _ _ _ _ _ _ w3) as [[r|e] w4'];
    intros [= <- <-]; [|discriminate].
  simpl. intros Hinc. repeat split. exists r. repeat split. exact Hinc.
Qed.

(** The run on a document whose token the day row lists. *)
Lemma duplicate_run args w c i r :
  fst (resolveCustomer env (toEmailOf args) w) = Ok (Some c) ->
  Counted env (sheetIdOf (Some c)) (docTokenOf env args) w i r ->
  (forall n s rn, remoteFails env n (SheetsGetTokens TokenCheck s rn) = false) ->
  counts (snd (processInboundDoc env args w)) = counts w
  /\ emailsAttempted (snd (processInboundDoc env args w)) = emailsAttempted w
  /\ exists res,
       fst (processInboundDoc env args w) = Ok res
       /\ didIncrement (resTally res) = false.
Proof.
  intros Hres HC Hread.
  destruct (processInboundDoc_stages env args w)
    as (raw & m & rubric & ai & tally & w1 & w2 & w3 & w4 & w5 & w6 & H).
  cbv zeta in H. destruct H as (Hraw & Hm & Hr & Hai & Ht & Hau & Hem & Hrun).
  rewrite Hm in Hres. simpl in Hres. injection Hres as ->.
  pose proof (ledger_before_scoring _ _ _ _ _ _ Hm Hr) as L2.
  assert (HC2 : Counted env (sheetIdOf (Some c)) (docTokenOf env args) w2 i r).
  { eapply Counted_same_ledger; [|exact HC]. exact L2. }
  assert (L3 : ledger w3 = ledger w2).
  { destruct HC2 as (rows & Hl & Hf & _).
    pose proof (aiStage_existing env args (Some c)
                  (docTypeOf args (capExtracted env raw)) (capExtracted env raw)
                  (extractedTooLargeOf env raw) rubric w2 rows i Hl Hf) as H.
    now rewrite Hai in H. }
  assert (HC3 : Counted env (sheetIdOf (Some c)) (docTokenOf env args) w3 i r)
    by (eapply Counted_same_ledger; eauto).
  destruct (tallyStage_duplicate env args (Some c)
              (docTypeOf args (capExtracted env raw)) ai w3 i r HC3 Hread) as [S4 D4].
  rewrite Ht in S4, D4. simpl in S4. specialize (D4 tally eq_refl).
  pose proof (emails_before_dispatch env args w raw (Some c) rubric ai tally
                w1 w2 w3 w4 w5 Hm Hr Hai Ht Hau) as E5.
  rewrite emailStage_without_increment in Hem by exact D4. injection Hem as <-.
  destruct (auditStage_run env args (Some c) (toEmailOf args)
              (docTypeOf args (capExtracted env raw)) (capExtracted env raw) ai w4)
    as [record Hrec].
  rewrite Hau in Hrec. injection Hrec as Hw5.
  rewrite Hrun. simpl. split; [|split].
  - unfold counts. rewrite Hw5. simpl.
    unfold SameOn in S4. rewrite S4, L3, L2. reflexivity.
  - exact E5.
  - eexists. split; [reflexivity|exact D4].
Qed.

(** After a run that reports a confirmed increment, the day row of the
    tenant lists the token of the document. *)
Lemma counted_after_run args w res w' c :
  safeStr (today env) = today env ->
  processInboundDoc env args w = (Ok res, w') ->
  didIncrement (resTally res) = true ->
  resolvedTenant env args w = Some c ->
  DayRowInReach (today env) (sheetIdOf (Some c)) w ->
  cleanPart (docTokenOf env args) ->
  cleanPart (safeStr (orEmptyDoc (argR2 args))) ->
  exists i r, Counted env (sheetIdOf (Some c)) (docTokenOf env args) w' i r.
Proof.
  intros Htoday Hrun1 Hinc Hc Hreach Htok Hkey.
  destruct (processInboundDoc_stages env args w)
    as (raw & m & rubric & ai & tally & w1 & w2 & w3 & w4 & w5 & w6 & H).
  cbv zeta in H. destruct H as (Hraw & Hm & Hr & Hai & Ht & Hau & Hem & Hrun).
  rewrite Hrun in Hrun1. injection Hrun1 as <- <-. simpl in Hinc.
  rewrite (resolved_stage env args w m w1 Hm) in Hc. subst m.
  pose proof (ledger_before_scoring _ _ _ _ _ _ Hm Hr) as L2.
  assert (R2 : DayRowInReach (today env) (sheetIdOf (Some c)) w2).
  { destruct Hreach as (rows & Hl & H). exists rows. now rewrite L2. }
  pose proof (aiStage_keeps_reach args (Some c) (docTypeOf args (capExtracted env raw))
                (capExtracted env raw) (extractedTooLargeOf env raw) rubric w2 Htoday R2)
    as R3.
  rewrite Hai in R3. simpl in R3.
  destruct (tallyStage_increment _ _ _ _ _ _ _ Ht Hinc) as (_ & _ & _ & r & _ & Hr1 & Happ).
  destruct (counted_after_increment env _ _ _ _ _ _ _ _ _ _ Htoday R3 Htok Hkey Happ Hr1)
    as (i & q & HC & _).
  exists i, q. eapply Counted_same_ledger; [|exact HC].
  eapply ledger_after_tally; eauto.
Qed.

End PipelineRuns.

(** X14. Exactly once per tenant, day and document, in a tally sheet
    whose day row is within the 999 rows read, for a document token and a
    storage key that are not empty, trimmed and without a comma: after a
    run that reported a confirmed increment for a document stored under a
    key, a later run on the same bytes for the same tenant changes no
    count, sends no message and reports no increment, whatever its source,
    file name or storage key, provided the reads of the token cell in the
    duplicate check of [tallyApply] do not throw. *)
Theorem counted_document_is_counted_once env args args' w res w' c :
  safeStr (today env) = today env ->
  (forall n s rn, remoteFails env n (SheetsGetTokens TokenCheck s rn) = false) ->
  processInboundDoc env args w = (Ok res, w') ->
  didIncrement (resTally res) = true ->
  resolvedTenant env args w = Some c ->
  DayRowInReach (today env) (sheetIdOf (Some c)) w ->
  cleanPart (docTokenOf env args) ->
  cleanPart (safeStr (orEmptyDoc (argR2 args))) ->
  argBuffer args' = argBuffer args ->
  fst (resolveCustomer env (toEmailOf args') w') = Ok (Some c) ->
  counts (snd (processInboundDoc env args' w')) = counts w'
  /\ emailsAttempted (snd (processInboundDoc env args' w')) = emailsAttempted w'
  /\ exists res',
       fst (processInboundDoc env args' w') = Ok res'
       /\ didIncrement (resTally res') = false.
Proof.
  intros Htoday Hread Hrun Hinc Hc Hreach Htok Hkey Hbuf Hres.
  destruct (counted_after_run env args w res w' c Htoday Hrun Hinc Hc Hreach Htok Hkey)
    as (i & r & HC).
  apply (duplicate_run env args' w' c i r Hres); [|exact Hread].
  unfold docTokenOf in *. now rewrite Hbuf.
Qed.

Lemma counted_document_is_counted_once_witness :
  counts (snd (processInboundDoc (Sample.env "active" Sample.noFaults)
                 (Sample.args None None)
                 (snd (processInboundDoc (Sample.env "active" Sample.noFaults)
                         (Sample.args (Some Sample.resumeText) None) (Sample.world [])))))
  = counts (snd (processInboundDoc (Sample.env "active" Sample.noFaults)
                   (Sample.args (Some Sample.resumeText) None) (Sample.world []))).
Proof.
  destruct (processInboundDoc (Sample.env "active" Sample.noFaults)
              (Sample.args (Some Sample.resumeText) None) (Sample.world []))
    as [[res|e] w'] eqn:Hrun; [|vm_compute in Hrun; discriminate].
  cbn [snd].
  refine (proj1 (counted_document_is_counted_once
                   (Sample.env "active" Sample.noFaults)
                   (Sample.args (Some Sample.resumeText) None) (Sample.args None None)
                   (Sample.world []) res w' (Sample.acme "active")
                   _ _ Hrun _ _ _ _ _ _ _)).
  - reflexivity.
  - intros n s rn. reflexivity.
  - vm_compute in Hrun. injection Hrun as <- _. reflexivity.
  - vm_compute. reflexivity.
  - exists []. split; [reflexivity|]. left. simpl. lia.
  - repeat split; discriminate.
  - repeat split; discriminate.
  - reflexivity.
  - vm_compute. reflexivity.
Defined.

Section PipelineFacts.

Context (env : Env).

Lemma resolveCustomer_some_truthy toEmail w c w1 :
  resolveCustomer env toEmail w = (Ok (Some c), w1) -> Js.truthy toEmail = true.
Proof.
  unfold resolveCustomer. destruct (Js.truthy toEmail); [done|]. discriminate.
Qed.

Lemma customerIdOf_truthy m : Js.truthy (customerIdOf m) = true -> exists c, m = Some c.
Proof. destruct m as [c|]; [eauto|discriminate]. Qed.

Lemma silent_of_readOnly (P : Event -> Prop) p w w' :
  (forall ev, P ev -> p ev = false) -> ReadOnly P w w' -> Silent p w w'.
Proof. intros HP [_ HI]. eapply Issues_silent; eauto. Qed.

Lemma issues_onSheet_recorded sheet ev w :
  onSheet sheet ev -> Issues (onSheet sheet) w (recorded ev w).
Proof. intros H. now apply recorded_issues. Qed.

End PipelineFacts.

(** X15. Tenant isolation in the ledger of tally sheets: a run reads
    and writes no tally sheet but the one of the tenant it resolved. Every
    spreadsheet or sharing call that names a sheet names that one, and
    every other tally sheet holds afterwards what it held before, whatever
    the faults. (The read of the customer directory in the master sheet is
    the lookup of the tenant itself; it names no tally sheet.) *)
Theorem run_touches_only_the_tenant_sheet env args w :
  Issues (onSheet (sheetIdOf (resolvedTenant env args w)))
    w (snd (processInboundDoc env args w))
  /\ forall other,
       other <> sheetIdOf (resolvedTenant env args w) ->
       ledger (snd (processInboundDoc env args w)) !! other = ledger w !! other.
Proof.
  destruct (processInboundDoc_stages env args w)
    as (raw & m & rubric & ai & tally & w1 & w2 & w3 & w4 & w5 & w6 & H).
  cbv zeta in H. destruct H as (Hraw & Hm & Hr & Hai & Ht & Hau & Hem & Hrun).
  rewrite (resolved_stage env args w m w1 Hm). rewrite Hrun. cbn [snd].
  set (sheet := sheetIdOf m).
  pose proof (resolveCustomer_readOnly env (toEmailOf args) w) as [L1 I1].
  rewrite Hm in L1, I1.
  pose proof (getCustomerRubric_readOnly env (customerIdOf m) w1) as [L2 I2].
  rewrite Hr in L2, I2. cbn [snd] in *. unfold SameLedger in *.
  destruct (auditStage_run env args m (toEmailOf args)
              (docTypeOf args (capExtracted env raw)) (capExtracted env raw) ai w4)
    as [record Hrec].
  rewrite Hau in Hrec. injection Hrec as ->.
  pose proof (emailStage_sameLedger env m (toEmailOf args)
                (docTypeOf args (capExtracted env raw)) ai tally (recorded (AuditInsert record) w4)) as L6.
  pose proof (issues_emailStage env m (toEmailOf args)
                (docTypeOf args (capExtracted env raw)) ai tally (recorded (AuditInsert record) w4)) as I6.
  rewrite Hem in L6, I6. cbn [snd] in *. unfold SameLedger in *.
  split.
  - pose proof (keeps_aiStage env (Issues (onSheet sheet)) sheet
                  (fun ev w0 H => recorded_issues _ ev w0 H)
                  (fun customer w0 rows _ => stored_issues _ sheet _ w0)
                  args m (docTypeOf args (capExtracted env raw)) (capExtracted env raw)
                  (extractedTooLargeOf env raw) rubric eq_refl w2) as I3.
    pose proof (keeps_tallyStage env (Issues (onSheet sheet)) sheet
                  (fun ev w0 H => recorded_issues _ ev w0 H)
                  (fun rn wr w0 rows _ => stored_issues _ sheet _ w0)
                  (fun customer w0 rows _ => stored_issues _ sheet _ w0)
                  args m (docTypeOf args (capExtracted env raw)) ai eq_refl w3) as I4.
    rewrite Hai in I3. rewrite Ht in I4. cbn [snd] in *.
    eapply Issues_trans; [eapply Issues_mono; [|exact I1]; now intros ev ->|].
    eapply Issues_trans; [eapply Issues_mono; [|exact I2]; now intros ev ->|].
    eapply Issues_trans; [exact I3|].
    eapply Issues_trans; [exact I4|].
    eapply Issues_trans; [exact (recorded_issues _ (AuditInsert record) w4 I)|].
    eapply Issues_mono; [|exact I6]. intros ev Hev. now destruct ev.
  - intros other Hne.
    assert (Hrec0 : forall ev w0, onSheet sheet ev -> Untouched other w0 (recorded ev w0))
      by (intros; reflexivity).
    assert (Hst : forall rows' w0, Untouched other w0 (stored sheet rows' w0)).
    { intros rows' w0. unfold Untouched, stored. simpl. now apply lookup_insert_ne. }
    pose proof (keeps_aiStage env (Untouched other) sheet Hrec0
                  (fun customer w0 rows _ => Hst _ w0)
                  args m (docTypeOf args (capExtracted env raw)) (capExtracted env raw)
                  (extractedTooLargeOf env raw) rubric eq_refl w2) as U3.
    pose proof (keeps_tallyStage env (Untouched other) sheet Hrec0
                  (fun rn wr w0 rows _ => Hst _ w0)
                  (fun customer w0 rows _ => Hst _ w0)
                  args m (docTypeOf args (capExtracted env raw)) ai eq_refl w3) as U4.
    rewrite Hai in U3. rewrite Ht in U4. cbn [snd] in *. unfold Untouched in *.
    rewrite L6. cbn [ledger recorded]. rewrite U4, U3, L2, L1. reflexivity.
Qed.

(** X16. A document whose recipient resolves to no tenant: the run
    issues no ledger call and leaves the ledger as it was, reports no
    increment and no match, sends no message, and still records exactly one
    audit insert. *)
Theorem unresolved_tenant_is_audited_only env args w :
  resolvedTenant env args w = None ->
  Issues (fun ev => ledgerCall ev = false) w (snd (processInboundDoc env args w))
  /\ ledger (snd (processInboundDoc env args w)) = ledger w
  /\ emailsAttempted (snd (processInboundDoc env args w)) = emailsAttempted w
  /\ auditInserts (snd (processInboundDoc env args w)) = auditInserts w + 1
  /\ exists res,
       fst (processInboundDoc env args w) = Ok res
       /\ resMatchFound res = false
       /\ resCustomerId res = EmptyString
       /\ resBlocked res = false
       /\ didIncrement (resTally res) = false.
Proof.
  intros Hnone.
  destruct (processInboundDoc_stages env args w)
    as (raw & m & rubric & ai & tally & w1 & w2 & w3 & w4 & w5 & w6 & H).
  cbv zeta in H. destruct H as (Hraw & Hm & Hr & Hai & Ht & Hau & Hem & Hrun).
  rewrite (resolved_stage env args w m w1 Hm) in Hnone. subst m.
  pose proof (resolveCustomer_readOnly env (toEmailOf args) w) as R1.
  rewrite Hm in R1.
  pose proof (getCustomerRubric_readOnly env (customerIdOf None) w1) as R2.
  rewrite Hr in R2. cbn [snd] in *.
  assert (R3 : ReadOnly (fun ev => isScoreCall ev = true) w2 w3).
  { revert Hai. unfold aiStage, tryCatch, alreadyProcessedToday.
    change (blockedOf None) with false. cbv iota.
    destruct (_ && _); [|intros [= _ <-]; reflexivity].
    destruct (extractedTooLargeOf env raw); [intros [= _ <-]; reflexivity|].
    change (Js.truthy (sheetIdOf None)) with false. cbn [andb].
    unfold bind, tryCatch, ret. cbv beta iota zeta.
    destruct (_ && _); [|intros [= _ <-]; reflexivity].
    match goal with
    | |- context [safeScoreResume env ?t ?r w2] =>
        pose proof (safeScoreResume_readOnly env t r w2) as HS;
        destruct (safeScoreResume env t r w2) as [[reply|e] w2']
    end; cbn [snd] in HS; intros [= _ <-];
      (destruct HS as [HL HI]; split; [exact HL|];
       eapply Issues_mono; [|exact HI]; now intros ev ->). }
  assert (T4 : w4 = w3 /\ didIncrement tally = false).
  { revert Ht. unfold tallyStage, tryCatch. cbv zeta.
    change (blockedOf None) with false. cbv iota.
    change (Js.truthy (sheetIdOf None)) with false. cbn [andb].
    destruct (_ && _); unfold ret; intros [= <- <-]; now split. }
  destruct T4 as [-> Hno].
  destruct (auditStage_run env args None (toEmailOf args)
              (docTypeOf args (capExtracted env raw)) (capExtracted env raw) ai w3)
    as [record Hrec].
  rewrite Hau in Hrec. injection Hrec as ->.
  rewrite emailStage_without_increment in Hem by exact Hno. injection Hem as <-.
  rewrite Hrun. cbn [fst snd].
  assert (I : Issues (fun ev => ledgerCall ev = false /\ isEmailSend ev = false
                                /\ isAuditInsert ev = false) w w3).
  { eapply Issues_trans; [eapply Issues_mono; [|exact (proj2 R1)]; now intros ev ->|].
    eapply Issues_trans; [eapply Issues_mono; [|exact (proj2 R2)]; now intros ev ->|].
    eapply Issues_mono; [|exact (proj2 R3)]. intros ev Hev. now destruct ev. }
  assert (L : ledger w3 = ledger w).
  { destruct R1 as [L1 _], R2 as [L2 _], R3 as [L3 _]. unfold SameLedger in *. congruence. }
  split.
  { eapply Issues_trans; [eapply Issues_mono; [|exact I]; now intros ev [? _]|].
    now apply recorded_issues. }
  split; [exact L|].
  split.
  { unfold emailsAttempted. rewrite countEvents_recorded. simpl.
    apply Silent_count. eapply Issues_silent; [|exact I]. now intros ev (_ & ? & _). }
  split.
  { unfold auditInserts. rewrite countEvents_recorded. simpl.
    rewrite (Silent_count isAuditInsert w w3); [lia|].
    eapply Issues_silent; [|exact I]. now intros ev (_ & _ & ?). }
  eexists. split; [reflexivity|]. repeat split. exact Hno.
Qed.

Lemma unresolved_tenant_is_audited_only_witness :
  ledger (snd (processInboundDoc (Sample.env "active" Sample.noFaults)
                 {| argSource := SrcInboundR2; argFilename := "cv.txt";
                    argBuffer := []; argExtractedText := Some Sample.resumeText;
                    argDocType := None; argToEmail := Some "nobody@else.test";
                    argR2 := None |} (Sample.world [])))
  = ledger (Sample.world []).
Proof.
  refine (proj1 (proj2 (unresolved_tenant_is_audited_only _ _ _ _))).
  vm_compute. reflexivity.
Defined.

Section Dispatch.

Context (env : Env).

Lemma tallyApply_non_resume_no_increment sheet customer source key token ai w res w' :
  tallyApply env sheet customer NON_RESUME source key token ai w = (Ok res, w') ->
  shouldIncrement res = false.
Proof.
  intros Hrun. destruct (shouldIncrement res) eqn:E; [|reflexivity].
  pose proof (tallyApply_increment_is_resume env _ _ _ _ _ _ _ _ _ _ Hrun E).
  discriminate.
Qed.

Lemma tallyStage_non_resume args m ai w tally w' :
  tallyStage env args m NON_RESUME ai w = (Ok tally, w') -> didIncrement tally = false.
Proof.
  intros Ht. destruct (didIncrement tally) eqn:E; [|reflexivity].
  destruct (tallyStage_increment env _ _ _ _ _ _ _ Ht E) as (_ & _ & _ & r & _ & Hr & Happ).
  now rewrite (tallyApply_non_resume_no_increment _ _ _ _ _ _ _ _ _ Happ) in Hr.
Qed.

Lemma aiStage_non_resume args m text tooLarge rubric w :
  aiStage env args m NON_RESUME text tooLarge rubric w
  = (Ok (AiSkip (if blockedOf m then billing_block else non_resume)), w).
Proof.
  unfold aiStage, tryCatch. destruct (blockedOf m); [reflexivity|].
  rewrite (bool_decide_eq_false_2 (NON_RESUME = RESUME)) by discriminate. reflexivity.
Qed.

(** The audit stage records one insert that carries the facts of the
    run. *)
Lemma auditStage_record args m toEmail docType text ai w :
  auditStage env args m toEmail docType text ai w
  = (Ok tt,
     recorded
       (AuditInsert
          (insertParams
             {| auditSource := sourceName (argSource args);
                auditToEmail := toEmail;
                auditCustomerId := customerIdOf m;
                auditResolvedCustomerId := customerIdOf m;
                auditMatchFound := bool_decide (is_Some m);
                auditBillingStatus := billingStatusOf m;
                auditBlockedReason := blockedReasonOf m;
                auditFilename := argFilename args;
                auditR2Bucket := option_map r2Bucket (argR2 args);
                auditR2Key := option_map r2Key (argR2 args);
                auditDocType := docType;
                auditExtractedChars := String.length text;
                auditTextPreview := Js.slice0 400 text;
                auditAiScore := aiScore ai;
                auditAi := ai |})) w).
Proof. unfold auditStage, saveInboundDocToDb. apply issue_swallowed_run. Qed.

(** No stage but the audit stage inserts into the audit log. *)
Lemma audit_silent_stages args w raw m rubric ai tally w1 w2 w3 w4 :
  resolveCustomer env (toEmailOf args) w = (Ok m, w1) ->
  getCustomerRubric env (customerIdOf m) w1 = (Ok rubric, w2) ->
  aiStage env args m (docTypeOf args (capExtracted env raw)) (capExtracted env raw)
    (extractedTooLargeOf env raw) rubric w2 = (Ok ai, w3) ->
  tallyStage env args m (docTypeOf args (capExtracted env raw)) ai w3 = (Ok tally, w4) ->
  List.filter isAuditInsert (trace w4) = List.filter isAuditInsert (trace w).
Proof.
  intros Hm Hr Hai Ht.
  pose proof (resolveCustomer_readOnly env (toEmailOf args) w) as [_ I1].
  rewrite Hm in I1.
  pose proof (getCustomerRubric_readOnly env (customerIdOf m) w1) as [_ I2].
  rewrite Hr in I2.
  pose proof (issues_aiStage env (fun ev => isAuditInsert ev = false) args m
                (docTypeOf args (capExtracted env raw)) (capExtracted env raw)
                (extractedTooLargeOf env raw) rubric
                ltac:(intros ev Hev; now destruct ev) eq_refl w2) as I3.
  rewrite Hai in I3.
  pose proof (issues_tallyStage env (fun ev => isAuditInsert ev = false) args m
                (docTypeOf args (capExtracted env raw)) ai
                ltac:(intros ev Hev; now destruct ev) w3) as I4.
  rewrite Ht in I4. cbn [snd] in *.
  change (Silent isAuditInsert w w4).
  eapply Issues_silent; [intros ev Hev; exact Hev|].
  eapply Issues_trans; [eapply Issues_mono; [|exact I1]; now intros ev ->|].
  eapply Issues_trans; [eapply Issues_mono; [|exact I2]; now intros ev ->|].
  eapply Issues_trans; [exact I3|exact I4].
Qed.

End Dispatch.

(** X17. A document that is not a RESUME is never scored and never
    notified: the run issues no scorer call, sends no message and reports
    no increment, and its scoring result is the skip [non_resume] or, for a
    blocked tenant, [billing_block]. *)
Theorem non_resume_is_neither_scored_nor_notified env args w raw :
  extractedTextRawOf env args = Ok raw ->
  docTypeOf args (capExtracted env raw) = NON_RESUME ->
  scoreCalls (snd (processInboundDoc env args w)) = scoreCalls w
  /\ emailsAttempted (snd (processInboundDoc env args w)) = emailsAttempted w
  /\ exists res,
       fst (processInboundDoc env args w) = Ok res
       /\ resDocType res = NON_RESUME
       /\ resAi res = AiSkip (if resBlocked res then billing_block else non_resume)
       /\ didIncrement (resTally res) = false.
Proof.
  intros Hraw0 Hdoc.
  destruct (processInboundDoc_stages env args w)
    as (raw' & m & rubric & ai & tally & w1 & w2 & w3 & w4 & w5 & w6 & H).
  cbv zeta in H. destruct H as (Hraw & Hm & Hr & Hai & Ht & Hau & Hem & Hrun).
  assert (raw' = raw) as -> by congruence.
  pose proof (emails_before_dispatch env args w raw m rubric ai tally w1 w2 w3 w4 w5
                Hm Hr Hai Ht Hau) as E5.
  pose proof (scoreCalls_outside_scoring env args w raw m rubric ai tally
                w1 w2 w3 w4 w5 w6 Hm Hr Ht Hau Hem) as [S2 S6].
  rewrite Hdoc in *.
  rewrite aiStage_non_resume in Hai. injection Hai as <- <-.
  pose proof (tallyStage_non_resume env _ _ _ _ _ _ Ht) as Hno.
  rewrite emailStage_without_increment in Hem by exact Hno. injection Hem as <-.
  rewrite Hrun. cbn [fst snd]. split; [congruence|]. split; [exact E5|].
  eexists. split; [reflexivity|]. repeat split. exact Hno.
Qed.

Lemma non_resume_is_neither_scored_nor_notified_witness :
  scoreCalls (snd (processInboundDoc (Sample.env "active" Sample.noFaults)
                     (Sample.args (Some "Invoice 4411: amount due 120.00, payment in 30 days")
                        None)
                     (Sample.world [])))
  = scoreCalls (Sample.world []).
Proof.
  refine (proj1 (non_resume_is_neither_scored_nor_notified
                   (Sample.env "active" Sample.noFaults)
                   (Sample.args (Some "Invoice 4411: amount due 120.00, payment in 30 days")
                      None)
                   (Sample.world [])
                   "Invoice 4411: amount due 120.00, payment in 30 days" _ _)).
  - reflexivity.
  - vm_compute. reflexivity.
Defined.

(** X18. A confirmed increment is notified exactly once: when a run
    reports [shouldIncrement] and the mail service is there, the run ends
    with the audit insert followed by one message to the recipient address,
    a scored result when the scorer answered without skip or error and a
    receipt otherwise; the document was a RESUME of a matched tenant that is
    not blocked. *)
Theorem confirmed_increment_sends_one_message env args w res w' :
  processInboundDoc env args w = (Ok res, w') ->
  didIncrement (resTally res) = true ->
  emailServiceAvailable env = true ->
  (exists record earlier,
      trace w'
      = EmailSend (resToEmail res)
          (if aiSkippedTruthy (resAi res) || aiErrorTruthy (resAi res)
           then Receipt else ScoredResult (aiScore (resAi res)))
        :: AuditInsert record :: earlier)
  /\ emailsAttempted w' = emailsAttempted w + 1
  /\ resDocType res = RESUME
  /\ resMatchFound res = true
  /\ resBlocked res = false.
Proof.
  intros Hrun1 Hinc Hmail.
  destruct (processInboundDoc_stages env args w)
    as (raw & m & rubric & ai & tally & w1 & w2 & w3 & w4 & w5 & w6 & H).
  cbv zeta in H. destruct H as (Hraw & Hm & Hr & Hai & Ht & Hau & Hem & Hrun).
  rewrite Hrun in Hrun1. injection Hrun1 as <- <-.
  cbn [resTally buildResult] in Hinc.
  cbn [resToEmail resAi resDocType resMatchFound resBlocked buildResult].
  destruct (tallyStage_increment env _ _ _ _ _ _ _ Ht Hinc)
    as (Hblocked & _ & Hcust & r & _ & Hr1 & Happ).
  destruct (customerIdOf_truthy _ Hcust) as [c ->].
  pose proof (tallyApply_increment_is_resume env _ _ _ _ _ _ _ _ _ _ Happ Hr1) as Hdoc.
  pose proof (resolveCustomer_some_truthy env _ _ _ _ Hm) as Hto.
  pose proof (emails_before_dispatch env args w raw (Some c) rubric ai tally
                w1 w2 w3 w4 w5 Hm Hr Hai Ht Hau) as E5.
  rewrite auditStage_record in Hau.
  apply (f_equal snd) in Hau. cbn [snd] in Hau. subst w5.
  revert Hem. unfold emailStage, tryCatch. cbv zeta.
  rewrite Hinc, Hto, Hblocked, Hdoc.
  rewrite (bool_decide_eq_true_2 (is_Some (Some c))) by eauto.
  rewrite (bool_decide_eq_true_2 (RESUME = RESUME)) by reflexivity.
  cbn [negb andb]. rewrite andb_false_r. cbv iota.
  rewrite sendCustomerText_run, Hmail.
  rewrite negb_andb, !negb_involutive.
  intros [= <-]. split; [|split; [|split; [|split]]].
  - eexists _, _. cbn [trace recorded]. reflexivity.
  - unfold emailsAttempted in *. rewrite countEvents_recorded in E5.
    rewrite !countEvents_recorded. cbn [isEmailSend] in *. lia.
  - reflexivity.
  - reflexivity.
  - reflexivity.
Qed.

Lemma confirmed_increment_sends_one_message_witness :
  emailsAttempted (snd (processInboundDoc (Sample.env "active" Sample.noFaults)
                          (Sample.args (Some Sample.resumeText) None) (Sample.world [])))
  = emailsAttempted (Sample.world []) + 1.
Proof.
  destruct (processInboundDoc (Sample.env "active" Sample.noFaults)
              (Sample.args (Some Sample.resumeText) None) (Sample.world []))
    as [[res|e] w'] eqn:Hrun; [|vm_compute in Hrun; discriminate].
  cbn [snd].
  refine (proj1 (proj2 (confirmed_increment_sends_one_message
                          (Sample.env "active" Sample.noFaults)
                          (Sample.args (Some Sample.resumeText) None) (Sample.world [])
                          res w' Hrun _ _))).
  - vm_compute in Hrun. injection Hrun as <- _. reflexivity.
  - reflexivity.
Defined.

(** X19. Every run is audited exactly once, whatever the faults: a
    run returns a result and issues one insert into the audit log, after
    the ledger stage. The row inserted holds the fields of the result
    returned as the INSERT writes them: each text trimmed, and null when
    that leaves nothing. *)
Theorem every_run_is_audited_once env args w :
  exists res row,
    fst (processInboundDoc env args w) = Ok res
    /\ List.filter isAuditInsert (trace (snd (processInboundDoc env args w)))
       = AuditInsert row :: List.filter isAuditInsert (trace w)
    /\ colSource row = sourceName (resSource res)
    /\ colToEmail row = sqlText (resToEmail res)
    /\ colCustomerId row = sqlText (resCustomerId res)
    /\ colResolvedCustomerId row = sqlText (resResolvedCustomerId res)
    /\ colMatchFound row = resMatchFound res
    /\ colBillingStatus row = sqlText (resBillingStatus res)
    /\ colBlockedReason row = sqlText (orEmpty (resBlockedReason res))
    /\ colFilename row = sqlText (argFilename args)
    /\ colR2Key row = sqlText (orEmpty (resR2Key res))
    /\ colDocType row = Some (docTypeName (resDocType res))
    /\ colTextPreview row = sqlText (resTextPreview res)
    /\ colAiScore row = aiScore (resAi res)
    /\ colAiJson row = resAi res.
Proof.
  destruct (processInboundDoc_stages env args w)
    as (raw & m & rubric & ai & tally & w1 & w2 & w3 & w4 & w5 & w6 & H).
  cbv zeta in H. destruct H as (Hraw & Hm & Hr & Hai & Ht & Hau & Hem & Hrun).
  pose proof (audit_silent_stages env args w raw m rubric ai tally w1 w2 w3 w4
                Hm Hr Hai Ht) as S4.
  rewrite auditStage_record in Hau.
  apply (f_equal snd) in Hau. cbn [snd] in Hau.
  pose proof (issues_emailStage env m (toEmailOf args)
                (docTypeOf args (capExtracted env raw)) ai tally w5) as I6.
  rewrite Hem in I6. cbn [snd] in I6.
  assert (S6 : Silent isAuditInsert w5 w6).
  { eapply Issues_silent; [|exact I6]. intros ev Hev. now destruct ev. }
  rewrite Hrun. cbn [fst snd].
  eexists _, _. split; [reflexivity|]. split.
  { rewrite S6, <- Hau. cbn [trace recorded List.filter isAuditInsert]. now rewrite S4. }
  cbn [insertParams buildResult colSource colToEmail colCustomerId colResolvedCustomerId
       colMatchFound colBillingStatus colBlockedReason colFilename colR2Key colDocType
       colTextPreview colAiScore colAiJson auditSource auditToEmail auditCustomerId
       auditResolvedCustomerId auditMatchFound auditBillingStatus auditBlockedReason
       auditFilename auditR2Key auditDocType auditTextPreview auditAiScore auditAi
       resSource resToEmail resCustomerId resResolvedCustomerId resMatchFound
       resBillingStatus resBlockedReason resR2Key resDocType resTextPreview resAi].
  split; [now destruct (argSource args)|].
  do 7 (split; [reflexivity|]).
  split; [destruct (argR2 args) as [[b k]|]; [now destruct k|reflexivity]|].
  split; [now destruct (docTypeOf args (capExtracted env raw))|].
  repeat split.
Qed.

(** ** The master sheet: proofs *)

Section MasterSheet.

Lemma columnNumberFrom_acc acc s :
  columnNumberFrom acc s = acc * 26 ^ String.length s + columnNumberFrom 0 s.
Proof.
  revert acc. induction s as [|c r IH]; intros acc; simpl; [lia|].
  rewrite (IH (acc * 26 + (Js.code c - 64))), (IH (Js.code c - 64)). lia.
Qed.

Lemma code_of_letter m : m < 26 -> Js.code (ascii_of_nat (65 + m)) = 65 + m.
Proof. intros H. unfold Js.code. apply nat_ascii_embedding. lia. Qed.

Lemma columnLetterLoop_number fuel n s :
  n <= fuel ->
  columnNumber (columnLetterLoop fuel n s) = n * 26 ^ String.length s + columnNumber s.
Proof.
  revert n s. induction fuel as [|fuel IH]; intros n s Hn; cbn [columnLetterLoop].
  - assert (n = 0) as -> by lia. lia.
  - destruct (Nat.ltb_spec 0 n) as [Hpos|Hz]; [|assert (n = 0) as -> by lia; lia].
    cbv zeta.
    pose proof (Nat.div_mod_eq (n - 1) 26) as Hdm.
    pose proof (Nat.mod_upper_bound (n - 1) 26 ltac:(lia)) as Hm.
    rewrite IH by lia.
    unfold columnNumber at 1. cbn [columnNumberFrom String.length].
    rewrite columnNumberFrom_acc, code_of_letter by exact Hm.
    fold (columnNumber s).
    set (q := (n - 1) / 26) in *. set (m := (n - 1) mod 26) in *.
    rewrite Nat.pow_succ_r'.
    replace (0 * 26 + (65 + m - 64)) with (m + 1) by lia.
    assert (Hn1 : n = 26 * q + m + 1) by lia.
    clearbody q m. rewrite Hn1. generalize (26 ^ String.length s). intros p. nia.
Qed.

Lemma columnLetterLoop_upper fuel n s :
  allChars Js.isUpper s = true -> allChars Js.isUpper (columnLetterLoop fuel n s) = true.
Proof.
  revert n s. induction fuel as [|fuel IH]; intros n s Hs; cbn [columnLetterLoop];
    [exact Hs|].
  destruct (0 <? n); [|exact Hs]. cbv zeta. apply IH. cbn [allChars].
  rewrite Hs, andb_true_r. unfold Js.isUpper.
  pose proof (Nat.mod_upper_bound (n - 1) 26 ltac:(lia)) as Hm.
  rewrite code_of_letter by exact Hm.
  apply andb_true_iff. split; apply Nat.leb_le; lia.
Qed.

Lemma columnLetter_number n : columnNumber (columnLetter n) = n.
Proof.
  unfold columnLetter. rewrite columnLetterLoop_number by lia.
  cbn [String.length Nat.pow]. unfold columnNumber. cbn [columnNumberFrom]. lia.
Qed.

Lemma findIndex_lt {A} (p : A -> bool) (l : list A) i :
  findIndex p l = Some i -> i < length l.
Proof.
  intros H. destruct (findIndex_Some _ _ _ H) as (x & Hx & _).
  now apply lookup_lt_Some in Hx.
Qed.

Lemma findIndex_first {A} (p : A -> bool) (pre : list A) x post :
  Forall (fun y => p y = false) pre -> p x = true ->
  findIndex p (pre ++ x :: post) = Some (length pre).
Proof.
  intros Hpre Hx. induction Hpre as [|y pre Hy _ IH]; simpl; [now rewrite Hx|].
  now rewrite Hy, IH.
Qed.

Lemma headerIndex_name headers a b i :
  headerIndex headers a = Some i -> headerIndex headers b = Some i ->
  Js.toLowerCase a = Js.toLowerCase b.
Proof.
  unfold headerIndex. intros Ha Hb.
  destruct (findIndex_Some _ _ _ Ha) as (x & Hx & Hxa).
  destruct (findIndex_Some _ _ _ Hb) as (y & Hy & Hyb).
  assert (y = x) as -> by congruence.
  apply String.eqb_eq in Hxa, Hyb. congruence.
Qed.

Lemma headerIndex_case headers a b :
  Js.toLowerCase a = Js.toLowerCase b -> headerIndex headers a = headerIndex headers b.
Proof. unfold headerIndex. now intros ->. Qed.

Lemma lookup_setInRow t v row k :
  match setInRow t v row !! k with Some x => x | None => EmptyString end
  = if k =? t then v else match row !! k with Some x => x | None => EmptyString end.
Proof.
  unfold setInRow. destruct (t <? length row) eqn:Ht.
  - apply Nat.ltb_lt in Ht. destruct (Nat.eqb_spec k t) as [->|Hne].
    + now rewrite list_lookup_insert_eq.
    + now rewrite list_lookup_insert_ne.
  - apply Nat.ltb_ge in Ht. destruct (Nat.eqb_spec k t) as [->|Hne].
    + rewrite lookup_app_r by lia.
      rewrite lookup_app_r by (rewrite length_replicate; lia).
      rewrite length_replicate. now replace (t - length row - (t - length row)) with 0 by lia.
    + destruct (decide (k < length row)) as [Hk|Hk].
      * now rewrite lookup_app_l.
      * rewrite (lookup_ge_None_2 row k) by lia.
        rewrite lookup_app_r by lia.
        destruct (decide (k < t)) as [Hkt|Hkt].
        -- rewrite lookup_app_l by (rewrite length_replicate; lia).
           rewrite lookup_replicate_2 by lia. reflexivity.
        -- rewrite lookup_app_r by (rewrite length_replicate; lia).
           rewrite length_replicate.
           destruct (k - length row - (t - length row)) as [|j] eqn:E; [lia|].
           reflexivity.
Qed.

Lemma cellAt_setInRow t v row i :
  cellAt (setInRow t v row) i
  = if bool_decide (i = Some t) then safeStr v else cellAt row i.
Proof.
  destruct i as [k|]; cbn [cellAt].
  - rewrite lookup_setInRow. destruct (Nat.eqb_spec k t) as [->|Hne].
    + now rewrite bool_decide_eq_true_2.
    + rewrite bool_decide_eq_false_2; [done|congruence].
  - now rewrite bool_decide_eq_false_2.
Qed.

(** Writing the status cell of a row changes the status of its record
    and nothing else. *)
Lemma recordOfRow_status headers t v row :
  headerIndex headers "billingStatus" = Some t ->
  recordOfRow headers (setInRow t v row) = withStatus (safeStr v) (recordOfRow headers row).
Proof.
  intros Ht. unfold recordOfRow, withStatus. simpl.
  rewrite !cellAt_setInRow, Ht.
  rewrite (bool_decide_eq_true_2 (Some t = Some t)) by reflexivity.
  assert (Hother : forall name,
             Js.toLowerCase name <> "billingstatus" ->
             bool_decide (headerIndex headers name = Some t) = false).
  { intros name Hne. apply bool_decide_eq_false_2. intros Hn.
    apply Hne. apply (headerIndex_name headers name "billingStatus" t Hn Ht). }
  rewrite !Hother by discriminate. reflexivity.
Qed.

Lemma writeA1_cell t r v g :
  writeA1 (columnLetter (t + 1)) (r + 1) v g = setCell r t v g.
Proof.
  unfold writeA1. rewrite columnLetter_number.
  replace (t + 1) with (S t) by lia. now replace (r + 1) with (S r) by lia.
Qed.

(** The call on a sheet that lists the customer, as a write of one
    cell. *)
Lemma updateCustomerCell_row customer headerName value headers pre row post t k :
  headerIndex headers headerName = Some t ->
  headerIndex headers "customerId" = Some k ->
  Forall (fun r => customerId (recordOfRow headers r) <> customer) pre ->
  customerId (recordOfRow headers row) = customer ->
  updateCustomerCellInMasterSheet customer headerName value (headers :: pre ++ row :: post)
  = headers :: pre ++ setInRow t value row :: post.
Proof.
  intros Ht Hk Hpre Hrow. unfold updateCustomerCellInMasterSheet.
  assert (Hlen : (length (headers :: pre ++ row :: post) <? 2) = false).
  { apply Nat.ltb_ge. cbn [length]. rewrite length_app. cbn [length]. lia. }
  rewrite Hlen. cbv zeta. rewrite Ht.
  rewrite (headerIndex_case headers "customerid" "customerId" eq_refl), Hk.
  cbn [tail].
  rewrite (findIndex_first _ pre row post).
  - rewrite writeA1_cell. unfold setCell.
    replace (length pre + 1 <? length (headers :: pre ++ row :: post)) with true.
    2:{ symmetry. apply Nat.ltb_lt. cbn [length]. rewrite length_app. cbn [length]. lia. }
    replace (length pre + 1) with (S (length pre)) by lia. cbn [alter list_alter].
    f_equal. clear. induction pre as [|p pre IH]; [reflexivity|].
    cbn [length app alter list_alter]. f_equal. exact IH.
  - eapply Forall_impl; [exact Hpre|]. intros r Hr. cbn beta.
    apply String.eqb_neq. unfold recordOfRow in Hr. simpl in Hr. now rewrite Hk in Hr.
  - apply String.eqb_eq. unfold recordOfRow in Hrow. simpl in Hrow. now rewrite Hk in Hrow.
Qed.

Lemma readCustomersFromValues_rows headers rows :
  is_Some (headerIndex headers "customerId") ->
  readCustomersFromValues (headers :: rows)
  = List.filter (fun c => Js.truthy (customerId c)) (map (recordOfRow headers) rows).
Proof.
  intros [k Hk]. unfold readCustomersFromValues. rewrite Hk. cbn [tail].
  destruct rows as [|r rows]; [reflexivity|]. reflexivity.
Qed.

End MasterSheet.

(** X20. [columnLetter] names the column in the A1 notation of the
    spreadsheet store: its letters are upper-case ASCII letters that the
    store reads back as the same column number, so that different columns
    get different names; only column 0 has the empty name. *)
Theorem columnLetter_names_the_column (n : nat) :
  columnNumber (columnLetter n) = n
  /\ allChars Js.isUpper (columnLetter n) = true
  /\ (columnLetter n = EmptyString <-> n = 0)
  /\ forall m, columnLetter m = columnLetter n -> m = n.
Proof.
  split; [apply columnLetter_number|]. split; [now apply columnLetterLoop_upper|].
  split.
  - split.
    + intros H. rewrite <- (columnLetter_number n), H. reflexivity.
    + now intros ->.
  - intros m H. rewrite <- (columnLetter_number m), H. apply columnLetter_number.
Qed.

(** X21. A status written through
    [updateCustomerStatusInMasterSheet] is the status read back: in a sheet
    with the two headers, whatever their letter case and order, the update
    changes the first row of the customer, and the directory read afterwards
    holds that customer with the new status, trimmed, and every other
    record as before. For an unknown customer the sheet stays as it is. *)
Theorem status_update_is_read_back customer newStatus headers pre row post :
  is_Some (headerIndex headers "billingStatus") ->
  is_Some (headerIndex headers "customerId") ->
  Js.truthy customer = true ->
  Forall (fun r => customerId (recordOfRow headers r) <> customer) pre ->
  customerId (recordOfRow headers row) = customer ->
  readCustomersFromValues
    (updateCustomerStatusInMasterSheet customer newStatus (headers :: pre ++ row :: post))
  = readCustomersFromValues (headers :: pre)
    ++ withStatus (safeStr newStatus) (recordOfRow headers row)
    :: readCustomersFromValues (headers :: post)
  /\ updateCustomerStatusInMasterSheet customer newStatus (headers :: pre) = headers :: pre.
Proof.
  intros [t Ht] [k Hk] Hcust Hpre Hrow. split.
  - unfold updateCustomerStatusInMasterSheet.
    rewrite (updateCustomerCell_row _ _ _ _ _ _ _ t k Ht Hk Hpre Hrow).
    rewrite !readCustomersFromValues_rows by eauto.
    rewrite map_app, List.filter_app. cbn [map List.filter].
    rewrite (recordOfRow_status headers t newStatus row Ht).
    cbn [withStatus customerId]. now rewrite Hrow, Hcust.
  - unfold updateCustomerStatusInMasterSheet, updateCustomerCellInMasterSheet.
    destruct (length (headers :: pre) <? 2); [reflexivity|]. cbv zeta.
    rewrite Ht, (headerIndex_case headers "customerid" "customerId" eq_refl), Hk.
    cbn [tail].
    destruct (findIndex _ pre) as [i|] eqn:Hf; [|reflexivity].
    destruct (findIndex_Some _ _ _ Hf) as (r & Hr & Hp).
    apply String.eqb_eq in Hp.
    rewrite List.Forall_forall in Hpre. exfalso. apply (Hpre r).
    + apply list_elem_of_In. eapply list_elem_of_lookup_2; eauto.
    + unfold recordOfRow. simpl. now rewrite Hk.
Qed.

Lemma status_update_is_read_back_witness :
  map status
    (readCustomersFromValues
       (updateCustomerStatusInMasterSheet "cust_b" " past_due "
          [ ["CustomerID"; "intakeEmail"; "BillingStatus"];
            ["cust_a"; "a@x.test"; "active"];
            ["cust_b"; "b@x.test"];
            ["cust_c"; "c@x.test"; "trial"] ]))
  = ["active"; "past_due"; "trial"].
Proof.
  refine (eq_trans
            (f_equal (map status)
               (proj1 (status_update_is_read_back "cust_b" " past_due "
                         ["CustomerID"; "intakeEmail"; "BillingStatus"]
                         [["cust_a"; "a@x.test"; "active"]]
                         ["cust_b"; "b@x.test"]
                         [["cust_c"; "c@x.test"; "trial"]] _ _ _ _ _)))
            _).
  - vm_compute. eauto.
  - vm_compute. eauto.
  - reflexivity.
  - constructor; [|constructor]. vm_compute. discriminate.
  - reflexivity.
  - reflexivity.
Defined.

(** ** The storage webhook: proofs *)

Section StorageWebhook.

Lemma matchPrefix_app pattern date rest :
  matchPrefix pattern date = Some EmptyString ->
  matchPrefix pattern (date +:+ rest) = Some rest.
Proof.
  revert date. induction pattern as [|p pattern IH]; intros date; cbn [matchPrefix].
  - now intros [= ->].
  - destruct date as [|c date]; [discriminate|].
    change (String c date +:+ rest) with (String c (date +:+ rest)).
    cbn [matchPrefix].
    destruct (match p with PDigit => isDigit c | PLit l => Ascii.eqb c l end);
      [apply IH|discriminate].
Qed.

Lemma matchPrefix_chars (q : ascii -> bool) pattern date :
  (forall c, isDigit c = true -> q c = true) ->
  Forall (fun p => match p with PDigit => True | PLit l => q l = true end) pattern ->
  matchPrefix pattern date = Some EmptyString ->
  allChars q date = true.
Proof.
  intros Hd Hpat. revert date.
  induction Hpat as [|p pattern Hp _ IH]; intros date; cbn [matchPrefix].
  - now intros [= ->].
  - destruct date as [|c date]; [discriminate|].
    destruct p as [|l].
    + destruct (isDigit c) eqn:Hc; [|discriminate].
      intros H. cbn [allChars]. now rewrite (Hd c Hc), IH.
    + destruct (Ascii.eqb_spec c l) as [->|]; [|discriminate].
      intros H. cbn [allChars]. now rewrite Hp, IH.
Qed.

Lemma digit_not_slash c : isDigit c = true -> negb (Ascii.eqb c "/") = true.
Proof. destruct c as [[] [] [] [] [] [] [] []]; vm_compute; congruence. Qed.

Lemma stampChar_facts c :
  isStampChar c = true ->
  Ascii.eqb "Z" c = false /\ isLineTerminator c = false /\ negb (Ascii.eqb c "/") = true.
Proof. destruct c as [[] [] [] [] [] [] [] []]; vm_compute; intuition congruence. Qed.

Lemma startsWith_nil s : Js.startsWith s EmptyString = true.
Proof. now destruct s. Qed.

Lemma startsWith_app p s : Js.startsWith (p +:+ s) p = true.
Proof.
  induction p as [|c p IH]; [apply startsWith_nil|].
  change (String c p +:+ s) with (String c (p +:+ s)). cbn [Js.startsWith].
  now rewrite Ascii.eqb_refl.
Qed.

Lemma afterLazy_stamp time name :
  allChars isStampChar time = true ->
  afterLazy "Z__" (time +:+ "Z__" +:+ name) = Some name.
Proof.
  induction time as [|c time IH].
  { intros _. change (EmptyString +:+ "Z__" +:+ name) with (String "Z" ("__" +:+ name)).
    cbn [afterLazy]. change (String "Z" ("__" +:+ name)) with ("Z__" +:+ name).
    now rewrite startsWith_app, dropStr_app. }
  cbn [allChars]. intros [Hc Ht]%andb_true_iff.
  destruct (stampChar_facts c Hc) as (Hz & Hlt & _).
  change (String c time +:+ "Z__" +:+ name) with (String c (time +:+ "Z__" +:+ name)).
  cbn [afterLazy Js.startsWith]. rewrite Hz, Hlt. now apply IH.
Qed.

Lemma allChars_app p a b : allChars p (a +:+ b) = allChars p a && allChars p b.
Proof.
  induction a as [|c a IH]; [reflexivity|].
  change (String c a +:+ b) with (String c (a +:+ b)). cbn [allChars].
  now rewrite IH, andb_assoc.
Qed.

Lemma afterLast_none_app sep a b :
  allChars (fun c => negb (Ascii.eqb c sep)) a = true ->
  afterLast sep b = None -> afterLast sep (a +:+ b) = None.
Proof.
  induction a as [|c a IH]; [now intros _|].
  cbn [allChars]. intros [Hc Ha]%andb_true_iff Hb.
  change (String c a +:+ b) with (String c (a +:+ b)). cbn [afterLast].
  rewrite (IH Ha Hb). apply negb_true_iff in Hc. now rewrite Hc.
Qed.

Lemma afterLast_last sep a b :
  afterLast sep b = None -> afterLast sep (a +:+ String sep b) = Some b.
Proof.
  intros Hb. induction a as [|c a IH].
  - change (EmptyString +:+ String sep b) with (String sep b). cbn [afterLast].
    now rewrite Hb, Ascii.eqb_refl.
  - change (String c a +:+ String sep b) with (String c (a +:+ String sep b)).
    cbn [afterLast]. now rewrite IH.
Qed.

End StorageWebhook.

(** X22. The key under which the upload webhooks store a file gives
    the file name back: for a key made of [inbound/], a stamp of the shape
    [dddd-dd-ddT...Z] whose time part holds digits and hyphens, two
    underscores and a name without a slash, the storage webhook derives
    exactly that name. *)
Theorem stored_key_gives_the_name_back (date time name : string) :
  matchPrefix datePattern date = Some EmptyString ->
  allChars isStampChar time = true ->
  afterLast "/" name = None ->
  r2Filename (inboundKey (date +:+ time +:+ "Z") name) = name.
Proof.
  intros Hdate Htime Hname.
  assert (Hd : allChars (fun c => negb (Ascii.eqb c "/")) date = true).
  { apply (matchPrefix_chars _ datePattern); [apply digit_not_slash| |exact Hdate].
    repeat constructor. }
  assert (Ht : allChars (fun c => negb (Ascii.eqb c "/")) time = true).
  { clear -Htime. induction time as [|c time IH]; [reflexivity|].
    cbn [allChars] in *. apply andb_true_iff in Htime as [Hc Ht].
    destruct (stampChar_facts c Hc) as (_ & _ & ->). now apply IH. }
  set (base := date +:+ time +:+ "Z__" +:+ name).
  assert (Hkey : inboundKey (date +:+ time +:+ "Z") name = "inbound" +:+ String "/" base).
  { unfold inboundKey, base. rewrite !string_app_assoc. reflexivity. }
  assert (Hbase : afterLast "/" base = None).
  { unfold base. apply afterLast_none_app; [exact Hd|].
    apply afterLast_none_app; [exact Ht|].
    apply (afterLast_none_app "/" "Z__" name); [reflexivity|exact Hname]. }
  unfold r2Filename, safeBaseName. rewrite Hkey, (afterLast_last "/" "inbound" base Hbase).
  assert (Htruthy : Js.truthy base = true).
  { unfold base. destruct date; [discriminate Hdate|reflexivity]. }
  rewrite Htruthy. unfold stripTimestampPrefix, base.
  rewrite (matchPrefix_app datePattern date _ Hdate).
  now rewrite (afterLazy_stamp time name Htime).
Qed.

Lemma stored_key_gives_the_name_back_witness :
  r2Filename "inbound/2026-11-02T09-30-00-125Z__My_Resume.PDF" = "My_Resume.PDF".
Proof.
  apply (stored_key_gives_the_name_back "2026-11-02T" "09-30-00-125" "My_Resume.PDF");
    reflexivity.
Defined.

(** The download, call by call. *)
Lemma r2DownloadToBuffer_run env dep key w :
  Js.truthy key = true ->
  r2DownloadToBuffer env dep key w
  = match getR2Client dep with
    | Throw e => (Throw e, w)
    | Ok bucket =>
        if remoteFails env (calls w) (R2GetObject bucket key)
        then (Throw "remote_call_failed", recorded (R2GetObject bucket key) w)
        else match r2Objects dep bucket key with
             | Some body => (Ok body, recorded (R2GetObject bucket key) w)
             | None => (Throw "R2 object body missing",
                        recorded (R2GetObject bucket key) w)
             end
    end.
Proof.
  intros Hkey. unfold r2DownloadToBuffer. rewrite Hkey. cbn [negb].
  unfold bind, liftOutcome, issue, recorded, ret, throw.
  destruct (getR2Client dep) as [bucket|e]; [|reflexivity].
  destruct (remoteFails env (calls w) (R2GetObject bucket key)); [reflexivity|].
  now destruct (r2Objects dep bucket key).
Qed.

(** X23. The storage webhook never throws, and it runs the pipeline
    only behind its guards. The answers 401, 400 and 415, and the answer
    500 for a setting of the object store that is missing, are given
    before any remote call, with nothing changed; the only other error
    answer is the 500 of a download that failed, given after the one
    GetObject request and nothing else; 404 is never answered. A request
    that is processed carried the secret the deployment asks for, a key and
    a recipient, had a file name on the allowlist and an object in the
    store, and its answer is the result of [processInboundDoc] for that
    object, run after the GetObject request. *)
Theorem inboundR2_runs_behind_its_guards env dep req w :
  match inboundR2 env dep req w with
  | (Ok (Processed result), w') =>
      r2Authorized dep req
      /\ Js.truthy (r2Key_of req) = true
      /\ Js.truthy (r2ToEmail_of req) = true
      /\ Js.truthy (r2Bucket_of dep) = true
      /\ isAllowedFileByName (r2Filename (r2Key_of req)) = true
      /\ exists bucket buffer extractedText,
           getR2Client dep = Ok bucket
           /\ remoteFails env (calls w) (R2GetObject bucket (r2Key_of req)) = false
           /\ r2Objects dep bucket (r2Key_of req) = Some buffer
           /\ extractTextFromBuffer (platform env) (r2Filename (r2Key_of req)) buffer
              = Ok extractedText
           /\ processInboundDoc env
                (r2Args (r2Bucket_of dep) (r2Key_of req) (r2ToEmail_of req) buffer
                   extractedText)
                (recorded (R2GetObject bucket (r2Key_of req)) w)
              = (Ok result, w')
  | (Ok (Rejected httpStatus _), w') =>
      (In httpStatus [401; 400; 415] /\ w' = w)
      \/ (httpStatus = 500 /\ w' = w
          /\ (Js.truthy (r2Bucket_of dep) = false \/ exists e, getR2Client dep = Throw e))
      \/ (httpStatus = 500
          /\ exists bucket,
               getR2Client dep = Ok bucket
               /\ w' = recorded (R2GetObject bucket (r2Key_of req)) w
               /\ (remoteFails env (calls w) (R2GetObject bucket (r2Key_of req)) = true
                   \/ r2Objects dep bucket (r2Key_of req) = None))
  | (Throw _, _) => False
  end.
Proof.
  unfold inboundR2, tryCatch. cbv zeta.
  fold (r2Key_of req) (r2ToEmail_of req) (r2Bucket_of dep).
  destruct (_ && negb _) eqn:Hsecret; [cbn; left; split; [now left|reflexivity]|].
  destruct (Js.truthy (r2Key_of req)) eqn:Hkey; cbn [negb];
    [|cbn; left; split; [right; now left|reflexivity]].
  destruct (Js.truthy (r2ToEmail_of req)) eqn:Hto; cbn [negb];
    [|cbn; left; split; [right; now left|reflexivity]].
  destruct (Js.truthy (r2Bucket_of dep)) eqn:Hbucket; cbn [negb];
    [|cbn; right; left; split; [reflexivity|split; [reflexivity|now left]]].
  destruct (isAllowedFileByName (r2Filename (r2Key_of req))) eqn:Hallowed; cbn [negb];
    [|cbn; left; split; [do 2 right; now left|reflexivity]].
  unfold bind at 1. rewrite (r2DownloadToBuffer_run env dep _ w Hkey).
  destruct (getR2Client dep) as [bucket|e] eqn:Hclient;
    [|cbn; right; left; split; [reflexivity|split; [reflexivity|right; now exists e]]].
  destruct (remoteFails env (calls w) (R2GetObject bucket (r2Key_of req))) eqn:Hfault;
    [cbn; right; right; split; [reflexivity|exists bucket; repeat split; now left]|].
  destruct (r2Objects dep bucket (r2Key_of req)) as [buffer|] eqn:Hobject;
    [|cbn; right; right; split; [reflexivity|exists bucket; repeat split; now right]].
  unfold bind at 1, liftOutcome at 1.
  destruct (extract_returns (platform env) (r2Filename (r2Key_of req)) buffer)
    as [text Htext].
  rewrite Htext. unfold bind at 1.
  destruct (processInboundDoc_stages env
              (r2Args (r2Bucket_of dep) (r2Key_of req) (r2ToEmail_of req) buffer text)
              (recorded (R2GetObject bucket (r2Key_of req)) w))
    as (raw & m & rubric & ai & tally & w1 & w2 & w3 & w4 & w5 & w6 & H).
  cbv zeta in H. destruct H as (_ & _ & _ & _ & _ & _ & _ & Hrun).
  rewrite Hrun. unfold ret.
  split.
  { unfold r2Authorized. destruct (INBOUND_WEBHOOK_SECRET dep) as [expected|]; [|done].
    intros Hexp. rewrite Hexp in Hsecret. cbn [andb] in Hsecret.
    apply negb_false_iff in Hsecret.
    destruct (reqSecret req) as [given|]; [|discriminate].
    apply andb_true_iff in Hsecret as [_ He]. apply String.eqb_eq in He. now subst. }
  repeat (split; [reflexivity|]).
  exists bucket, buffer, text.
  split; [reflexivity|]. split; [exact Hfault|]. split; [exact Hobject|].
  split; [exact Htext|exact Hrun].
Qed.

(** ** Caps and private links: proofs *)

Section Caps.

Context (env : Env).

Lemma slice0_length n s : String.length (Js.slice0 n s) <= Nat.min n (String.length s).
Proof.
  revert s. induction n as [|n IH]; intros s; [simpl; lia|].
  destruct s as [|c r]; [simpl; lia|].
  cbn [Js.slice0 String.length]. specialize (IH r). lia.
Qed.

Lemma capExtracted_length raw :
  String.length (capExtracted env raw) <= MAX_EXTRACTED_CHARS (config env).
Proof.
  unfold capExtracted, extractedTooLargeOf.
  destruct (Nat.ltb_spec (MAX_EXTRACTED_CHARS (config env)) (String.length raw)).
  - pose proof (slice0_length (MAX_EXTRACTED_CHARS (config env)) raw). lia.
  - lia.
Qed.

(** The link cell written for a storage key when public links are off. *)
Lemma fileCell_private key :
  R2_PUBLIC_LINKS (config env) = false \/ R2_PUBLIC_BASE_URL (config env) = EmptyString ->
  buildR2PublicUrl env key = EmptyString.
Proof.
  unfold buildR2PublicUrl. intros [->| ->]; [reflexivity|].
  now destruct (R2_PUBLIC_LINKS (config env)).
Qed.

End Caps.

(** X24. The document text of a scorer request is capped: every call of
    [safeScoreResume] in a run carries at most MAX_OPENAI_CHARS and at most
    MAX_EXTRACTED_CHARS characters of the document, whatever the document.
    The prompt that reaches [scoreResume] is that text alone for a tenant
    without rubric; with a rubric it is the rubric block in a frame of 38
    characters followed by the text, so that it holds at most
    MAX_OPENAI_CHARS characters more than the rubric and its frame. *)
Theorem scorer_request_is_capped env args w :
  Issues (fun ev => forall text rubric,
              ev = ScoreCall text rubric ->
              String.length text <= MAX_OPENAI_CHARS (config env)
              /\ String.length text <= MAX_EXTRACTED_CHARS (config env)
              /\ String.length (scorePrompt text rubric)
                 <= MAX_OPENAI_CHARS (config env) + 38 + String.length (orEmpty rubric))
    w (snd (processInboundDoc env args w))
  /\ (forall text rubric w0,
        safeScoreResume env text rubric w0
        = if remoteFails env (calls w0) (ScoreCall text rubric)
          then (Throw "remote_call_failed", recorded (ScoreCall text rubric) w0)
          else (Ok (scoreResume env (scorePrompt text rubric)),
                recorded (ScoreCall text rubric) w0))
  /\ forall text rubric,
       String.length (scorePrompt text rubric)
       = String.length text
         + match rubric with
           | Some block => if Js.truthy block then 38 + String.length block else 0
           | None => 0
           end.
Proof.
  assert (Hlen : forall text rubric,
             String.length (scorePrompt text rubric)
             = String.length text
               + match rubric with
                 | Some block => if Js.truthy block then 38 + String.length block else 0
                 | None => 0
                 end).
  { intros text [block|]; unfold scorePrompt; [|lia].
    destruct (Js.truthy block); [|lia].
    rewrite !string_app_length. unfold newline. cbn [String.length]. lia. }
  split; [|split; [|exact Hlen]].
  - destruct (extractedTextRawOf_returns env args) as [raw Hraw].
    apply (pipeline_issues env _ args w raw Hraw).
    + discriminate.
    + discriminate.
    + intros ev Hev text rubric ->. discriminate.
    + intros rubric text rubric' [= <- <-].
      pose proof (slice0_length (MAX_OPENAI_CHARS (config env)) (capExtracted env raw)).
      pose proof (capExtracted_length env raw).
      rewrite Hlen. split; [lia|]. split; [lia|].
      destruct rubric as [block|]; cbn [orEmpty]; [destruct (Js.truthy block)|]; lia.
    + discriminate.
    + discriminate.
  - intros text rubric w0. unfold safeScoreResume, scorePrompt, bind, issue, ret, recorded.
    destruct (remoteFails env (calls w0) (ScoreCall text rubric)); [reflexivity|].
    destruct rubric as [block|]; [now destruct (Js.truthy block)|reflexivity].
Qed.

(** X25. No public link unless enabled: when R2_PUBLIC_LINKS is
    off or no public base URL is set, every write of [tallyApply] to the
    link column writes the empty text. *)
Theorem no_public_link_unless_enabled env sheet customer docType source key token ai w :
  R2_PUBLIC_LINKS (config env) = false \/ R2_PUBLIC_BASE_URL (config env) = EmptyString ->
  Issues (fun ev => forall s rn link, ev = SheetsUpdate s rn (WFile link) -> link = EmptyString)
    w (snd (tallyApply env sheet customer docType source key token ai w)).
Proof.
  intros Hoff. revert w.
  set (P := fun ev => forall s rn link, ev = SheetsUpdate s rn (WFile link) -> link = EmptyString).
  change (Keeps (Issues P) (tallyApply env sheet customer docType source key token ai)).
  assert (Hup : forall rn wr, (forall link, wr = WFile link -> link = EmptyString) ->
                              Keeps (Issues P) (sheetsUpdate env sheet rn wr)).
  { intros rn wr Hwr. apply issues_sheetsUpdate. intros s rn' link [= _ _ ->]. now apply Hwr. }
  assert (Hget : forall site rn, Keeps (Issues P) (sheetsGetTokens env site sheet rn)).
  { intros site rn. apply issues_sheetsGetTokens. discriminate. }
  assert (Hens : Keeps (Issues P) (ensureTodayTallyRow env sheet (today env) customer)).
  { unfold ensureTodayTallyRow.
    apply keeps_bind; [typeclasses eauto| |intros _].
    { apply issues_share. intros ev Hev s rn link ->. discriminate. }
    apply keeps_bind; [typeclasses eauto| |intros rows].
    { apply issues_sheetsGetRows. discriminate. }
    destruct (findIndex _ rows); [apply keeps_ret; typeclasses eauto|].
    apply keeps_bind; [typeclasses eauto| |intros _].
    { apply issues_sheetsAppend. discriminate. }
    apply keeps_bind; [typeclasses eauto| |intros rows2].
    { apply issues_sheetsGetRows. discriminate. }
    apply keeps_ret; typeclasses eauto. }
  unfold tallyApply, tokenAlreadyRecorded, recordPointerAndTokens. cbv zeta.
  rewrite (fileCell_private env key Hoff). cbn [Js.truthy].
  apply keeps_bind; [typeclasses eauto|exact Hens|intros row].
  apply keeps_bind; [typeclasses eauto| |intros has].
  { destruct (_ && _); [|apply keeps_ret; typeclasses eauto].
    apply keeps_tryCatch; [typeclasses eauto| |intros ?; apply keeps_ret; typeclasses eauto].
    apply keeps_bind; [typeclasses eauto|apply Hget|intros ?].
    apply keeps_ret; typeclasses eauto. }
  destruct has; [apply keeps_ret; typeclasses eauto|].
  repeat (apply keeps_bind; [typeclasses eauto|apply Hup; discriminate|intros _]).
  apply keeps_bind; [typeclasses eauto| |intros _; apply keeps_ret; typeclasses eauto].
  destruct (_ && _); [|apply keeps_ret; typeclasses eauto].
  apply keeps_bind; [typeclasses eauto|apply Hup; discriminate|intros _].
  apply keeps_bind; [typeclasses eauto|apply Hup; now intros link [= <-]|intros _].
  apply keeps_bind; [typeclasses eauto|apply Hget|intros ?].
  apply keeps_bind; [typeclasses eauto|apply Hup; discriminate|intros _].
  destruct (aiScore ai); [apply Hup; discriminate|apply keeps_ret; typeclasses eauto].
Qed.

Lemma no_public_link_unless_enabled_witness :
  Issues (fun ev => forall s rn link, ev = SheetsUpdate s rn (WFile link) -> link = EmptyString)
    (Sample.world [])
    (snd (tallyApply (Sample.env "active" Sample.noFaults) "sheet-acme" "cust_acme" RESUME
            "resend" "inbound/k2" "hash:doc" (AiReply Sample.reply) (Sample.world []))).
Proof.
  apply (no_public_link_unless_enabled (Sample.env "active" Sample.noFaults)).
  left. reflexivity.
Defined.
